(** * Multi-hypotheses tracking: the hypothesis graph of [mht::Model]

    A shallow embedding of [src/src/model.cpp]: the weight layout
    ([computeNumWeights], the weight-id ranges of [initializeOpenGMModel],
    [getWeightDescriptions]), the reconstruction of a ground-truth labeling
    from link annotations ([readGTfromJson]) and the verification of a
    labeling ([verifySolution]).

    Conventions of the embedding.
    - [int] values are in [Z]: the feature counts are lengths of in-memory
      vectors, far below the range of [int], and the arithmetic on them is
      taken as exact.
    - [std::map] is an association list in iteration (ascending key) order.
    - [Solution] is [std::vector<size_t>]; [operator[]] does no bounds check,
      so an index outside the vector is undefined behaviour, which the
      embedding keeps apart from a thrown exception (outcome [Undefined]).
    - [std::runtime_error] is the type [Error], one constructor per [throw]
      of the file; [what] gives the message.
    - Console output is kept where a property speaks about it
      ([verifySolution]); reading and parsing files is outside the model. *)


From Stdlib Require Import ZArith String Floats.PrimFloat DecimalString.
From Stdlib Require DecimalNat DecimalFacts.
From stdpp Require Import base list strings.

Open Scope Z_scope.

(** * The program

    ** Exceptions and outcomes *)

Definition show_nat (n : nat) : string := NilZero.string_of_uint (Nat.to_uint n).
Definition show_int (z : Z) : string := NilZero.string_of_int (Z.to_int z).

Inductive Error :=
  | NotSameNumberOfFeatures (name : string)
  | CannotFindLink (srcId destId : Z)
  | SourceUsedMoreThanOnce
  | NoAppearanceFeatures (id : Z)
  | NoDisappearanceFeatures (id : Z).

Definition what (e : Error) : string :=
  match e with
  | NotSameNumberOfFeatures name =>
      name +:+ " do not have the same number of features!"
  | CannotFindLink srcId destId =>
      "Cannot find link to annotate: " +:+ show_int srcId +:+ " to " +:+ show_int destId
  | SourceUsedMoreThanOnce => "A source node has been used more than once!"
  | NoAppearanceFeatures id =>
      "Segmentation Hypothesis: " +:+ show_int id
      +:+ " - GT contains appearing variable that has no appearance features set!"
  | NoDisappearanceFeatures id =>
      "Segmentation Hypothesis: " +:+ show_int id
      +:+ " - GT contains disappearing variable that has no disappearance features set!"
  end.

(** The error taxonomy of the specification. *)
Inductive ErrorClass :=
  | ConsistencyError
  | ReferenceError
  | InconsistentAnnotationError
  | InvariantViolationError.

Definition classify (e : Error) : ErrorClass :=
  match e with
  | NotSameNumberOfFeatures _ => ConsistencyError
  | CannotFindLink _ _ => ReferenceError
  | SourceUsedMoreThanOnce => InconsistentAnnotationError
  | NoAppearanceFeatures _ | NoDisappearanceFeatures _ => InvariantViolationError
  end.

Inductive outcome (A : Type) :=
  | Ok (a : A)
  | Throw (e : Error)
  | Undefined.
Arguments Ok {A} a.
Arguments Throw {A} e.
Arguments Undefined {A}.

#[global] Instance outcome_ret : MRet outcome := fun A a => Ok a.
#[global] Instance outcome_bind : MBind outcome := fun A B f m =>
  match m with
  | Ok a => f a
  | Throw e => Throw e
  | Undefined => Undefined
  end.
#[global] Instance outcome_fmap : FMap outcome := fun A B f m =>
  match m with
  | Ok a => Ok (f a)
  | Throw e => Throw e
  | Undefined => Undefined
  end.

(** A [for] loop over a container, threading the mutated state; a [throw]
    or an undefined access leaves the loop. *)
Fixpoint for_each {A S : Type} (body : S → A → outcome S) (l : list A) (s : S)
  : outcome S :=
  match l with
  | [] => Ok s
  | a :: l => s' ← body s a; for_each body l s'
  end.

(** ** Data model *)

(** Modelled from the spec: the classes of the hypotheses are declared
    outside this file.  [SegmentationHypothesis::Variable] ([Variable] is a
    keyword here) is a feature vector and the id of the variable in the
    OpenGM model; the id is [-1], the value [readGTfromJson] tests for, as
    long as the variable is not in the model. *)
Record Var := {
  features_ : list float;
  opengmVariableId_ : Z
}.

Definition getNumFeatures (v : Var) : Z := Z.of_nat (length (features_ v)).
Definition getOpenGMVariableId (v : Var) : Z := opengmVariableId_ v.

(** Modelled from the spec: a segmentation hypothesis owns its detection,
    division, appearance and disappearance variables; its id is its key in
    [segmentationHypotheses_]. *)
Record SegmentationHypothesis := {
  detection_ : Var;
  division_ : Var;
  appearance_ : Var;
  disappearance_ : Var
}.
Definition getDetectionVariable := detection_.
Definition getDivisionVariable := division_.
Definition getAppearanceVariable := appearance_.
Definition getDisappearanceVariable := disappearance_.

(** Modelled from the spec: a linking hypothesis owns one variable; its
    source and destination ids are its key in [linkingHypotheses_]. *)
Record LinkingHypothesis := {
  variable_ : Var
}.

(** Modelled from the spec: the ids of the hypotheses of which at most one
    may be active. *)
Record ExclusionConstraint := {
  ids_ : list Z
}.

(** The members of [Model] that this file uses (the class is declared
    outside this file). *)
Record Model := {
  segmentationHypotheses_ : list (Z * SegmentationHypothesis);
  linkingHypotheses_ : list ((Z * Z) * LinkingHypothesis);
  exclusionConstraints_ : list ExclusionConstraint;
  numDetFeatures_ : Z;
  numDivFeatures_ : Z;
  numAppFeatures_ : Z;
  numDisFeatures_ : Z;
  numLinkFeatures_ : Z;
  (** [model_.numberOfVariables()] of the OpenGM model *)
  model_numberOfVariables : nat
}.

(** [std::map::find] *)
Fixpoint map_find {K V : Type} `{EqDecision K} (k : K) (m : list (K * V)) : option V :=
  match m with
  | [] => None
  | (k', v) :: m => if decide (k = k') then Some v else map_find k m
  end.

(** Modelled from the spec: a default-constructed variable has no features
    and is not in the model. *)
Definition Var_default : Var := {| features_ := []; opengmVariableId_ := -1 |}.
Definition SegmentationHypothesis_default : SegmentationHypothesis :=
  {| detection_ := Var_default; division_ := Var_default;
     appearance_ := Var_default; disappearance_ := Var_default |}.

(** [segmentationHypotheses_[id]]: [std::map::operator[]] inserts a
    default-constructed hypothesis under a missing key.  Each use below
    indexes the solution with the detection id of the result at once, which
    for the inserted default ([-1]) is out of range, so the insertion is
    never observed and the map is not threaded. *)
Definition segmentationHypotheses_at (m : Model) (id : Z) : SegmentationHypothesis :=
  default SegmentationHypothesis_default (map_find id (segmentationHypotheses_ m)).

(** ** Solutions *)

Abbreviation Solution := (list nat).

Definition in_range (solution : Solution) (i : Z) : bool :=
  (0 <=? i) && (i <? Z.of_nat (length solution)).

(** [solution[i]] as an rvalue *)
Definition sol_get (solution : Solution) (i : Z) : outcome nat :=
  if in_range solution i then Ok (default 0%nat (solution !! Z.to_nat i)) else Undefined.

(** [solution[i] = v] *)
Definition sol_set (solution : Solution) (i : Z) (v : nat) : outcome Solution :=
  if in_range solution i then Ok (<[Z.to_nat i := v]> solution) else Undefined.

(** ** Weight layout: [Model::computeNumWeights] *)

(** The lambda [checkNumFeatures]; [previousNumFeats] is passed by
    reference, the result is its value after the call. *)
Definition checkNumFeatures (var : Var) (previousNumFeats : Z) (name : string)
  : outcome Z :=
  if (previousNumFeats <? 0) && (0 <? getNumFeatures var)
  then Ok (getNumFeatures var)
  else if (0 <? getNumFeatures var) && negb (getNumFeatures var =? previousNumFeats)
       then Throw (NotSameNumberOfFeatures name)
       else Ok previousNumFeats.

(** Body of the loop over [segmentationHypotheses_]; the state is
    [(numDetFeatures, numDivFeatures, numAppFeatures, numDisFeatures)]. *)
Definition computeNumWeights_segmentation (st : Z * Z * Z * Z)
    (entry : Z * SegmentationHypothesis) : outcome (Z * Z * Z * Z) :=
  let '(numDetFeatures, numDivFeatures, numAppFeatures, numDisFeatures) := st in
  numDetFeatures ← checkNumFeatures (getDetectionVariable entry.2) numDetFeatures "Detections";
  numDivFeatures ← checkNumFeatures (getDivisionVariable entry.2) numDivFeatures "Divisions";
  numAppFeatures ← checkNumFeatures (getAppearanceVariable entry.2) numAppFeatures "Appearances";
  numDisFeatures ← checkNumFeatures (getDisappearanceVariable entry.2) numDisFeatures "Disappearances";
  Ok (numDetFeatures, numDivFeatures, numAppFeatures, numDisFeatures).

(** Body of the loop over [linkingHypotheses_]. *)
Definition computeNumWeights_link (numLinkFeatures : Z)
    (entry : (Z * Z) * LinkingHypothesis) : outcome Z :=
  if numLinkFeatures <? 0
  then Ok (getNumFeatures (variable_ entry.2))
  else if negb (getNumFeatures (variable_ entry.2) =? numLinkFeatures)
       then Throw (NotSameNumberOfFeatures "Links")
       else Ok numLinkFeatures.

Definition set_numFeatures (m : Model) (det div app dis link : Z) : Model :=
  {| segmentationHypotheses_ := segmentationHypotheses_ m;
     linkingHypotheses_ := linkingHypotheses_ m;
     exclusionConstraints_ := exclusionConstraints_ m;
     numDetFeatures_ := det;
     numDivFeatures_ := div;
     numAppFeatures_ := app;
     numDisFeatures_ := dis;
     numLinkFeatures_ := link;
     model_numberOfVariables := model_numberOfVariables m |}.

(** [computeNumWeights] stores the five counts in the model and returns
    the number of weights. *)
Definition computeNumWeights (m : Model) : outcome (Model * Z) :=
  st ← for_each computeNumWeights_segmentation (segmentationHypotheses_ m) (-1, -1, -1, -1);
  let '(numDetFeatures, numDivFeatures, numAppFeatures, numDisFeatures) := st in
  numLinkFeatures ← for_each computeNumWeights_link (linkingHypotheses_ m) (-1);
  let m := set_numFeatures m (Z.max 0 numDetFeatures) (Z.max 0 numDivFeatures)
             (Z.max 0 numAppFeatures) (Z.max 0 numDisFeatures) (Z.max 0 numLinkFeatures) in
  Ok (m, 2 * (numDetFeatures_ m + numDivFeatures_ m + numLinkFeatures_ m
              + numAppFeatures_ m + numDisFeatures_ m)).

(** ** Weight-id ranges of [Model::initializeOpenGMModel] *)

(** [std::vector<size_t> v(n); std::iota(v.begin(), v.end(), start)] *)
Definition iota (n start : Z) : list Z := seqZ start n.

Record WeightIds := {
  linkWeightIds : list Z;
  detWeightIds : list Z;
  divWeightIds : list Z;
  appWeightIds : list Z;
  disWeightIds : list Z
}.

(** The weight ids that [initializeOpenGMModel] hands to the hypotheses
    (their [addToOpenGMModel] is not part of this file). *)
Definition initializeOpenGMModel_weightIds (m : Model) : outcome (Model * WeightIds) :=
  r ← computeNumWeights m;
  let m := r.1 in
  let numLinkWeights := 2 * numLinkFeatures_ m in
  let linkWeightIds := iota numLinkWeights 0 in
  let numDetWeights := 2 * numDetFeatures_ m in
  let detWeightIds := iota numDetWeights numLinkWeights in
  let numDivWeights := 2 * numDivFeatures_ m in
  let divWeightIds := iota numDivWeights (numLinkWeights + numDetWeights) in
  let numAppWeights := 2 * numAppFeatures_ m in
  let appWeightIds := iota numAppWeights (numLinkWeights + numDetWeights + numDivWeights) in
  let numDisWeights := 2 * numDisFeatures_ m in
  let disWeightIds :=
    iota numDisWeights (numLinkWeights + numDetWeights + numDivWeights + numAppWeights) in
  Ok (m, {| linkWeightIds := linkWeightIds; detWeightIds := detWeightIds;
            divWeightIds := divWeightIds; appWeightIds := appWeightIds;
            disWeightIds := disWeightIds |}).

(** ** [Model::getWeightDescriptions] *)

(** [d << name << " = " << state << " - feature " << f] *)
Definition description (name : string) (state f : nat) : string :=
  name +:+ " = " +:+ show_nat state +:+ " - feature " +:+ show_nat f.

(** The lambda [addVariableWeightDescriptions]; [descriptions] is captured
    by reference, the result is its value after the call. *)
Definition addVariableWeightDescriptions (descriptions : list string)
    (numFeatures : Z) (name : string) : list string :=
  foldl (fun descriptions state =>
           foldl (fun descriptions f => descriptions ++ [description name state f])
                 descriptions (seq 0 (Z.to_nat numFeatures)))
        descriptions (seq 0 2).

Definition getWeightDescriptions (m : Model) : outcome (Model * list string) :=
  r ← computeNumWeights m;
  let m := r.1 in
  let descriptions := [] in
  let descriptions := addVariableWeightDescriptions descriptions (numDetFeatures_ m) "Detection" in
  let descriptions := addVariableWeightDescriptions descriptions (numDivFeatures_ m) "Division" in
  let descriptions := addVariableWeightDescriptions descriptions (numAppFeatures_ m) "Appearance" in
  let descriptions := addVariableWeightDescriptions descriptions (numDisFeatures_ m) "Disappearance" in
  let descriptions := addVariableWeightDescriptions descriptions (numLinkFeatures_ m) "Link" in
  Ok (m, descriptions).

(** ** Ground truth: [Model::readGTfromJson] *)

(** One entry of the [linkResults] array of the ground-truth file. *)
Record LinkResult := {
  src : Z;
  dest : Z;
  value : bool
}.

(** The variable is in the labeling and its label is positive. *)
Definition isActive (solution : Solution) (v : Var) : bool :=
  match sol_get solution (getOpenGMVariableId v) with
  | Ok (S _) => true
  | _ => false
  end.

(** Modelled from the spec: [SegmentationHypothesis::getNumActiveIncomingLinks]
    is declared outside this file.  It counts the active link variables
    among the links that have the hypothesis as destination. *)
Definition getNumActiveIncomingLinks (m : Model) (id : Z) (solution : Solution) : nat :=
  length (List.filter (fun entry : (Z * Z) * LinkingHypothesis =>
                         bool_decide (entry.1.2 = id) && isActive solution (variable_ entry.2))
                      (linkingHypotheses_ m)).

(** Modelled from the spec: [SegmentationHypothesis::getNumActiveOutgoingLinks]
    is declared outside this file.  It counts the active link variables
    among the links that have the hypothesis as source. *)
Definition getNumActiveOutgoingLinks (m : Model) (id : Z) (solution : Solution) : nat :=
  length (List.filter (fun entry : (Z * Z) * LinkingHypothesis =>
                         bool_decide (entry.1.1 = id) && isActive solution (variable_ entry.2))
                      (linkingHypotheses_ m)).

(** Body of the first loop over the annotations: links and sources. *)
Definition readGT_source (m : Model) (solution : Solution) (jsonHyp : LinkResult)
  : outcome Solution :=
  let srcId := src jsonHyp in
  let destId := dest jsonHyp in
  if value jsonHyp then
    match map_find (srcId, destId) (linkingHypotheses_ m) with
    | None => Throw (CannotFindLink srcId destId)
    | Some hyp =>
        solution ← sol_set solution (getOpenGMVariableId (variable_ hyp)) 1;
        let detId :=
          getOpenGMVariableId (getDetectionVariable (segmentationHypotheses_at m srcId)) in
        let divId :=
          getOpenGMVariableId (getDivisionVariable (segmentationHypotheses_at m srcId)) in
        det ← sol_get solution detId;
        if bool_decide (det = 1%nat) then sol_set solution divId 1
        else
          det ← sol_get solution detId;
          if bool_decide (det = 1%nat) then Throw SourceUsedMoreThanOnce
          else sol_set solution detId 1
    end
  else Ok solution.

(** Body of the second loop over the annotations: targets. *)
Definition readGT_target (m : Model) (solution : Solution) (jsonHyp : LinkResult)
  : outcome Solution :=
  let destId := dest jsonHyp in
  if value jsonHyp then
    sol_set solution
      (getOpenGMVariableId (getDetectionVariable (segmentationHypotheses_at m destId))) 1
  else Ok solution.

(** Body of the loop over [segmentationHypotheses_]: appearances and
    disappearances. *)
Definition readGT_closing (m : Model) (solution : Solution)
    (entry : Z * SegmentationHypothesis) : outcome Solution :=
  detValue ← sol_get solution (getOpenGMVariableId (getDetectionVariable entry.2));
  if bool_decide (0 < detValue)%nat then
    solution ←
      (if bool_decide (getNumActiveIncomingLinks m entry.1 solution = 0%nat) then
         if bool_decide (getOpenGMVariableId (getAppearanceVariable entry.2) = -1)
         then Throw (NoAppearanceFeatures entry.1)
         else sol_set solution (getOpenGMVariableId (getAppearanceVariable entry.2)) 1
       else Ok solution);
    if bool_decide (getNumActiveOutgoingLinks m entry.1 solution = 0%nat) then
      if bool_decide (getOpenGMVariableId (getDisappearanceVariable entry.2) = -1)
      then Throw (NoDisappearanceFeatures entry.1)
      else sol_set solution (getOpenGMVariableId (getDisappearanceVariable entry.2)) 1
    else Ok solution
  else Ok solution.

(** The labeling after the two loops over the annotations. *)
Definition readGT_annotations (m : Model) (linkingResults : list LinkResult)
  : outcome Solution :=
  let solution := replicate (model_numberOfVariables m) 0%nat in
  solution ← for_each (readGT_source m) linkingResults solution;
  for_each (readGT_target m) linkingResults solution.

Definition readGTfromJson (m : Model) (linkingResults : list LinkResult)
  : outcome Solution :=
  solution ← readGT_annotations m linkingResults;
  for_each (readGT_closing m) (segmentationHypotheses_ m) solution.

(** ** [Model::verifySolution] *)

(** A computation that writes lines to [std::cout]. *)
Definition Cout (A : Type) : Type := A * list string.
Definition cout_ret {A} (a : A) : Cout A := (a, []).
Definition cout_bind {A B} (c : Cout A) (k : A → Cout B) : Cout B :=
  let r := k c.1 in (r.1, c.2 ++ r.2).
Definition cout (line : string) : Cout unit := ((), [line]).
Notation "x ←' c ; k" := (cout_bind c (fun x => k))
  (at level 20, c at level 100, k at level 200, only parsing, right associativity).

Fixpoint cout_for_each {A S : Type} (body : S → A → Cout S) (l : list A) (s : S) : Cout S :=
  match l with
  | [] => cout_ret s
  | a :: l => s' ←' body s a; cout_for_each body l s'
  end.

Section Verify.

(** [ExclusionConstraint::verifySolution] and
    [SegmentationHypothesis::verifySolution] are declared outside this
    file.  They are taken as calls that return a verdict and may print; a
    call that throws would leave [verifySolution] with its exception. *)
Variable ExclusionConstraint_verifySolution :
  ExclusionConstraint → Solution → list (Z * SegmentationHypothesis) → Cout bool.
Variable SegmentationHypothesis_verifySolution :
  SegmentationHypothesis → Solution → Cout bool.

Definition verifySolution_exclusion (m : Model) (sol : Solution) (valid : bool)
    (c : ExclusionConstraint) : Cout bool :=
  ok ←' ExclusionConstraint_verifySolution c sol (segmentationHypotheses_ m);
  if negb ok then
    _ ←' cout "	Found violated exclusion constraint ";
    cout_ret false
  else cout_ret valid.

Definition verifySolution_conservation (sol : Solution) (valid : bool)
    (entry : Z * SegmentationHypothesis) : Cout bool :=
  ok ←' SegmentationHypothesis_verifySolution entry.2 sol;
  if negb ok then
    _ ←' cout "	Found violated flow conservation constraint ";
    cout_ret false
  else cout_ret valid.

Definition verifySolution (m : Model) (sol : Solution) : Cout bool :=
  _ ←' cout "Checking solution...";
  let valid := true in
  valid ←' cout_for_each (verifySolution_exclusion m sol) (exclusionConstraints_ m) valid;
  valid ←' cout_for_each (verifySolution_conservation sol) (segmentationHypotheses_ m) valid;
  cout_ret valid.

End Verify.

(** * Notions of the statements

    ** Categories and feature counts *)

Inductive Category := Link | Detection | Division | Appearance | Disappearance.
#[global] Instance Category_eq_dec : EqDecision Category.
Proof. solve_decision. Defined.

(** The name under which [computeNumWeights] reports a category. *)
Definition category_name (c : Category) : string :=
  match c with
  | Link => "Links"
  | Detection => "Detections"
  | Division => "Divisions"
  | Appearance => "Appearances"
  | Disappearance => "Disappearances"
  end.

(** The variables of a category, in iteration order. *)
Definition variables (m : Model) (c : Category) : list Var :=
  match c with
  | Link => (fun entry => variable_ entry.2) <$> linkingHypotheses_ m
  | Detection => (fun entry => detection_ entry.2) <$> segmentationHypotheses_ m
  | Division => (fun entry => division_ entry.2) <$> segmentationHypotheses_ m
  | Appearance => (fun entry => appearance_ entry.2) <$> segmentationHypotheses_ m
  | Disappearance => (fun entry => disappearance_ entry.2) <$> segmentationHypotheses_ m
  end.

(** A variable of a segmentation hypothesis is present when features were
    supplied for it; the variable of a link always is. *)
Definition hasFeatures (v : Var) : Prop := 0 < getNumFeatures v.
#[global] Instance hasFeatures_dec v : Decision (hasFeatures v).
Proof. unfold hasFeatures. apply _. Defined.

Definition presentVariables (m : Model) (c : Category) : list Var :=
  match c with
  | Link => variables m Link
  | _ => filter hasFeatures (variables m c)
  end.

(** All variables of the list have feature vectors of one length. *)
Definition agree (vars : list Var) : Prop :=
  ∀ v1 v2, v1 ∈ vars → v2 ∈ vars → getNumFeatures v1 = getNumFeatures v2.

(** The feature count of a category: the length shared by its present
    variables, 0 when there is none. *)
Definition featureCount (m : Model) (c : Category) : Z :=
  match presentVariables m c with
  | [] => 0
  | v :: _ => getNumFeatures v
  end.

(** Two variables of the category have different non-zero feature counts. *)
Definition mismatch (m : Model) (c : Category) : Prop :=
  ∃ v1 v2, v1 ∈ variables m c ∧ v2 ∈ variables m c
           ∧ 0 < getNumFeatures v1 ∧ 0 < getNumFeatures v2
           ∧ getNumFeatures v1 ≠ getNumFeatures v2.

(** The scan of one category: the calls of [checkNumFeatures] on its
    variables, in order. *)
Definition scan (name : string) (vars : list Var) (previousNumFeats : Z) : outcome Z :=
  for_each (fun p var => checkNumFeatures var p name) vars previousNumFeats.

(** The scan of the links; the same comparison without the test for an
    empty feature vector. *)
Definition scan_all (name : string) (vars : list Var) (numFeatures : Z) : outcome Z :=
  for_each (fun p var =>
              if p <? 0 then Ok (getNumFeatures var)
              else if negb (getNumFeatures var =? p)
                   then Throw (NotSameNumberOfFeatures name) else Ok p)
           vars numFeatures.

(** [vars] is consistent with a count [p] found so far ([p < 0]: none). *)
Definition compat (p : Z) (vars : list Var) : Prop :=
  (0 ≤ p → ∀ v, v ∈ vars → getNumFeatures v = p) ∧ (p < 0 → agree vars).

(** [vars] is not: a variable differs from the count, or two variables
    differ. *)
Definition clash (p : Z) (vars : list Var) : Prop :=
  (0 ≤ p ∧ ∃ v, v ∈ vars ∧ getNumFeatures v ≠ p)
  ∨ (∃ v1 v2, v1 ∈ vars ∧ v2 ∈ vars ∧ getNumFeatures v1 ≠ getNumFeatures v2).

(** The count after a scan of [vars] that started with [p]. *)
Definition final (p : Z) (vars : list Var) : Z :=
  if p <? 0 then match vars with [] => p | v :: _ => getNumFeatures v end else p.

(** The descriptions of one category: state 0, then state 1. *)
Definition descriptionBlock (name : string) (numFeatures : Z) : list string :=
  map (description name 0) (seq 0 (Z.to_nat numFeatures))
  ++ map (description name 1) (seq 0 (Z.to_nat numFeatures)).

(** What one check contributes to the output: its own lines, and the
    violation line when it fails. *)
Definition report (line : string) (check : Cout bool) : list string :=
  check.2 ++ (if check.1 then [] else [line]).

(** ** Graphs whose variables are in the OpenGM model *)

(** The ids of the variables of a hypothesis: detection, division,
    appearance, disappearance. *)
Definition variableIds (hyp : SegmentationHypothesis) : list Z :=
  getOpenGMVariableId
    <$> [detection_ hyp; division_ hyp; appearance_ hyp; disappearance_ hyp].

Definition linkVariableIds (m : Model) : list Z :=
  (fun entry => getOpenGMVariableId (variable_ entry.2)) <$> linkingHypotheses_ m.

Definition allVariableIds (m : Model) : list Z :=
  linkVariableIds m ++ (segmentationHypotheses_ m ≫= fun entry => variableIds entry.2).

(** The variable has been added to the OpenGM model. *)
Definition inModel (id : Z) : Prop := id ≠ -1.
#[global] Instance inModel_dec id : Decision (inModel id).
Proof. unfold inModel. apply _. Defined.

(** The state of the graph after [initializeOpenGMModel]: each variable
    that was added to the OpenGM model got an id of its own, below
    [model_.numberOfVariables()], and every detection variable was added. *)
Definition built (m : Model) : Prop :=
  NoDup (filter inModel (allVariableIds m))
  ∧ Forall (fun id => inModel id → 0 ≤ id < Z.of_nat (model_numberOfVariables m))
           (allVariableIds m)
  ∧ Forall (fun entry : Z * SegmentationHypothesis =>
              inModel (getOpenGMVariableId (detection_ entry.2)))
           (segmentationHypotheses_ m).
#[global] Instance built_dec m : Decision (built m).
Proof. unfold built. apply _. Defined.

(** The detection of the hypothesis is active, it has no active incoming
    (outgoing) link, and its appearance (disappearance) variable is not in
    the model. *)
Definition lacksAppearance (m : Model) (solution : Solution)
    (entry : Z * SegmentationHypothesis) : Prop :=
  isActive solution (detection_ entry.2) = true
  ∧ getNumActiveIncomingLinks m entry.1 solution = 0%nat
  ∧ getOpenGMVariableId (appearance_ entry.2) = -1.

Definition lacksDisappearance (m : Model) (solution : Solution)
    (entry : Z * SegmentationHypothesis) : Prop :=
  isActive solution (detection_ entry.2) = true
  ∧ getNumActiveOutgoingLinks m entry.1 solution = 0%nat
  ∧ getOpenGMVariableId (disappearance_ entry.2) = -1.

#[global] Instance lacksAppearance_dec m solution entry :
  Decision (lacksAppearance m solution entry).
Proof. unfold lacksAppearance. apply _. Defined.
#[global] Instance lacksDisappearance_dec m solution entry :
  Decision (lacksDisappearance m solution entry).
Proof. unfold lacksDisappearance. apply _. Defined.

(** What the closing loop establishes at a hypothesis. *)
Definition closed (m : Model) (solution : Solution)
    (entry : Z * SegmentationHypothesis) : Prop :=
  isActive solution (detection_ entry.2) = true →
  (getNumActiveIncomingLinks m entry.1 solution = 0%nat →
   inModel (getOpenGMVariableId (appearance_ entry.2))
   ∧ sol_get solution (getOpenGMVariableId (appearance_ entry.2)) = Ok 1%nat)
  ∧ (getNumActiveOutgoingLinks m entry.1 solution = 0%nat →
     inModel (getOpenGMVariableId (disappearance_ entry.2))
     ∧ sol_get solution (getOpenGMVariableId (disappearance_ entry.2)) = Ok 1%nat).

(** ** Labelings during the reconstruction *)

(** Two labelings of the same length that agree on the link and detection
    variables of the graph. *)
Definition agreeOnCore (m : Model) (s s' : Solution) : Prop :=
  length s = length s'
  ∧ (∀ linkEntry, linkEntry ∈ linkingHypotheses_ m →
       isActive s (variable_ linkEntry.2) = isActive s' (variable_ linkEntry.2))
  ∧ (∀ entry, entry ∈ segmentationHypotheses_ m →
       sol_get s (getOpenGMVariableId (detection_ entry.2))
       = sol_get s' (getOpenGMVariableId (detection_ entry.2))).

(** Every label 1 of [s] is a label 1 of [s']. *)
Definition keepsOnes (s s' : Solution) : Prop :=
  ∀ i, sol_get s i = Ok 1%nat → sol_get s' i = Ok 1%nat.

(** The ids that the first loop touches for an annotation: the link
    variable, and the detection and division of the source. *)
Definition sourceIds (m : Model) (a : LinkResult) : option (Z * Z * Z) :=
  hyp ← map_find (src a, dest a) (linkingHypotheses_ m);
  Some (getOpenGMVariableId (variable_ hyp),
        getOpenGMVariableId (detection_ (segmentationHypotheses_at m (src a))),
        getOpenGMVariableId (division_ (segmentationHypotheses_at m (src a)))).

(** [solution[i] = 1] *)
Definition mark (s : Solution) (i : Z) : Solution := <[Z.to_nat i := 1%nat]> s.

(** The variable that the first loop sets for a source: the division when
    the detection is already 1, the detection otherwise. *)
Definition sourceTarget (s : Solution) (detId divId : Z) : Z :=
  match sol_get s detId with
  | Ok 1%nat => divId
  | _ => detId
  end.

(** ** Example graphs *)

Definition mkVar (features : list float) (id : Z) : Var :=
  {| features_ := features; opengmVariableId_ := id |}.

Definition mkModel (segs : list (Z * SegmentationHypothesis))
    (links : list ((Z * Z) * LinkingHypothesis)) (numberOfVariables : nat) : Model :=
  {| segmentationHypotheses_ := segs;
     linkingHypotheses_ := links;
     exclusionConstraints_ := [];
     numDetFeatures_ := 0; numDivFeatures_ := 0; numAppFeatures_ := 0;
     numDisFeatures_ := 0; numLinkFeatures_ := 0;
     model_numberOfVariables := numberOfVariables |}.

Definition mkLinkResult (srcId destId : Z) (v : bool) : LinkResult :=
  {| src := srcId; dest := destId; value := v |}.

(** Hypotheses 1 and 2 and the link (1,2); hypothesis 2 may appear,
    hypothesis 1 may neither appear nor disappear. *)
Definition graph_two : Model :=
  mkModel
    [ (1, {| detection_ := mkVar [0.5%float] 1; division_ := mkVar [] (-1);
             appearance_ := mkVar [] (-1); disappearance_ := mkVar [] (-1) |});
      (2, {| detection_ := mkVar [0.25%float] 2; division_ := mkVar [] (-1);
             appearance_ := mkVar [0.5%float] 3; disappearance_ := mkVar [] (-1) |}) ]
    [ ((1, 2), {| variable_ := mkVar [0.75%float] 0 |}) ]
    4.

(** Detection feature vectors of lengths 3 and 4, and links with 1 and 2
    features. *)
Definition graph_mismatch : Model :=
  mkModel
    [ (1, {| detection_ := mkVar [0.5%float; 0.5%float; 0.5%float] (-1);
             division_ := mkVar [] (-1);
             appearance_ := mkVar [] (-1); disappearance_ := mkVar [] (-1) |});
      (2, {| detection_ := mkVar [0.5%float; 0.5%float; 0.5%float; 0.5%float] (-1);
             division_ := mkVar [] (-1);
             appearance_ := mkVar [] (-1); disappearance_ := mkVar [] (-1) |}) ]
    [ ((1, 2), {| variable_ := mkVar [0.5%float] (-1) |});
      ((2, 1), {| variable_ := mkVar [0.5%float; 0.5%float] (-1) |}) ]
    0.

(** Hypothesis 1 with links to 2, 3 and 4; it has a division variable
    (id 4), and every hypothesis may appear and disappear. *)
Definition graph_division : Model :=
  mkModel
    [ (1, {| detection_ := mkVar [0.5%float] 3; division_ := mkVar [0.5%float] 4;
             appearance_ := mkVar [0.5%float] 5; disappearance_ := mkVar [0.5%float] 6 |});
      (2, {| detection_ := mkVar [0.5%float] 7; division_ := mkVar [] (-1);
             appearance_ := mkVar [0.5%float] 8; disappearance_ := mkVar [0.5%float] 9 |});
      (3, {| detection_ := mkVar [0.5%float] 10; division_ := mkVar [] (-1);
             appearance_ := mkVar [0.5%float] 11; disappearance_ := mkVar [0.5%float] 12 |});
      (4, {| detection_ := mkVar [0.5%float] 13; division_ := mkVar [] (-1);
             appearance_ := mkVar [0.5%float] 14; disappearance_ := mkVar [0.5%float] 15 |}) ]
    [ ((1, 2), {| variable_ := mkVar [0.5%float] 0 |});
      ((1, 3), {| variable_ := mkVar [0.5%float] 1 |});
      ((1, 4), {| variable_ := mkVar [0.5%float] 2 |}) ]
    16.

(** Hypothesis 1 with links to 2 and 3, and without division features:
    its division variable is not in the model. *)
Definition graph_no_division : Model :=
  mkModel
    [ (1, {| detection_ := mkVar [0.5%float] 2; division_ := mkVar [] (-1);
             appearance_ := mkVar [0.5%float] 3; disappearance_ := mkVar [0.5%float] 4 |});
      (2, {| detection_ := mkVar [0.5%float] 5; division_ := mkVar [] (-1);
             appearance_ := mkVar [0.5%float] 6; disappearance_ := mkVar [0.5%float] 7 |});
      (3, {| detection_ := mkVar [0.5%float] 8; division_ := mkVar [] (-1);
             appearance_ := mkVar [0.5%float] 9; disappearance_ := mkVar [0.5%float] 10 |}) ]
    [ ((1, 2), {| variable_ := mkVar [0.5%float] 0 |});
      ((1, 3), {| variable_ := mkVar [0.5%float] 1 |}) ]
    11.

(** * The program, continued

    ** Export of a labeling: [Model::saveResultToJson] *)

(** Modelled from the spec: [LinkingHypothesis::toJson] gives the result
    entry of a link, with its source, its destination and the value. *)
Definition LinkingHypothesis_toJson (key : Z * Z) (v : bool) : LinkResult :=
  {| src := key.1; dest := key.2; value := v |}.

(** What a call of [saveResultToJson] comes to: the [linkResults] array
    that is written to the file, a [std::runtime_error] with its message,
    or a read outside the solution vector. *)
Inductive SaveResult :=
  | Written (linkResults : list LinkResult)
  | SaveThrow (message : string)
  | SaveUndefined.

(** Body of the loop over the links: one entry is appended. *)
Definition saveResultToJson_link (sol : Solution) (linksJson : list LinkResult)
    (entry : (Z * Z) * LinkingHypothesis) : outcome (list LinkResult) :=
  label ← sol_get sol (getOpenGMVariableId (variable_ entry.2));
  Ok (linksJson ++ [LinkingHypothesis_toJson entry.1 (bool_decide (0 < label)%nat)]).

(** [output_good] tells whether the file could be opened.  [null_isArray]
    is the answer of jsoncpp's [isArray] on the null value that
    [linksJson] still is when nothing was appended to it; it depends on
    the version of that library. *)
Definition saveResultToJson (output_good null_isArray : bool) (filename : string)
    (m : Model) (sol : Solution) : SaveResult :=
  if negb output_good then
    SaveThrow ("Could not open JSON result file for saving: " +:+ filename)
  else
    match for_each (saveResultToJson_link sol) (linkingHypotheses_ m) [] with
    | Ok linksJson =>
        if negb (match linksJson with [] => null_isArray | _ => true end) then
          SaveThrow "Cannot save results to non-array JSON entry"
        else Written linksJson
    | Throw e => SaveThrow (what e)
    | Undefined => SaveUndefined
    end.

(** * Further notions and examples

    ** More example graphs *)

(** Two links, the first without features: links are compared on every
    feature count, an empty vector included. *)
Definition graph_link_without_features : Model :=
  mkModel
    [ (1, {| detection_ := mkVar [0.5%float] (-1); division_ := mkVar [] (-1);
             appearance_ := mkVar [] (-1); disappearance_ := mkVar [] (-1) |});
      (2, {| detection_ := mkVar [] (-1); division_ := mkVar [] (-1);
             appearance_ := mkVar [] (-1); disappearance_ := mkVar [] (-1) |}) ]
    [ ((1, 2), {| variable_ := mkVar [] (-1) |});
      ((2, 1), {| variable_ := mkVar [0.5%float] (-1) |}) ]
    0.

(** ** Labelings that grow *)

(** [s'] is [s] with some of its entries set to 1. *)
Definition extends (s s' : Solution) : Prop :=
  ∃ ids, Forall (fun i => in_range s i = true) ids ∧ s' = foldl mark s ids.

(** Every label is 0 or 1. *)
Definition binary (s : Solution) : Prop := Forall (fun v => v = 0%nat ∨ v = 1%nat) s.

(** ** Graphs whose links are in the model *)

(** The registered links have variables in the model and registered end
    points. *)
Definition linksRegistered (m : Model) : Prop :=
  Forall (fun linkEntry : (Z * Z) * LinkingHypothesis =>
            inModel (getOpenGMVariableId (variable_ linkEntry.2))
            ∧ is_Some (map_find linkEntry.1.1 (segmentationHypotheses_ m))
            ∧ is_Some (map_find linkEntry.1.2 (segmentationHypotheses_ m)))
         (linkingHypotheses_ m).

(** ** The annotations of a hypothesis *)

(** The active annotations that leave, respectively enter, the hypothesis
    [id], in the order of the annotation set. *)
Definition outgoing (annotations : list LinkResult) (id : Z) : list LinkResult :=
  filter (fun a => value a = true ∧ src a = id) annotations.

Definition incoming (annotations : list LinkResult) (id : Z) : list LinkResult :=
  filter (fun a => value a = true ∧ dest a = id) annotations.

(** The variables that the first loop sets on the annotations [pre]: the
    link of an active annotation, the detection of a hypothesis that an
    active annotation leaves, the division of one that two of them leave. *)
Definition labelledBySources (m : Model) (pre : list LinkResult) (j : Z) : Prop :=
  (∃ a hyp, a ∈ pre ∧ value a = true
            ∧ map_find (src a, dest a) (linkingHypotheses_ m) = Some hyp
            ∧ j = getOpenGMVariableId (variable_ hyp))
  ∨ (∃ id hyp, map_find id (segmentationHypotheses_ m) = Some hyp
               ∧ ((j = getOpenGMVariableId (detection_ hyp) ∧ outgoing pre id ≠ [])
                  ∨ (j = getOpenGMVariableId (division_ hyp)
                     ∧ (2 ≤ length (outgoing pre id))%nat))).

(** The variables that the reconstruction sets on [annotations]: the link
    of an active annotation; the detection of a hypothesis that an active
    annotation leaves or enters; the division of a hypothesis that two
    active annotations leave; the appearance of a hypothesis that active
    annotations leave and none enters; the disappearance of a hypothesis
    that active annotations enter and none leaves. *)
Definition labelled (m : Model) (annotations : list LinkResult) (j : Z) : Prop :=
  (∃ a hyp, a ∈ annotations ∧ value a = true
            ∧ map_find (src a, dest a) (linkingHypotheses_ m) = Some hyp
            ∧ j = getOpenGMVariableId (variable_ hyp))
  ∨ (∃ id hyp, map_find id (segmentationHypotheses_ m) = Some hyp
               ∧ ((j = getOpenGMVariableId (detection_ hyp)
                   ∧ (outgoing annotations id ≠ [] ∨ incoming annotations id ≠ []))
                  ∨ (j = getOpenGMVariableId (division_ hyp)
                     ∧ (2 ≤ length (outgoing annotations id))%nat)
                  ∨ (j = getOpenGMVariableId (appearance_ hyp)
                     ∧ outgoing annotations id ≠ [] ∧ incoming annotations id = [])
                  ∨ (j = getOpenGMVariableId (disappearance_ hyp)
                     ∧ incoming annotations id ≠ [] ∧ outgoing annotations id = []))).

#[global] Instance LinkResult_eq_dec : EqDecision LinkResult.
Proof. solve_decision. Defined.

(** An active annotation whose link is not registered in the graph. *)
Definition unregistered (m : Model) (a : LinkResult) : Prop :=
  value a = true ∧ map_find (src a, dest a) (linkingHypotheses_ m) = None.

(** Whether an active annotation names the link [key]. *)
Definition annotated (annotations : list LinkResult) (key : Z * Z) : bool :=
  existsb (fun a => value a && bool_decide ((src a, dest a) = key)) annotations.

(** * Properties

    ** Outcomes and loops *)

Lemma bind_Ok_inv {A B} (m : outcome A) (k : A → outcome B) (b : B) :
  m ≫= k = Ok b → ∃ a, m = Ok a ∧ k a = Ok b.
Proof. destruct m as [a| |]; simpl; [eauto | discriminate..]. Qed.

Lemma bind_Throw_inv {A B} (m : outcome A) (k : A → outcome B) (e : Error) :
  m ≫= k = Throw e → m = Throw e ∨ ∃ a, m = Ok a ∧ k a = Throw e.
Proof. destruct m as [a| |]; simpl; [eauto | intros [= ->]; auto | discriminate]. Qed.

Lemma for_each_app {A S} (body : S → A → outcome S) (l1 l2 : list A) (s : S) :
  for_each body (l1 ++ l2) s = for_each body l1 s ≫= for_each body l2.
Proof.
  revert s. induction l1 as [|a l1 IH]; intros s; simpl; [done|].
  destruct (body s a) as [s'| |]; simpl; auto.
Qed.

(** ** Weight descriptions *)

Lemma foldl_push_back {A B} (g : A → B) (l : list A) (acc : list B) :
  foldl (fun acc a => acc ++ [g a]) acc l = acc ++ map g l.
Proof.
  revert acc. induction l as [|a l IH]; intros acc; simpl.
  - by rewrite app_nil_r.
  - by rewrite IH, <- app_assoc.
Qed.

Lemma addVariableWeightDescriptions_eq (descriptions : list string) numFeatures name :
  addVariableWeightDescriptions descriptions numFeatures name
  = descriptions
    ++ map (description name 0) (seq 0 (Z.to_nat numFeatures))
    ++ map (description name 1) (seq 0 (Z.to_nat numFeatures)).
Proof.
  unfold addVariableWeightDescriptions. simpl.
  by rewrite !foldl_push_back, <- app_assoc.
Qed.

Lemma addVariableWeightDescriptions_length (descriptions : list string) numFeatures name :
  0 ≤ numFeatures →
  Z.of_nat (length (addVariableWeightDescriptions descriptions numFeatures name))
  = Z.of_nat (length descriptions) + 2 * numFeatures.
Proof.
  intros Hn. rewrite addVariableWeightDescriptions_eq.
  rewrite !length_app, !length_map, !length_seq. lia.
Qed.

(** What a successful [computeNumWeights] stores and returns. *)
Lemma computeNumWeights_Ok m m' n :
  computeNumWeights m = Ok (m', n) →
  n = 2 * (numDetFeatures_ m' + numDivFeatures_ m' + numLinkFeatures_ m'
           + numAppFeatures_ m' + numDisFeatures_ m')
  ∧ 0 ≤ numDetFeatures_ m' ∧ 0 ≤ numDivFeatures_ m' ∧ 0 ≤ numAppFeatures_ m'
  ∧ 0 ≤ numDisFeatures_ m' ∧ 0 ≤ numLinkFeatures_ m'.
Proof.
  unfold computeNumWeights. intros H.
  apply bind_Ok_inv in H as ([[[det div] app] dis] & _ & H).
  apply bind_Ok_inv in H as (link & _ & H).
  injection H as <- <-. simpl. repeat split; lia.
Qed.

(** C5: the number of weights that [computeNumWeights] returns is the
    length of the list that [getWeightDescriptions] returns; when the
    feature counts are inconsistent both throw the same error. *)
Theorem numWeights_eq_length_weightDescriptions (m : Model) :
  (fun r : Model * list string => Z.of_nat (length r.2)) <$> getWeightDescriptions m
  = snd <$> computeNumWeights m.
Proof.
  unfold getWeightDescriptions.
  destruct (computeNumWeights m) as [[m' n]| |] eqn:E; simpl; try done.
  apply computeNumWeights_Ok in E as (-> & ? & ? & ? & ? & ?).
  f_equal. rewrite !addVariableWeightDescriptions_length by done. simpl. lia.
Qed.

(** ** Feature counts, one category at a time *)

Lemma getNumFeatures_nonneg v : 0 ≤ getNumFeatures v.
Proof. unfold getNumFeatures. lia. Qed.

Lemma compat_clash p vars : compat p vars → clash p vars → False.
Proof.
  intros [H1 H2] [[Hp (v & Hv & Hne)]|(v1 & v2 & Hv1 & Hv2 & Hne)].
  - by apply Hne, H1.
  - destruct (decide (p < 0)) as [Hp|Hp].
    + by apply Hne, H2.
    + apply Hne. rewrite (H1 ltac:(lia) v1), (H1 ltac:(lia) v2); done.
Qed.

Lemma clash_cons_later p v vars :
  clash p vars → clash p (v :: vars).
Proof.
  intros [[Hp (v' & ? & ?)]|(v1 & v2 & ? & ? & ?)]; [left | right].
  - split; [done|]. exists v'. rewrite elem_of_cons. auto.
  - exists v1, v2. rewrite !elem_of_cons. auto.
Qed.

Lemma scan_all_spec name vars p :
  (scan_all name vars p = Ok (final p vars) ∧ compat p vars)
  ∨ (scan_all name vars p = Throw (NotSameNumberOfFeatures name) ∧ clash p vars).
Proof.
  revert p. induction vars as [|v vars IH]; intros p.
  - left. split.
    + unfold final. by destruct (p <? 0).
    + split; intros _ ?; [|intros ?]; by rewrite elem_of_nil.
  - unfold scan_all in *. simpl.
    pose proof (getNumFeatures_nonneg v) as Hv.
    destruct (Z.ltb_spec p 0) as [Hp|Hp]; simpl.
    + (* the first variable fixes the count *)
      assert (final p (v :: vars) = final (getNumFeatures v) vars) as ->.
      { unfold final. destruct (Z.ltb_spec p 0); [|lia].
        by destruct (Z.ltb_spec (getNumFeatures v) 0); [lia|]. }
      destruct (IH (getNumFeatures v)) as [[-> [Hc _]]|[-> Hc]]; [left | right].
      * split; [done|]. split; [lia|]. intros _ v1 v2. specialize (Hc Hv).
        rewrite !elem_of_cons.
        intros [->|H1] [->|H2]; try rewrite (Hc _ H1); try rewrite (Hc _ H2); done.
      * split; [done|]. right.
        destruct Hc as [[_ (v' & ? & ?)]|(v1 & v2 & ? & ? & ?)].
        -- exists v', v. rewrite !elem_of_cons. auto.
        -- exists v1, v2. rewrite !elem_of_cons. auto.
    + assert (final p (v :: vars) = final p vars) as ->.
      { unfold final. by destruct (Z.ltb_spec p 0); [lia|]. }
      destruct (Z.eqb_spec (getNumFeatures v) p) as [Heq|Hne]; simpl.
      * destruct (IH p) as [[-> [Hc _]]|[-> Hc]]; [left | right].
        -- split; [done|]. split; [|lia].
           intros _ v'. rewrite elem_of_cons. intros [->|?]; auto.
        -- split; [done|]. by apply clash_cons_later.
      * right. split; [done|]. left. split; [done|].
        exists v. rewrite elem_of_cons. auto.
Qed.

Lemma checkNumFeatures_present var p name :
  hasFeatures var →
  checkNumFeatures var p name
  = if p <? 0 then Ok (getNumFeatures var)
    else if negb (getNumFeatures var =? p)
         then Throw (NotSameNumberOfFeatures name) else Ok p.
Proof.
  unfold hasFeatures, checkNumFeatures. intros H.
  destruct (Z.ltb_spec 0 (getNumFeatures var)); [|lia].
  by rewrite !andb_true_r, !andb_true_l.
Qed.

Lemma checkNumFeatures_absent var p name :
  ¬ hasFeatures var → checkNumFeatures var p name = Ok p.
Proof.
  unfold hasFeatures, checkNumFeatures. intros H.
  destruct (Z.ltb_spec 0 (getNumFeatures var)); [done|].
  by rewrite !andb_false_r.
Qed.

(** A segmentation category is scanned like the links, on the variables
    that have features. *)
Lemma scan_filter name vars p :
  scan name vars p = scan_all name (filter hasFeatures vars) p.
Proof.
  revert p. induction vars as [|v vars IH]; intros p; [done|].
  change (scan name (v :: vars) p) with (checkNumFeatures v p name ≫= scan name vars).
  destruct (decide (hasFeatures v)) as [Hv|Hv].
  - rewrite filter_cons_True, checkNumFeatures_present by done.
    unfold scan_all at 1. simpl. fold (scan_all name).
    destruct (p <? 0); simpl; [apply IH|].
    destruct (negb (getNumFeatures v =? p)); simpl; [done | apply IH].
  - rewrite filter_cons_False, checkNumFeatures_absent by done. simpl. apply IH.
Qed.

Lemma scan_spec name vars p :
  (scan name vars p = Ok (final p (filter hasFeatures vars))
   ∧ compat p (filter hasFeatures vars))
  ∨ (scan name vars p = Throw (NotSameNumberOfFeatures name)
     ∧ clash p (filter hasFeatures vars)).
Proof. rewrite scan_filter. apply scan_all_spec. Qed.

(** ** The loops of [computeNumWeights] *)

Lemma for_each_fmap {A B S} (f : A → B) (body : S → B → outcome S) (l : list A) (s : S) :
  for_each body (f <$> l) s = for_each (fun s a => body s (f a)) l s.
Proof.
  revert s. induction l as [|a l IH]; intros s; simpl; [done|].
  destruct (body s (f a)); simpl; auto.
Qed.

Lemma computeNumWeights_link_scan (m : Model) p :
  for_each computeNumWeights_link (linkingHypotheses_ m) p
  = scan_all "Links" (variables m Link) p.
Proof. unfold scan_all. simpl. by rewrite for_each_fmap. Qed.

(** The loop over the segmentation hypotheses runs the four scans
    interleaved: it succeeds when all four do, and otherwise throws what one
    of them throws. *)
Lemma computeNumWeights_segmentation_scan segs det div app dis :
  (∃ det' div' app' dis',
     for_each computeNumWeights_segmentation segs (det, div, app, dis)
     = Ok (det', div', app', dis')
     ∧ scan "Detections" ((fun entry => detection_ entry.2) <$> segs) det = Ok det'
     ∧ scan "Divisions" ((fun entry => division_ entry.2) <$> segs) div = Ok div'
     ∧ scan "Appearances" ((fun entry => appearance_ entry.2) <$> segs) app = Ok app'
     ∧ scan "Disappearances" ((fun entry => disappearance_ entry.2) <$> segs) dis = Ok dis')
  ∨ (∃ e,
       for_each computeNumWeights_segmentation segs (det, div, app, dis) = Throw e
       ∧ (scan "Detections" ((fun entry => detection_ entry.2) <$> segs) det = Throw e
          ∨ scan "Divisions" ((fun entry => division_ entry.2) <$> segs) div = Throw e
          ∨ scan "Appearances" ((fun entry => appearance_ entry.2) <$> segs) app = Throw e
          ∨ scan "Disappearances" ((fun entry => disappearance_ entry.2) <$> segs) dis
            = Throw e)).
Proof.
  revert det div app dis. induction segs as [|[id hyp] segs IH]; intros det div app dis.
  - left. by exists det, div, app, dis.
  - unfold scan in *. simpl.
    unfold getDetectionVariable, getDivisionVariable, getAppearanceVariable,
      getDisappearanceVariable.
    assert (∀ var p name, (∃ p', checkNumFeatures var p name = Ok p')
              ∨ checkNumFeatures var p name = Throw (NotSameNumberOfFeatures name))
      as Hcheck.
    { intros var p name. unfold checkNumFeatures.
      repeat match goal with |- context [if ?b then _ else _] => destruct b end; eauto. }
    destruct (Hcheck (detection_ hyp) det "Detections") as [[det1 ->]| ->]; simpl;
      [|right; eauto].
    destruct (Hcheck (division_ hyp) div "Divisions") as [[div1 ->]| ->]; simpl;
      [|right; eauto 6].
    destruct (Hcheck (appearance_ hyp) app "Appearances") as [[app1 ->]| ->]; simpl;
      [|right; eauto 7].
    destruct (Hcheck (disappearance_ hyp) dis "Disappearances") as [[dis1 ->]| ->]; simpl;
      [|right; eauto 8].
    apply IH.
Qed.

(** The outcome of [computeNumWeights] in terms of the five scans. *)
Lemma computeNumWeights_cases (m : Model) :
  (∃ m', computeNumWeights m
         = Ok (m', 2 * (featureCount m Link + featureCount m Detection
                        + featureCount m Division + featureCount m Appearance
                        + featureCount m Disappearance))
         ∧ numLinkFeatures_ m' = featureCount m Link
         ∧ numDetFeatures_ m' = featureCount m Detection
         ∧ numDivFeatures_ m' = featureCount m Division
         ∧ numAppFeatures_ m' = featureCount m Appearance
         ∧ numDisFeatures_ m' = featureCount m Disappearance
         ∧ ∀ c, agree (presentVariables m c))
  ∨ (∃ c, computeNumWeights m = Throw (NotSameNumberOfFeatures (category_name c))
          ∧ clash (-1) (presentVariables m c)
          ∧ (c = Link → ∀ c', c' ≠ Link → agree (presentVariables m c'))).
Proof.
  assert (∀ vars, Z.max 0 (final (-1) vars)
                  = match vars with [] => 0 | v :: _ => getNumFeatures v end) as Hfinal.
  { intros [|v vars]; [done|]. unfold final. simpl.
    pose proof (getNumFeatures_nonneg v). lia. }
  unfold computeNumWeights.
  destruct (computeNumWeights_segmentation_scan (segmentationHypotheses_ m) (-1) (-1) (-1) (-1))
    as [(det & div & app & dis & -> & Hdet & Hdiv & Happ & Hdis)|(e & -> & He)]; simpl.
  - destruct (scan_spec "Detections" (variables m Detection) (-1)) as [[Hd [_ Hd']]|[Hd _]];
      simpl in Hd; [|congruence].
    destruct (scan_spec "Divisions" (variables m Division) (-1)) as [[Hv [_ Hv']]|[Hv _]];
      simpl in Hv; [|congruence].
    destruct (scan_spec "Appearances" (variables m Appearance) (-1)) as [[Ha [_ Ha']]|[Ha _]];
      simpl in Ha; [|congruence].
    destruct (scan_spec "Disappearances" (variables m Disappearance) (-1))
      as [[Hs [_ Hs']]|[Hs _]]; simpl in Hs; [|congruence].
    rewrite Hdet in Hd. rewrite Hdiv in Hv. rewrite Happ in Ha. rewrite Hdis in Hs.
    injection Hd as ->. injection Hv as ->. injection Ha as ->. injection Hs as ->.
    rewrite computeNumWeights_link_scan.
    destruct (scan_all_spec "Links" (variables m Link) (-1)) as [[-> [_ Hl]]|[-> Hl]]; simpl.
    + left. eexists. rewrite !Hfinal. unfold featureCount. simpl.
      split; [f_equal; f_equal; lia|].
      repeat split; try done.
      intros []; simpl; auto using Hl, Hd', Hv', Ha', Hs' with lia.
    + right. exists Link. repeat split; try done.
      intros _ []; simpl; intros ?; auto using Hd', Hv', Ha', Hs' with lia. done.
  - right.
    destruct He as [He|[He|[He|He]]].
    + destruct (scan_spec "Detections" (variables m Detection) (-1)) as [[Hd _]|[Hd Hc]];
        simpl in Hd; [congruence|].
      exists Detection. rewrite He in Hd. injection Hd as ->. by repeat split.
    + destruct (scan_spec "Divisions" (variables m Division) (-1)) as [[Hd _]|[Hd Hc]];
        simpl in Hd; [congruence|].
      exists Division. rewrite He in Hd. injection Hd as ->. by repeat split.
    + destruct (scan_spec "Appearances" (variables m Appearance) (-1)) as [[Hd _]|[Hd Hc]];
        simpl in Hd; [congruence|].
      exists Appearance. rewrite He in Hd. injection Hd as ->. by repeat split.
    + destruct (scan_spec "Disappearances" (variables m Disappearance) (-1))
        as [[Hd _]|[Hd Hc]]; simpl in Hd; [congruence|].
      exists Disappearance. rewrite He in Hd. injection Hd as ->. by repeat split.
Qed.

(** ** Number of weights *)

Lemma agree_compat vars : agree vars → compat (-1) vars.
Proof. intros H. split; [lia | done]. Qed.

Lemma agree_Forall n vars : Forall (fun v => getNumFeatures v = n) vars → agree vars.
Proof.
  rewrite Forall_forall. intros H v1 v2 H1 H2. by rewrite (H v1), (H v2).
Qed.

Lemma mismatch_not_agree m c : mismatch m c → ¬ agree (presentVariables m c).
Proof.
  intros (v1 & v2 & H1 & H2 & Hp1 & Hp2 & Hne) Hagree. apply Hne, Hagree.
  - destruct c; simpl in *; try done; by apply list_elem_of_filter.
  - destruct c; simpl in *; try done; by apply list_elem_of_filter.
Qed.

Lemma clash_mismatch m c :
  c ≠ Link → clash (-1) (presentVariables m c) → mismatch m c.
Proof.
  intros Hc [[? _]|(v1 & v2 & H1 & H2 & Hne)]; [lia|].
  exists v1, v2.
  destruct c; [done|..]; simpl in *;
    apply list_elem_of_filter in H1 as [? ?], H2 as [? ?]; by repeat split.
Qed.

(** C6: when the present variables of each category agree on the length of
    their feature vectors, [computeNumWeights] returns twice the sum of the
    five feature counts, and stores the counts in the model. *)
Theorem computeNumWeights_consistent (m : Model) :
  (∀ c, agree (presentVariables m c)) →
  ∃ m', computeNumWeights m
        = Ok (m', 2 * (featureCount m Link + featureCount m Detection
                       + featureCount m Division + featureCount m Appearance
                       + featureCount m Disappearance))
        ∧ numLinkFeatures_ m' = featureCount m Link
        ∧ numDetFeatures_ m' = featureCount m Detection
        ∧ numDivFeatures_ m' = featureCount m Division
        ∧ numAppFeatures_ m' = featureCount m Appearance
        ∧ numDisFeatures_ m' = featureCount m Disappearance.
Proof.
  intros Hagree.
  destruct (computeNumWeights_cases m) as [(m' & H & ? & ? & ? & ? & ? & _)|(c & _ & Hc & _)].
  - by exists m'.
  - destruct (compat_clash (-1) (presentVariables m c)); auto using agree_compat.
Qed.

Lemma computeNumWeights_consistent_witness :
  ∃ m', computeNumWeights graph_two = Ok (m', 6)
        ∧ numLinkFeatures_ m' = 1 ∧ numDetFeatures_ m' = 1 ∧ numDivFeatures_ m' = 0
        ∧ numAppFeatures_ m' = 1 ∧ numDisFeatures_ m' = 0.
Proof.
  apply (computeNumWeights_consistent graph_two).
  intros []; vm_compute presentVariables;
    (apply (agree_Forall 1) || apply (agree_Forall 0)); repeat constructor.
Defined.

(** When two variables of one category have different non-zero feature
    counts, [computeNumWeights] throws, and names a category with such a
    pair. *)
Lemma computeNumWeights_throws_at_mismatch (m : Model) (c : Category) :
  mismatch m c →
  ∃ c', computeNumWeights m = Throw (NotSameNumberOfFeatures (category_name c'))
        ∧ mismatch m c'.
Proof.
  intros Hc. pose proof (mismatch_not_agree m c Hc) as Hnot.
  destruct (computeNumWeights_cases m)
    as [(m' & _ & _ & _ & _ & _ & _ & Hagree)|(c' & H & Hclash & Hlink)].
  - destruct Hnot. apply Hagree.
  - exists c'. split; [done|].
    destruct (decide (c' = Link)) as [->|Hne].
    + destruct (decide (c = Link)) as [->|Hne]; [done|].
      destruct Hnot. by apply Hlink.
    + by apply clash_mismatch.
Qed.

(** C7, as the code has it: when two variables of one category have
    different non-zero feature counts, [computeNumWeights] throws the
    consistency error of a category that has such a pair (the scan stops at
    the first one it meets); this is the category itself when no other
    category has such a pair. *)
Theorem computeNumWeights_mismatch (m : Model) (c : Category) :
  mismatch m c →
  ∃ c', computeNumWeights m = Throw (NotSameNumberOfFeatures (category_name c'))
        ∧ classify (NotSameNumberOfFeatures (category_name c')) = ConsistencyError
        ∧ mismatch m c'
        ∧ ((∀ c'', mismatch m c'' → c'' = c) → c' = c).
Proof.
  intros Hc.
  destruct (computeNumWeights_throws_at_mismatch m c Hc) as (c' & H & Hc').
  exists c'. split_and!; try done. intros Honly. by apply Honly.
Qed.

(** The error names the category when no other category is inconsistent. *)
Corollary computeNumWeights_mismatch_only (m : Model) (c : Category) :
  mismatch m c → (∀ c', mismatch m c' → c' = c) →
  computeNumWeights m = Throw (NotSameNumberOfFeatures (category_name c)).
Proof.
  intros Hc Honly.
  destruct (computeNumWeights_throws_at_mismatch m c Hc) as (c' & H & Hc').
  by rewrite <- (Honly c' Hc').
Qed.

Lemma graph_mismatch_Link : mismatch graph_mismatch Link.
Proof.
  exists (mkVar [0.5%float] (-1)), (mkVar [0.5%float; 0.5%float] (-1)).
  repeat split; try done; simpl; rewrite !elem_of_cons; auto.
Qed.

Lemma computeNumWeights_mismatch_witness :
  ∃ c', computeNumWeights graph_mismatch
        = Throw (NotSameNumberOfFeatures (category_name c'))
        ∧ classify (NotSameNumberOfFeatures (category_name c')) = ConsistencyError
        ∧ mismatch graph_mismatch c'
        ∧ ((∀ c'', mismatch graph_mismatch c'' → c'' = Link) → c' = Link).
Proof. apply (computeNumWeights_mismatch graph_mismatch Link), graph_mismatch_Link. Defined.

(** C7 as stated fails: the links of [graph_mismatch] have 1 and 2
    features, yet the error names the detections, which the scan meets
    first. *)
Lemma computeNumWeights_mismatch_names_first :
  ¬ (∀ m c, mismatch m c →
            computeNumWeights m = Throw (NotSameNumberOfFeatures (category_name c))).
Proof.
  intros H. specialize (H graph_mismatch Link graph_mismatch_Link).
  vm_compute in H. discriminate H.
Qed.

(** ** Verification *)

(** The shape of both loops of [verifySolution]. *)
Lemma cout_for_each_checks {A} (check : A → Cout bool) (line : string) (l : list A)
    (valid : bool) :
  cout_for_each (fun valid a =>
                   ok ←' check a;
                   if negb ok then _ ←' cout line; cout_ret false else cout_ret valid)
                l valid
  = (valid && forallb (fun a => (check a).1) l,
     flat_map (fun a => report line (check a)) l).
Proof.
  revert valid. induction l as [|a l IH]; intros valid; cbn [cout_for_each].
  - unfold cout_ret. simpl. by rewrite andb_true_r.
  - unfold cout_bind at 1. cbn beta zeta. rewrite IH.
    unfold cout_bind, report. simpl. destruct (check a) as [[] out]; simpl.
    + by rewrite !app_nil_r.
    + by rewrite andb_false_r, <- !app_assoc.
Qed.

Section VerifyProperties.

Variable ExclusionConstraint_verifySolution :
  ExclusionConstraint → Solution → list (Z * SegmentationHypothesis) → Cout bool.
Variable SegmentationHypothesis_verifySolution :
  SegmentationHypothesis → Solution → Cout bool.

Let verify := verifySolution ExclusionConstraint_verifySolution
                SegmentationHypothesis_verifySolution.

(** C9: [verifySolution] returns [true] exactly when the check of every
    exclusion constraint and of every segmentation hypothesis passes, and
    its output holds, in order, the output of the check of every
    constraint and of every hypothesis, each failed one followed by its
    violation line: no check is skipped after a failure. *)
Theorem verifySolution_accumulates (m : Model) (sol : Solution) :
  ((verify m sol).1 = true
   ↔ (∀ c, c ∈ exclusionConstraints_ m →
           (ExclusionConstraint_verifySolution c sol (segmentationHypotheses_ m)).1 = true)
     ∧ (∀ entry, entry ∈ segmentationHypotheses_ m →
                 (SegmentationHypothesis_verifySolution entry.2 sol).1 = true))
  ∧ (verify m sol).2
    = "Checking solution..."
      :: flat_map (fun c =>
                     report "	Found violated exclusion constraint "
                       (ExclusionConstraint_verifySolution c sol (segmentationHypotheses_ m)))
                  (exclusionConstraints_ m)
      ++ flat_map (fun entry : Z * SegmentationHypothesis =>
                     report "	Found violated flow conservation constraint "
                       (SegmentationHypothesis_verifySolution entry.2 sol))
                  (segmentationHypotheses_ m).
Proof.
  pose proof (cout_for_each_checks
                (fun c => ExclusionConstraint_verifySolution c sol (segmentationHypotheses_ m))
                "	Found violated exclusion constraint " (exclusionConstraints_ m)) as H1.
  pose proof (cout_for_each_checks
                (fun entry : Z * SegmentationHypothesis =>
                   SegmentationHypothesis_verifySolution entry.2 sol)
                "	Found violated flow conservation constraint "
                (segmentationHypotheses_ m)) as H2.
  unfold verify, verifySolution.
  fold (verifySolution_exclusion ExclusionConstraint_verifySolution m sol) in H1.
  fold (verifySolution_conservation SegmentationHypothesis_verifySolution sol) in H2.
  unfold cout_bind. cbn beta zeta. rewrite H1. cbn [fst snd]. rewrite H2.
  simpl. rewrite app_nil_r. split; [|done].
  rewrite andb_true_iff, !forallb_forall.
  clear H1 H2. split; intros [H1 H2]; split; intros x Hx.
  - by apply H1, list_elem_of_In.
  - by apply H2, list_elem_of_In.
  - by apply H1, list_elem_of_In.
  - by apply H2, list_elem_of_In.
Qed.

End VerifyProperties.

(** ** Ground truth: where the errors come from *)

Lemma for_each_Throw_inv {A S} (body : S → A → outcome S) (l : list A) (s : S) (e : Error) :
  for_each body l s = Throw e →
  ∃ pre a post s1, l = pre ++ a :: post ∧ for_each body pre s = Ok s1 ∧ body s1 a = Throw e.
Proof.
  revert s. induction l as [|a l IH]; intros s; simpl; [discriminate|].
  intros H. apply bind_Throw_inv in H as [H|(s1 & H1 & H)].
  - by exists [], a, l, s.
  - destruct (IH _ H) as (pre & a' & post & s2 & -> & Hpre & Ha').
    exists (a :: pre), a', post, s2. simpl. by rewrite H1.
Qed.

(** A loop skips the elements on which its body does nothing. *)
Lemma for_each_filter {A S} (P : A → Prop) `{∀ a, Decision (P a)}
    (body : S → A → outcome S) (l : list A) (s : S) :
  (∀ s a, ¬ P a → body s a = Ok s) →
  for_each body l s = for_each body (filter P l) s.
Proof.
  intros Hskip. revert s. induction l as [|a l IH]; intros s; [done|].
  destruct (decide (P a)).
  - rewrite filter_cons_True by done. simpl. destruct (body s a); simpl; auto.
  - rewrite filter_cons_False by done. simpl. rewrite Hskip by done. simpl. auto.
Qed.

Lemma sol_set_no_throw solution i v e : sol_set solution i v ≠ Throw e.
Proof. unfold sol_set. by destruct (in_range solution i). Qed.

Lemma sol_get_no_throw solution i e : sol_get solution i ≠ Throw e.
Proof. unfold sol_get. by destruct (in_range solution i). Qed.

(** The first loop throws for an unregistered link only: the test that
    guards "A source node has been used more than once!" repeats the test
    of the branch it is in, and never holds there. *)
Lemma readGT_source_Throw m solution a e :
  readGT_source m solution a = Throw e →
  e = CannotFindLink (src a) (dest a)
  ∧ value a = true
  ∧ map_find (src a, dest a) (linkingHypotheses_ m) = None.
Proof.
  unfold readGT_source. destruct (value a); [|discriminate].
  destruct (map_find _ _) as [hyp|]; [|by intros [= <-]].
  intros H. exfalso.
  apply bind_Throw_inv in H as [H|(s1 & _ & H)]; [by apply sol_set_no_throw in H|].
  apply bind_Throw_inv in H as [H|(det & Hdet & H)]; [by apply sol_get_no_throw in H|].
  destruct (bool_decide (det = 1%nat)) eqn:E; [by apply sol_set_no_throw in H|].
  rewrite Hdet in H. simpl in H. rewrite E in H. by apply sol_set_no_throw in H.
Qed.

Lemma readGT_target_Throw m solution a e : readGT_target m solution a ≠ Throw e.
Proof. unfold readGT_target. destruct (value a); [apply sol_set_no_throw | done]. Qed.

Lemma readGT_closing_Throw m solution entry e :
  readGT_closing m solution entry = Throw e →
  e = NoAppearanceFeatures entry.1 ∨ e = NoDisappearanceFeatures entry.1.
Proof.
  unfold readGT_closing. intros H.
  apply bind_Throw_inv in H as [H|(det & _ & H)]; [by apply sol_get_no_throw in H|].
  destruct (bool_decide (0 < det)%nat); [|discriminate].
  apply bind_Throw_inv in H as [H|(s1 & _ & H)].
  - repeat case_bool_decide; try discriminate.
    + injection H as <-. auto.
    + by apply sol_set_no_throw in H.
  - repeat case_bool_decide; try discriminate.
    + injection H as <-. auto.
    + by apply sol_set_no_throw in H.
Qed.

(** The errors of the reconstruction: that of an unregistered link, from
    the first loop at an active annotation whose link is missing, and those
    of a missing appearance or disappearance variable, from the closing
    loop. *)
Lemma readGTfromJson_Throw m annotations e :
  readGTfromJson m annotations = Throw e →
  (∃ pre a post s,
     annotations = pre ++ a :: post
     ∧ for_each (readGT_source m) pre (replicate (model_numberOfVariables m) 0%nat) = Ok s
     ∧ value a = true
     ∧ map_find (src a, dest a) (linkingHypotheses_ m) = None
     ∧ e = CannotFindLink (src a) (dest a))
  ∨ (∃ entry, entry ∈ segmentationHypotheses_ m
              ∧ (e = NoAppearanceFeatures entry.1 ∨ e = NoDisappearanceFeatures entry.1)).
Proof.
  unfold readGTfromJson, readGT_annotations. intros H.
  apply bind_Throw_inv in H as [H|(s2 & _ & H)].
  - apply bind_Throw_inv in H as [H|(s1 & _ & H)].
    + apply for_each_Throw_inv in H as (pre & a & post & s & -> & Hpre & H).
      apply readGT_source_Throw in H as (-> & ? & ?).
      left. by exists pre, a, post, s.
    + apply for_each_Throw_inv in H as (? & a & ? & s & _ & _ & H).
      by apply readGT_target_Throw in H.
  - apply for_each_Throw_inv in H as (pre & entry & post & s & Hsegs & _ & H).
    apply readGT_closing_Throw in H. right. exists entry. split; [|done].
    rewrite Hsegs, elem_of_app, elem_of_cons. auto.
Qed.

(** No annotation set makes the reconstruction throw "A source node has
    been used more than once!". *)
Lemma readGTfromJson_never_SourceUsedMoreThanOnce m annotations :
  readGTfromJson m annotations ≠ Throw SourceUsedMoreThanOnce.
Proof.
  intros H. apply readGTfromJson_Throw in H
    as [(? & ? & ? & ? & _ & _ & _ & _ & [=])|(? & _ & [[=]|[=]])].
Qed.

(** C1: two and three active links out of hypothesis 1 of
    [graph_division].  With two, the second activation sets the division
    (id 4).  With three, the third activation sets the division again and
    the reconstruction returns a labeling (links 0-2, detection 3 and
    division 4 of hypothesis 1, the detections and disappearances of 2, 3
    and 4) where the specification has an InconsistentAnnotationError;
    the one error of that kind in the code is never thrown. *)
Theorem readGTfromJson_three_links_from_one_source :
  readGTfromJson graph_division [mkLinkResult 1 2 true; mkLinkResult 1 3 true]
  = Ok [1; 1; 0; 1; 1; 1; 0; 1; 0; 1; 1; 0; 1; 0; 0; 0]%nat
  ∧ readGTfromJson graph_division
      [mkLinkResult 1 2 true; mkLinkResult 1 3 true; mkLinkResult 1 4 true]
    = Ok [1; 1; 1; 1; 1; 1; 0; 1; 0; 1; 1; 0; 1; 1; 0; 1]%nat
  ∧ (∀ m annotations,
       readGTfromJson m annotations ≠ Throw SourceUsedMoreThanOnce
       ∧ classify SourceUsedMoreThanOnce = InconsistentAnnotationError).
Proof.
  split_and!; [vm_compute; reflexivity..|].
  intros m annotations. split; [apply readGTfromJson_never_SourceUsedMoreThanOnce | done].
Qed.

(** C4: two active links out of hypothesis 1, which has no division
    variable.  The second activation writes [solution[-1]], outside the
    vector; nothing is thrown. *)
Theorem readGTfromJson_division_absent :
  readGTfromJson graph_no_division [mkLinkResult 1 2 true; mkLinkResult 1 3 true]
  = Undefined.
Proof. vm_compute. reflexivity. Qed.

(** ** Reading and writing a solution *)

Lemma sol_set_Ok solution i v solution' :
  sol_set solution i v = Ok solution' →
  in_range solution i = true ∧ solution' = <[Z.to_nat i := v]> solution.
Proof. unfold sol_set. destruct (in_range solution i); [by intros [= <-] | done]. Qed.

Lemma in_range_insert (solution : Solution) i j v :
  in_range (<[j := v]> solution) i = in_range solution i.
Proof. unfold in_range. by rewrite length_insert. Qed.

Lemma in_range_spec (solution : Solution) i :
  in_range solution i = true ↔ 0 ≤ i < Z.of_nat (length solution).
Proof. unfold in_range. rewrite andb_true_iff, Z.leb_le, Z.ltb_lt. done. Qed.

Lemma sol_get_insert_ne (solution : Solution) i j v :
  in_range solution i = true → i ≠ j →
  sol_get (<[Z.to_nat i := v]> solution) j = sol_get solution j.
Proof.
  intros Hi Hne. unfold sol_get. rewrite in_range_insert.
  destruct (in_range solution j) eqn:Hj; [|done].
  apply in_range_spec in Hi, Hj. rewrite list_lookup_insert_ne; [done|lia].
Qed.

Lemma sol_get_insert_eq (solution : Solution) i v :
  in_range solution i = true →
  sol_get (<[Z.to_nat i := v]> solution) i = Ok v.
Proof.
  intros Hi. unfold sol_get. rewrite in_range_insert, Hi.
  apply in_range_spec in Hi. rewrite list_lookup_insert_eq; [done|lia].
Qed.

Lemma isActive_insert_ne (solution : Solution) i v var :
  in_range solution i = true → getOpenGMVariableId var ≠ i →
  isActive (<[Z.to_nat i := v]> solution) var = isActive solution var.
Proof. intros Hi Hne. unfold isActive. by rewrite sol_get_insert_ne. Qed.

(** ** Ids of a built graph *)

Lemma NoDup_filter_lookup {A} (P : A → Prop) `{∀ x, Decision (P x)} (l : list A) i j a :
  NoDup (filter P l) → l !! i = Some a → l !! j = Some a → P a → i = j.
Proof.
  revert i j. induction l as [|x l IH]; intros i j Hnd Hi Hj Ha; [done|].
  destruct (decide (P x)) as [Hx|Hx].
  - rewrite filter_cons_True in Hnd by done. apply NoDup_cons in Hnd as [Hnotin Hnd].
    destruct i as [|i], j as [|j]; simpl in *; try done.
    + injection Hi as ->. destruct Hnotin. apply list_elem_of_filter. split; [done|].
      by eapply list_elem_of_lookup_2.
    + injection Hj as ->. destruct Hnotin. apply list_elem_of_filter. split; [done|].
      by eapply list_elem_of_lookup_2.
    + f_equal. by apply IH.
  - rewrite filter_cons_False in Hnd by done.
    destruct i as [|i], j as [|j]; simpl in *; try congruence.
    f_equal. by apply IH.
Qed.

Lemma lookup_variableIds (segs : list (Z * SegmentationHypothesis)) p entry q :
  segs !! p = Some entry → (q < 4)%nat →
  (segs ≫= fun entry => variableIds entry.2) !! (4 * p + q)%nat
  = variableIds entry.2 !! q.
Proof.
  revert p. induction segs as [|x segs IH]; intros p Hp Hq; [done|].
  destruct p as [|p]; simpl in *.
  - injection Hp as ->.
    do 4 (destruct q as [|q]; [done|]). lia.
  - replace (p + S (p + S (p + S (p + 0))) + q)%nat with (3 + (4 * p + q))%nat by lia.
    simpl. by apply IH.
Qed.

Lemma lookup_allVariableIds_segmentation m p entry q :
  segmentationHypotheses_ m !! p = Some entry → (q < 4)%nat →
  allVariableIds m !! (length (linkingHypotheses_ m) + (4 * p + q))%nat
  = variableIds entry.2 !! q.
Proof.
  intros Hp Hq. unfold allVariableIds.
  rewrite lookup_app_r; unfold linkVariableIds; rewrite length_fmap; [|lia].
  replace (length (linkingHypotheses_ m) + (4 * p + q) - length (linkingHypotheses_ m))%nat
    with (4 * p + q)%nat by lia.
  by apply lookup_variableIds.
Qed.

Lemma lookup_allVariableIds_link m k entry :
  linkingHypotheses_ m !! k = Some entry →
  allVariableIds m !! k = Some (getOpenGMVariableId (variable_ entry.2)).
Proof.
  intros Hk. unfold allVariableIds, linkVariableIds.
  rewrite lookup_app_l.
  - by rewrite list_lookup_fmap, Hk.
  - rewrite length_fmap. by eapply lookup_lt_Some.
Qed.

(** In a built graph a variable of a hypothesis that is in the model has an
    id in the solution vector. *)
Lemma built_in_range m entry q id :
  built m → entry ∈ segmentationHypotheses_ m →
  variableIds entry.2 !! q = Some id → inModel id →
  0 ≤ id < Z.of_nat (model_numberOfVariables m).
Proof.
  intros (_ & Hrange & _) Hentry Hq Hid.
  rewrite Forall_forall in Hrange. apply Hrange; [|done].
  unfold allVariableIds. apply elem_of_app. right.
  apply list_elem_of_bind. exists entry. split; [|done].
  by eapply list_elem_of_lookup_2.
Qed.

(** The id is not that of a link variable. *)
Lemma built_not_link m entry q id linkEntry :
  built m → entry ∈ segmentationHypotheses_ m →
  variableIds entry.2 !! q = Some id → inModel id →
  linkEntry ∈ linkingHypotheses_ m →
  getOpenGMVariableId (variable_ linkEntry.2) ≠ id.
Proof.
  intros (Hfresh & _ & _) Hentry Hq Hid Hlink Heq.
  apply list_elem_of_lookup in Hentry as [p Hp], Hlink as [k Hk].
  assert (q < 4)%nat as Hq4 by (apply lookup_lt_Some in Hq; exact Hq).
  pose proof (lookup_allVariableIds_segmentation m p entry q Hp Hq4) as H1.
  pose proof (lookup_allVariableIds_link m k linkEntry Hk) as H2.
  rewrite Hq in H1. rewrite Heq in H2.
  pose proof (NoDup_filter_lookup inModel _ _ _ id Hfresh H1 H2 Hid).
  apply lookup_lt_Some in Hk. lia.
Qed.

(** Two variables of hypotheses that are in the model and share an id are
    the same variable of the same hypothesis. *)
Lemma built_same_variable m entry1 q1 entry2 q2 id :
  built m → entry1 ∈ segmentationHypotheses_ m → entry2 ∈ segmentationHypotheses_ m →
  variableIds entry1.2 !! q1 = Some id → variableIds entry2.2 !! q2 = Some id →
  inModel id → q1 = q2 ∧ entry1 = entry2.
Proof.
  intros (Hfresh & _ & _) Hentry1 Hentry2 Hq1 Hq2 Hid.
  apply list_elem_of_lookup in Hentry1 as [p1 Hp1], Hentry2 as [p2 Hp2].
  assert (q1 < 4)%nat as Hq14 by (apply lookup_lt_Some in Hq1; exact Hq1).
  assert (q2 < 4)%nat as Hq24 by (apply lookup_lt_Some in Hq2; exact Hq2).
  pose proof (lookup_allVariableIds_segmentation m p1 entry1 q1 Hp1 Hq14) as H1.
  pose proof (lookup_allVariableIds_segmentation m p2 entry2 q2 Hp2 Hq24) as H2.
  rewrite Hq1 in H1. rewrite Hq2 in H2.
  pose proof (NoDup_filter_lookup inModel _ _ _ id Hfresh H1 H2 Hid).
  assert (p1 = p2 ∧ q1 = q2) as [-> ->] by lia.
  split; [done | congruence].
Qed.

(** ** The closing loop of the reconstruction *)

Lemma agreeOnCore_refl m s : agreeOnCore m s s.
Proof. by repeat split. Qed.

Lemma agreeOnCore_trans m s1 s2 s3 :
  agreeOnCore m s1 s2 → agreeOnCore m s2 s3 → agreeOnCore m s1 s3.
Proof.
  intros (Hl1 & Ha1 & Hd1) (Hl2 & Ha2 & Hd2). repeat split.
  - congruence.
  - intros e He. by rewrite Ha1, Ha2.
  - intros e He. by rewrite Hd1, Hd2.
Qed.

Lemma agreeOnCore_sym m s1 s2 : agreeOnCore m s1 s2 → agreeOnCore m s2 s1.
Proof.
  intros (Hl & Ha & Hd). repeat split; [done|..]; intros e He; symmetry; auto.
Qed.

Lemma agreeOnCore_isActive_detection m s s' entry :
  agreeOnCore m s s' → entry ∈ segmentationHypotheses_ m →
  isActive s (detection_ entry.2) = isActive s' (detection_ entry.2).
Proof. intros (_ & _ & Hd) He. unfold isActive. by rewrite Hd. Qed.

Lemma agreeOnCore_incoming m s s' id :
  agreeOnCore m s s' →
  getNumActiveIncomingLinks m id s = getNumActiveIncomingLinks m id s'.
Proof.
  intros (_ & Ha & _). unfold getNumActiveIncomingLinks. f_equal.
  apply List.filter_ext_in. intros e He. f_equal. by apply Ha, list_elem_of_In.
Qed.

Lemma agreeOnCore_outgoing m s s' id :
  agreeOnCore m s s' →
  getNumActiveOutgoingLinks m id s = getNumActiveOutgoingLinks m id s'.
Proof.
  intros (_ & Ha & _). unfold getNumActiveOutgoingLinks. f_equal.
  apply List.filter_ext_in. intros e He. f_equal. by apply Ha, list_elem_of_In.
Qed.

Lemma agreeOnCore_lacksAppearance m s s' entry :
  agreeOnCore m s s' → entry ∈ segmentationHypotheses_ m →
  lacksAppearance m s entry ↔ lacksAppearance m s' entry.
Proof.
  intros H He. unfold lacksAppearance.
  by rewrite (agreeOnCore_isActive_detection m s s'), (agreeOnCore_incoming m s s').
Qed.

Lemma agreeOnCore_lacksDisappearance m s s' entry :
  agreeOnCore m s s' → entry ∈ segmentationHypotheses_ m →
  lacksDisappearance m s entry ↔ lacksDisappearance m s' entry.
Proof.
  intros H He. unfold lacksDisappearance.
  by rewrite (agreeOnCore_isActive_detection m s s'), (agreeOnCore_outgoing m s s').
Qed.

Lemma keepsOnes_refl s : keepsOnes s s.
Proof. by intros i. Qed.

Lemma keepsOnes_trans s1 s2 s3 : keepsOnes s1 s2 → keepsOnes s2 s3 → keepsOnes s1 s3.
Proof. intros H1 H2 i Hi. by apply H2, H1. Qed.

Lemma keepsOnes_insert (s : Solution) i :
  in_range s i = true → keepsOnes s (<[Z.to_nat i := 1%nat]> s).
Proof.
  intros Hi j Hj. destruct (decide (i = j)) as [<-|Hne].
  - by apply sol_get_insert_eq.
  - by rewrite sol_get_insert_ne.
Qed.

(** Setting the appearance ([q = 2]) or disappearance ([q = 3]) variable of
    a hypothesis of a built graph is a defined write that leaves the links
    and detections as they are. *)
Lemma closing_write m s entry q id :
  built m → entry ∈ segmentationHypotheses_ m →
  length s = model_numberOfVariables m →
  variableIds entry.2 !! q = Some id → (2 ≤ q)%nat → inModel id →
  sol_set s id 1 = Ok (<[Z.to_nat id := 1%nat]> s)
  ∧ agreeOnCore m s (<[Z.to_nat id := 1%nat]> s)
  ∧ keepsOnes s (<[Z.to_nat id := 1%nat]> s)
  ∧ sol_get (<[Z.to_nat id := 1%nat]> s) id = Ok 1%nat.
Proof.
  intros Hbuilt Hentry Hlen Hq Hq2 Hid.
  assert (in_range s id = true) as Hrange.
  { apply in_range_spec. rewrite Hlen. by eapply built_in_range. }
  split; [unfold sol_set; by rewrite Hrange|].
  split; [|split; [by apply keepsOnes_insert | by apply sol_get_insert_eq]].
  repeat split.
  - by rewrite length_insert.
  - intros linkEntry Hlink. symmetry. apply isActive_insert_ne; [done|].
    by eapply built_not_link.
  - intros entry' Hentry'. symmetry. apply sol_get_insert_ne; [done|].
    intros Heq.
    destruct (built_same_variable m entry q entry' 0 id) as [-> _]; try done; [|lia].
    simpl. by rewrite <- Heq.
Qed.

Lemma built_detection_in_range m s entry :
  built m → entry ∈ segmentationHypotheses_ m →
  length s = model_numberOfVariables m →
  in_range s (getOpenGMVariableId (detection_ entry.2)) = true.
Proof.
  intros Hbuilt Hentry Hlen. apply in_range_spec. rewrite Hlen.
  apply (built_in_range m entry 0); try done.
  destruct Hbuilt as (_ & _ & Hdet). rewrite Forall_forall in Hdet. by apply Hdet.
Qed.

(** One iteration of the closing loop on a built graph. *)
Lemma readGT_closing_spec m s entry :
  built m → entry ∈ segmentationHypotheses_ m →
  length s = model_numberOfVariables m →
  match readGT_closing m s entry with
  | Ok s' =>
      agreeOnCore m s s' ∧ keepsOnes s s'
      ∧ ¬ lacksAppearance m s entry ∧ ¬ lacksDisappearance m s entry
      ∧ closed m s' entry
  | Throw e =>
      (lacksAppearance m s entry ∧ e = NoAppearanceFeatures entry.1)
      ∨ (¬ lacksAppearance m s entry ∧ lacksDisappearance m s entry
         ∧ e = NoDisappearanceFeatures entry.1)
  | Undefined => False
  end.
Proof.
  intros Hbuilt Hentry Hlen.
  pose proof (built_detection_in_range m s entry Hbuilt Hentry Hlen) as Hdet.
  unfold readGT_closing, getDetectionVariable, getAppearanceVariable,
    getDisappearanceVariable.
  destruct (sol_get s (getOpenGMVariableId (detection_ entry.2))) as [detValue| |] eqn:Hget;
    [|unfold sol_get in Hget; rewrite Hdet in Hget; discriminate..].
  simpl.
  assert (isActive s (detection_ entry.2) = bool_decide (0 < detValue)%nat) as Hactive.
  { unfold isActive. rewrite Hget. destruct detValue; [done|].
    symmetry. apply bool_decide_eq_true. lia. }
  destruct (bool_decide (0 < detValue)%nat) eqn:Hpos.
  2:{ (* the detection is not active *)
      split; [apply agreeOnCore_refl|]. split; [apply keepsOnes_refl|].
      split; [intros (H & _); congruence|]. split; [intros (H & _); congruence|].
      intros H. congruence. }
  clear Hpos.
  (* appearance *)
  match goal with |- context [?c ≫= _] => set (appearanceStep := c) end.
  assert ((∃ s1, appearanceStep = Ok s1
                 ∧ agreeOnCore m s s1 ∧ keepsOnes s s1 ∧ ¬ lacksAppearance m s entry
                 ∧ (getNumActiveIncomingLinks m entry.1 s = 0%nat →
                    inModel (getOpenGMVariableId (appearance_ entry.2))
                    ∧ sol_get s1 (getOpenGMVariableId (appearance_ entry.2)) = Ok 1%nat))
          ∨ (appearanceStep = Throw (NoAppearanceFeatures entry.1)
             ∧ lacksAppearance m s entry))
    as [(s1 & -> & Hcore1 & Hones1 & Hlacks1 & Happ)|[-> ?]];
    [|simpl|simpl; by left].
  { subst appearanceStep.
    case_bool_decide as Hin.
    - case_bool_decide as Happ; [right; split; [done | by repeat split]|]. left.
      destruct (closing_write m s entry 2 (getOpenGMVariableId (appearance_ entry.2)))
        as (-> & ? & ? & ?); try done.
      eexists. split_and!; try done. by intros (_ & _ & ?).
    - left. exists s. split_and!; try done.
      + apply keepsOnes_refl.
      + by intros (_ & ? & _). }
  assert (length s1 = model_numberOfVariables m) as Hlen1
    by (destruct Hcore1 as [<- _]; done).
  rewrite <- (agreeOnCore_outgoing m s s1) by done.
  case_bool_decide as Hout.
  - case_bool_decide as Hdis.
    + right. split; [done|]. split; [by split_and!|done].
    + destruct (closing_write m s1 entry 3 (getOpenGMVariableId (disappearance_ entry.2)))
        as (-> & Hcore2 & Hones2 & Hget2); try done; [lia|].
      set (s2 := <[Z.to_nat (getOpenGMVariableId (disappearance_ entry.2)) := 1%nat]> s1) in *.
      assert (agreeOnCore m s s2) as Hcore by (by eapply agreeOnCore_trans).
      split; [done|]. split; [by eapply keepsOnes_trans|]. split; [done|].
      split; [by intros (_ & _ & ?)|].
      intros _. rewrite <- (agreeOnCore_incoming m s), <- (agreeOnCore_outgoing m s) by done.
      split.
      * intros Hin. destruct (Happ Hin). split; [done|]. by apply Hones2.
      * by intros _.
  - split; [done|]. split; [done|]. split; [done|].
    split; [by intros (_ & ? & _)|].
    intros _. rewrite <- (agreeOnCore_incoming m s), <- (agreeOnCore_outgoing m s) by done.
    split; [done|]. by intros ?.
Qed.

Lemma closed_later m s s' entry :
  agreeOnCore m s s' → keepsOnes s s' → entry ∈ segmentationHypotheses_ m →
  closed m s entry → closed m s' entry.
Proof.
  intros Hcore Hones Hentry Hclosed. unfold closed.
  rewrite <- (agreeOnCore_isActive_detection m s s'), <- (agreeOnCore_incoming m s s'),
    <- (agreeOnCore_outgoing m s s') by done.
  intros Hactive. destruct (Hclosed Hactive) as [Hin Hout]. split.
  - intros H. destruct (Hin H). split; [done|]. by apply Hones.
  - intros H. destruct (Hout H). split; [done|]. by apply Hones.
Qed.

(** The closing loop on a built graph, started on a labeling [s] that has
    the links and detections of [s0]: it runs to the first hypothesis that
    lacks a variable and throws for it; when there is none it closes every
    hypothesis. *)
Lemma readGT_closing_loop m s0 l s :
  built m → (∀ entry, entry ∈ l → entry ∈ segmentationHypotheses_ m) →
  length s = model_numberOfVariables m → agreeOnCore m s0 s →
  match for_each (readGT_closing m) l s with
  | Ok s' =>
      agreeOnCore m s0 s' ∧ keepsOnes s s'
      ∧ (∀ entry, entry ∈ l →
           ¬ lacksAppearance m s0 entry ∧ ¬ lacksDisappearance m s0 entry)
      ∧ (∀ entry, entry ∈ l → closed m s' entry)
  | Throw e =>
      ∃ pre entry post,
        l = pre ++ entry :: post
        ∧ (∀ entry', entry' ∈ pre →
             ¬ lacksAppearance m s0 entry' ∧ ¬ lacksDisappearance m s0 entry')
        ∧ ((lacksAppearance m s0 entry ∧ e = NoAppearanceFeatures entry.1)
           ∨ (¬ lacksAppearance m s0 entry ∧ lacksDisappearance m s0 entry
              ∧ e = NoDisappearanceFeatures entry.1))
  | Undefined => False
  end.
Proof.
  intros Hbuilt. revert s. induction l as [|entry l IH]; intros s Hl Hlen Hcore; simpl.
  - split_and!; try done; [apply keepsOnes_refl | |]; intros ? H; by apply elem_of_nil in H.
  - assert (entry ∈ segmentationHypotheses_ m) as Hentry by (apply Hl; left).
    pose proof (readGT_closing_spec m s entry Hbuilt Hentry Hlen) as Hstep.
    pose proof (agreeOnCore_lacksAppearance m s0 s entry Hcore Hentry) as Happ.
    pose proof (agreeOnCore_lacksDisappearance m s0 s entry Hcore Hentry) as Hdis.
    destruct (readGT_closing m s entry) as [s1|e|]; simpl; [| |done].
    + destruct Hstep as (Hcore1 & Hones1 & Hnapp & Hndis & Hclosed).
      rewrite <- Happ in Hnapp. rewrite <- Hdis in Hndis.
      assert (length s1 = model_numberOfVariables m) as Hlen1
        by (destruct Hcore1 as [<- _]; done).
      assert (agreeOnCore m s0 s1) as Hcore01 by (by eapply agreeOnCore_trans).
      specialize (IH s1 (fun e He => Hl e (list_elem_of_further _ _ _ He)) Hlen1 Hcore01).
      destruct (for_each (readGT_closing m) l s1) as [s'|e|]; [| |done].
      * destruct IH as (Hcore' & Hones' & Hnone & Hall).
        split; [done|]. split; [by eapply keepsOnes_trans|]. split.
        -- intros e. rewrite elem_of_cons. intros [->|He]; [done | by apply Hnone].
        -- intros e. rewrite elem_of_cons. intros [->|He]; [|by apply Hall].
           apply (closed_later m s1); try done.
           eapply agreeOnCore_trans; [|done]. by apply agreeOnCore_sym.
      * destruct IH as (pre & e' & post & -> & Hpre & He').
        exists (entry :: pre), e', post. split; [done|]. split; [|done].
        intros e0. rewrite elem_of_cons. intros [->|He0]; [done | by apply Hpre].
    + exists [], entry, l. split; [done|]. split.
      * intros ? H. by apply elem_of_nil in H.
      * by rewrite Happ, Hdis.
Qed.

Lemma for_each_Ok_invariant {A S} (I : S → Prop) (body : S → A → outcome S)
    (l : list A) (s s' : S) :
  (∀ s a s', body s a = Ok s' → I s → I s') →
  for_each body l s = Ok s' → I s → I s'.
Proof.
  intros Hbody. revert s. induction l as [|a l IH]; intros s; simpl.
  - by intros [= <-].
  - intros H Hs. apply bind_Ok_inv in H as (s1 & H1 & H).
    apply (IH s1); [done|]. by eapply Hbody.
Qed.

(** The labeling keeps the size of the OpenGM model. *)
Lemma readGT_annotations_length m annotations s :
  readGT_annotations m annotations = Ok s → length s = model_numberOfVariables m.
Proof.
  unfold readGT_annotations. intros H. apply bind_Ok_inv in H as (s1 & H1 & H2).
  apply (for_each_Ok_invariant (fun s => length s = model_numberOfVariables m)) in H2;
    [done| |].
  - intros s2 a s2' Hstep Hlen. unfold readGT_target in Hstep.
    destruct (value a); [|by injection Hstep as <-].
    apply sol_set_Ok in Hstep as [_ ->]. by rewrite length_insert.
  - apply (for_each_Ok_invariant (fun s => length s = model_numberOfVariables m)) in H1;
      [done| |by rewrite length_replicate].
    intros s2 a s2' Hstep Hlen. unfold readGT_source in Hstep.
    destruct (value a); [|by injection Hstep as <-].
    destruct (map_find _ _); [|done].
    apply bind_Ok_inv in Hstep as (s3 & H3 & Hstep).
    apply sol_set_Ok in H3 as [_ ->].
    apply bind_Ok_inv in Hstep as (det & _ & Hstep).
    destruct (bool_decide (det = 1%nat)).
    + apply sol_set_Ok in Hstep as [_ ->]. by rewrite !length_insert.
    + apply bind_Ok_inv in Hstep as (det' & _ & Hstep).
      destruct (bool_decide (det' = 1%nat)); [done|].
      apply sol_set_Ok in Hstep as [_ ->]. by rewrite !length_insert.
Qed.

(** C3, as the code has it.  On a built graph, let [solution2] be the
    labeling after the two loops over the annotations.  When a hypothesis
    with an active detection and no active incoming (outgoing) link lacks
    its appearance (disappearance) variable, the reconstruction throws the
    invariant-violation error of the first such hypothesis in the order of
    the ids, appearance before disappearance.  When there is none, it
    returns a labeling, and in every labeling it returns every hypothesis
    with an active detection has its appearance set when it has no active
    incoming link and its disappearance set when it has no active outgoing
    link. *)
Theorem readGTfromJson_closing (m : Model) (annotations : list LinkResult)
    (solution2 : Solution) :
  built m →
  readGT_annotations m annotations = Ok solution2 →
  ((∃ entry, entry ∈ segmentationHypotheses_ m
             ∧ (lacksAppearance m solution2 entry ∨ lacksDisappearance m solution2 entry)) →
   ∃ pre entry post e,
     segmentationHypotheses_ m = pre ++ entry :: post
     ∧ (∀ entry', entry' ∈ pre →
          ¬ lacksAppearance m solution2 entry' ∧ ¬ lacksDisappearance m solution2 entry')
     ∧ ((lacksAppearance m solution2 entry ∧ e = NoAppearanceFeatures entry.1)
        ∨ (¬ lacksAppearance m solution2 entry ∧ lacksDisappearance m solution2 entry
           ∧ e = NoDisappearanceFeatures entry.1))
     ∧ readGTfromJson m annotations = Throw e
     ∧ classify e = InvariantViolationError)
  ∧ ((∀ entry, entry ∈ segmentationHypotheses_ m →
        ¬ lacksAppearance m solution2 entry ∧ ¬ lacksDisappearance m solution2 entry) →
     ∃ solution, readGTfromJson m annotations = Ok solution)
  ∧ (∀ solution, readGTfromJson m annotations = Ok solution →
       ∀ entry, entry ∈ segmentationHypotheses_ m → closed m solution entry).
Proof.
  intros Hbuilt H2.
  pose proof (readGT_closing_loop m solution2 (segmentationHypotheses_ m) solution2 Hbuilt
                (fun _ H => H) (readGT_annotations_length _ _ _ H2)
                (agreeOnCore_refl m solution2)) as Hloop.
  unfold readGTfromJson. rewrite H2. simpl.
  destruct (for_each (readGT_closing m) (segmentationHypotheses_ m) solution2)
    as [solution|e|]; [| |done].
  - destruct Hloop as (_ & _ & Hnone & Hall). split_and!.
    + intros (entry & Hentry & Hlacks). destruct (Hnone entry Hentry). tauto.
    + eauto.
    + by intros ? [= <-].
  - destruct Hloop as (pre & entry & post & Hsegs & Hpre & He). split_and!.
    + intros _. exists pre, entry, post, e. split_and!; try done.
      by destruct He as [[_ ->]|(_ & _ & ->)].
    + intros Hnone. destruct (Hnone entry) as [? ?].
      * rewrite Hsegs, elem_of_app, elem_of_cons. auto.
      * tauto.
    + done.
Qed.

Lemma built_graph_two : built graph_two.
Proof. apply (bool_decide_unpack (built graph_two)). vm_compute. exact I. Qed.

Lemma built_graph_division : built graph_division.
Proof. apply (bool_decide_unpack (built graph_division)). vm_compute. exact I. Qed.

(** The two-hypotheses graph with its link active: hypothesis 1 has no
    active incoming link and no appearance features. *)
Lemma readGTfromJson_graph_two :
  what <$> match readGTfromJson graph_two [mkLinkResult 1 2 true] with
           | Throw e => Some e
           | _ => None
           end
  = Some ("Segmentation Hypothesis: 1 - GT contains appearing variable "
          +:+ "that has no appearance features set!").
Proof. vm_compute. reflexivity. Qed.

Lemma readGTfromJson_closing_witness :
  ((∃ entry, entry ∈ segmentationHypotheses_ graph_two
             ∧ (lacksAppearance graph_two [1; 1; 1; 0]%nat entry
                ∨ lacksDisappearance graph_two [1; 1; 1; 0]%nat entry)) →
   ∃ pre entry post e,
     segmentationHypotheses_ graph_two = pre ++ entry :: post
     ∧ (∀ entry', entry' ∈ pre →
          ¬ lacksAppearance graph_two [1; 1; 1; 0]%nat entry'
          ∧ ¬ lacksDisappearance graph_two [1; 1; 1; 0]%nat entry')
     ∧ ((lacksAppearance graph_two [1; 1; 1; 0]%nat entry
         ∧ e = NoAppearanceFeatures entry.1)
        ∨ (¬ lacksAppearance graph_two [1; 1; 1; 0]%nat entry
           ∧ lacksDisappearance graph_two [1; 1; 1; 0]%nat entry
           ∧ e = NoDisappearanceFeatures entry.1))
     ∧ readGTfromJson graph_two [mkLinkResult 1 2 true] = Throw e
     ∧ classify e = InvariantViolationError)
  ∧ ((∀ entry, entry ∈ segmentationHypotheses_ graph_two →
        ¬ lacksAppearance graph_two [1; 1; 1; 0]%nat entry
        ∧ ¬ lacksDisappearance graph_two [1; 1; 1; 0]%nat entry) →
     ∃ solution, readGTfromJson graph_two [mkLinkResult 1 2 true] = Ok solution)
  ∧ (∀ solution, readGTfromJson graph_two [mkLinkResult 1 2 true] = Ok solution →
       ∀ entry, entry ∈ segmentationHypotheses_ graph_two →
                closed graph_two solution entry).
Proof.
  apply (readGTfromJson_closing graph_two [mkLinkResult 1 2 true] [1; 1; 1; 0]%nat).
  - exact built_graph_two.
  - vm_compute. reflexivity.
Defined.

(** C3 as stated fails.  [graph_two] passes the feature-count check; with
    the link (1,2) active, hypothesis 2 has an active detection, no active
    outgoing link and no disappearance variable, but the error is the one
    of hypothesis 1, which the loop meets first. *)
Lemma readGTfromJson_closing_names_first :
  ¬ (∀ m annotations solution2 entry,
       (∃ r, computeNumWeights m = Ok r) →
       built m → readGT_annotations m annotations = Ok solution2 →
       entry ∈ segmentationHypotheses_ m →
       lacksDisappearance m solution2 entry →
       readGTfromJson m annotations = Throw (NoAppearanceFeatures entry.1)
       ∨ readGTfromJson m annotations = Throw (NoDisappearanceFeatures entry.1)).
Proof.
  intros H.
  destruct (H graph_two [mkLinkResult 1 2 true] [1; 1; 1; 0]%nat
              (2, {| detection_ := mkVar [0.25%float] 2; division_ := mkVar [] (-1);
                     appearance_ := mkVar [0.5%float] 3;
                     disappearance_ := mkVar [] (-1) |}))
    as [He|He].
  - eexists. vm_compute. reflexivity.
  - exact built_graph_two.
  - vm_compute. reflexivity.
  - simpl. rewrite !elem_of_cons. auto.
  - by vm_compute.
  - vm_compute in He. discriminate He.
  - vm_compute in He. discriminate He.
Qed.

(** ** Order of the weight descriptions *)

(** [getWeightDescriptions] lists detection, division, appearance and
    disappearance, and the links last. *)
Lemma getWeightDescriptions_blocks m m' descriptions :
  getWeightDescriptions m = Ok (m', descriptions) →
  descriptions
  = descriptionBlock "Detection" (numDetFeatures_ m')
    ++ descriptionBlock "Division" (numDivFeatures_ m')
    ++ descriptionBlock "Appearance" (numAppFeatures_ m')
    ++ descriptionBlock "Disappearance" (numDisFeatures_ m')
    ++ descriptionBlock "Link" (numLinkFeatures_ m').
Proof.
  unfold getWeightDescriptions. intros H.
  apply bind_Ok_inv in H as ([m1 n] & _ & H). simpl in H. injection H as <- <-.
  rewrite !addVariableWeightDescriptions_eq. unfold descriptionBlock. simpl.
  by rewrite <- !app_assoc.
Qed.

(** [initializeOpenGMModel] gives the links the first weight ids. *)
Lemma initializeOpenGMModel_linkWeightIds m m' ids :
  initializeOpenGMModel_weightIds m = Ok (m', ids) →
  linkWeightIds ids = seqZ 0 (2 * numLinkFeatures_ m')
  ∧ detWeightIds ids = seqZ (2 * numLinkFeatures_ m') (2 * numDetFeatures_ m').
Proof.
  unfold initializeOpenGMModel_weightIds. intros H.
  apply bind_Ok_inv in H as ([m1 n] & _ & H). simpl in H. by injection H as <- <-.
Qed.

(** Whenever links and detections both have features, weight 0 belongs to
    the links and the description at 0 names the detection. *)
Lemma getWeightDescriptions_first m m1 ids m2 descriptions :
  initializeOpenGMModel_weightIds m = Ok (m1, ids) →
  getWeightDescriptions m = Ok (m2, descriptions) →
  0 < numLinkFeatures_ m1 → 0 < numDetFeatures_ m1 →
  0 ∈ linkWeightIds ids ∧ descriptions !! 0%nat = Some "Detection = 0 - feature 0"%string.
Proof.
  intros Hids Hdescr Hlink Hdet.
  assert (m2 = m1) as ->.
  { unfold initializeOpenGMModel_weightIds, getWeightDescriptions in *.
    destruct (computeNumWeights m) as [[m' n]| |]; simpl in *; congruence. }
  apply initializeOpenGMModel_linkWeightIds in Hids as [-> _].
  apply getWeightDescriptions_blocks in Hdescr as ->. split.
  - apply elem_of_seqZ. lia.
  - unfold descriptionBlock at 1.
    destruct (Z.to_nat (numDetFeatures_ m1)) as [|k] eqn:Hk; [lia|]. done.
Qed.

(** C2: in [graph_two] (one detection, one appearance and one link
    feature) the weights 0 and 1 are the link weights and 2 and 3 the
    detection weights, but the descriptions at 0 and 1 name the detection
    and those of the link come last. *)
Theorem getWeightDescriptions_order_graph_two :
  snd <$> initializeOpenGMModel_weightIds graph_two
  = Ok {| linkWeightIds := [0; 1]; detWeightIds := [2; 3]; divWeightIds := [];
          appWeightIds := [4; 5]; disWeightIds := [] |}
  ∧ snd <$> getWeightDescriptions graph_two
    = Ok [ "Detection = 0 - feature 0"; "Detection = 1 - feature 0";
           "Appearance = 0 - feature 0"; "Appearance = 1 - feature 0";
           "Link = 0 - feature 0"; "Link = 1 - feature 0" ]%string.
Proof. split; vm_compute; reflexivity. Qed.

(** ** Order of the annotations *)

Lemma map_find_elem_of {K V} `{EqDecision K} (k : K) (v : V) (m : list (K * V)) :
  map_find k m = Some v → (k, v) ∈ m.
Proof.
  induction m as [|[k' v'] m IH]; simpl; [done|].
  case_decide as Hk.
  - intros [= ->]. subst. left.
  - intros H. right. by apply IH.
Qed.

(** The first loop at an active annotation, in terms of these ids. *)
Lemma readGT_source_active m s a :
  value a = true →
  readGT_source m s a
  = match sourceIds m a with
    | None => Throw (CannotFindLink (src a) (dest a))
    | Some (linkId, detId, divId) =>
        s1 ← sol_set s linkId 1;
        det ← sol_get s1 detId;
        if bool_decide (det = 1%nat) then sol_set s1 divId 1 else sol_set s1 detId 1
    end.
Proof.
  intros Ha. unfold readGT_source, sourceIds. rewrite Ha.
  destruct (map_find _ _) as [hyp|]; simpl; [|done].
  unfold getDetectionVariable, getDivisionVariable.
  destruct (sol_set s _ 1) as [s1| |]; simpl; [|done..].
  destruct (sol_get s1 _) as [det| |] eqn:Hdet; simpl; [|done..].
  by destruct (bool_decide (det = 1%nat)).
Qed.

(** The ids of an annotation that the first loop has processed are those of
    a link and of a hypothesis of the graph. *)
Lemma sourceIds_in_graph m s a s' linkId detId divId :
  sourceIds m a = Some (linkId, detId, divId) →
  value a = true → readGT_source m s a = Ok s' →
  ∃ linkEntry entry,
    linkEntry ∈ linkingHypotheses_ m ∧ entry ∈ segmentationHypotheses_ m
    ∧ linkId = getOpenGMVariableId (variable_ linkEntry.2)
    ∧ detId = getOpenGMVariableId (detection_ entry.2)
    ∧ divId = getOpenGMVariableId (division_ entry.2)
    ∧ in_range s linkId = true ∧ in_range s detId = true.
Proof.
  intros Hids Ha Hstep. rewrite readGT_source_active, Hids in Hstep by done.
  unfold sourceIds in Hids.
  destruct (map_find (src a, dest a) _) as [hyp|] eqn:Hlink; [|done].
  simpl in Hids. injection Hids as <- <- <-.
  apply bind_Ok_inv in Hstep as (s1 & H1 & Hstep). apply sol_set_Ok in H1 as [Hl ->].
  apply bind_Ok_inv in Hstep as (det & Hdet & _).
  assert (in_range s (getOpenGMVariableId (detection_ (segmentationHypotheses_at m (src a))))
          = true) as Hd.
  { unfold sol_get in Hdet. rewrite in_range_insert in Hdet.
    match type of Hdet with (if ?b then _ else _) = _ => destruct b end;
      [done | discriminate Hdet]. }
  unfold segmentationHypotheses_at in *.
  destruct (map_find (src a) (segmentationHypotheses_ m)) as [h|] eqn:Hseg.
  - exists (src a, dest a, hyp), (src a, h). split_and!; try done.
    + by apply map_find_elem_of.
    + by apply map_find_elem_of.
  - by apply in_range_spec in Hd.
Qed.

Lemma mark_comm s i j : mark (mark s i) j = mark (mark s j) i.
Proof.
  unfold mark. destruct (decide (Z.to_nat i = Z.to_nat j)) as [->|Hne]; [done|].
  by apply list_insert_insert_ne.
Qed.

Lemma in_range_mark s i j : in_range (mark s i) j = in_range s j.
Proof. apply in_range_insert. Qed.

Lemma sol_get_mark s i j :
  in_range s i = true →
  sol_get (mark s i) j = if decide (i = j) then Ok 1%nat else sol_get s j.
Proof.
  intros Hi. unfold mark. case_decide as Hij.
  - subst. by apply sol_get_insert_eq.
  - by apply sol_get_insert_ne.
Qed.

Lemma readGT_source_mark m s a linkId detId divId s' :
  value a = true → sourceIds m a = Some (linkId, detId, divId) → linkId ≠ detId →
  readGT_source m s a = Ok s'
  ↔ in_range s linkId = true ∧ in_range s detId = true
    ∧ in_range s (sourceTarget s detId divId) = true
    ∧ s' = mark (mark s linkId) (sourceTarget s detId divId).
Proof.
  intros Ha Hids Hne. rewrite readGT_source_active, Hids by done.
  destruct (in_range s linkId) eqn:Hl.
  2:{ assert (sol_set s linkId 1 = Undefined) as -> by (unfold sol_set; by rewrite Hl).
      simpl. split; [done | by intros (? & _)]. }
  assert (sol_set s linkId 1 = Ok (mark s linkId)) as ->
    by (unfold sol_set, mark; by rewrite Hl).
  simpl. rewrite sol_get_mark by done.
  rewrite decide_False by done. unfold sourceTarget.
  destruct (sol_get s detId) as [det| |] eqn:Hget; simpl.
  - assert (in_range s detId = true) as Hd.
    { unfold sol_get in Hget. by destruct (in_range s detId). }
    unfold sol_set. rewrite !in_range_mark, Hd.
    destruct det as [|[|det]]; simpl.
    + split; [intros [= <-] | intros (_ & _ & _ & ->)]; done.
    + destruct (in_range s divId) eqn:Hv.
      * split; [intros [= <-] | intros (_ & _ & _ & ->)]; done.
      * split; [done | by intros (_ & _ & ? & _)].
    + split; [intros [= <-] | intros (_ & _ & _ & ->)]; done.
  - by apply sol_get_no_throw in Hget.
  - assert (in_range s detId = false) as Hd.
    { unfold sol_get in Hget. by destruct (in_range s detId). }
    rewrite Hd. split; [done | by intros (_ & ? & _)].
Qed.

Lemma in_range_inModel s i : in_range s i = true → inModel i.
Proof. intros H. apply in_range_spec in H. unfold inModel. lia. Qed.

Lemma built_division_not_detection m s entry1 entry2 :
  built m → entry1 ∈ segmentationHypotheses_ m → entry2 ∈ segmentationHypotheses_ m →
  in_range s (getOpenGMVariableId (division_ entry1.2)) = true →
  getOpenGMVariableId (division_ entry1.2) ≠ getOpenGMVariableId (detection_ entry2.2).
Proof.
  intros Hbuilt H1 H2 Hr Heq.
  destruct (built_same_variable m entry1 1 entry2 0
              (getOpenGMVariableId (division_ entry1.2))) as [? _]; try done.
  - simpl. by rewrite Heq.
  - by eapply in_range_inModel.
Qed.

Lemma built_same_detection m s entry1 entry2 :
  built m → entry1 ∈ segmentationHypotheses_ m → entry2 ∈ segmentationHypotheses_ m →
  in_range s (getOpenGMVariableId (detection_ entry1.2)) = true →
  getOpenGMVariableId (detection_ entry1.2) = getOpenGMVariableId (detection_ entry2.2) →
  entry1 = entry2.
Proof.
  intros Hbuilt H1 H2 Hr Heq.
  destruct (built_same_variable m entry1 0 entry2 0
              (getOpenGMVariableId (detection_ entry1.2))) as [_ ?]; try done.
  - simpl. by rewrite Heq.
  - by eapply in_range_inModel.
Qed.

(** The variable set for a source is its detection or its division. *)
Lemma sourceTarget_cases s detId divId :
  (sol_get s detId = Ok 1%nat ∧ sourceTarget s detId divId = divId)
  ∨ (sol_get s detId ≠ Ok 1%nat ∧ sourceTarget s detId divId = detId).
Proof.
  unfold sourceTarget. destruct (sol_get s detId) as [[|[|d]]| |]; auto.
Qed.

Lemma sourceTarget_ext s s' detId divId :
  sol_get s detId = sol_get s' detId →
  sourceTarget s detId divId = sourceTarget s' detId divId.
Proof. unfold sourceTarget. by intros ->. Qed.

Lemma sourceTarget_one s detId divId :
  sol_get s detId = Ok 1%nat → sourceTarget s detId divId = divId.
Proof. unfold sourceTarget. by intros ->. Qed.

(** Two consecutive iterations of the first loop can be exchanged. *)
Lemma readGT_source_swap m s x y s1 s2 :
  built m →
  readGT_source m s x = Ok s1 → readGT_source m s1 y = Ok s2 →
  ∃ s1', readGT_source m s y = Ok s1' ∧ readGT_source m s1' x = Ok s2.
Proof.
  intros Hbuilt H1 H2.
  destruct (value x) eqn:Hx.
  2:{ unfold readGT_source in H1. rewrite Hx in H1. injection H1 as <-.
      exists s2. split; [done|]. unfold readGT_source. by rewrite Hx. }
  destruct (value y) eqn:Hy.
  2:{ unfold readGT_source in H2. rewrite Hy in H2. injection H2 as <-.
      exists s. split; [|done]. unfold readGT_source. by rewrite Hy. }
  destruct (sourceIds m x) as [[[Lx Dx] Vx]|] eqn:Hidx;
    [|by rewrite readGT_source_active, Hidx in H1].
  destruct (sourceIds m y) as [[[Ly Dy] Vy]|] eqn:Hidy;
    [|by rewrite readGT_source_active, Hidy in H2].
  destruct (sourceIds_in_graph m s x s1 _ _ _ Hidx Hx H1)
    as (lex & ex & Hlex & Hex & -> & -> & -> & HrLx & HrDx).
  destruct (sourceIds_in_graph m s1 y s2 _ _ _ Hidy Hy H2)
    as (ley & ey & Hley & Hey & -> & -> & -> & HrLy & HrDy).
  set (Lx := getOpenGMVariableId (variable_ lex.2)) in *.
  set (Dx := getOpenGMVariableId (detection_ ex.2)) in *.
  set (Vx := getOpenGMVariableId (division_ ex.2)) in *.
  set (Ly := getOpenGMVariableId (variable_ ley.2)) in *.
  set (Dy := getOpenGMVariableId (detection_ ey.2)) in *.
  set (Vy := getOpenGMVariableId (division_ ey.2)) in *.
  assert (Lx ≠ Dx) as HLxDx
    by (eapply (built_not_link m ex 0); try done; by eapply in_range_inModel).
  assert (Ly ≠ Dy) as HLyDy
    by (eapply (built_not_link m ey 0); try done; by eapply in_range_inModel).
  assert (Lx ≠ Dy) as HLxDy
    by (eapply (built_not_link m ey 0); try done; by eapply in_range_inModel).
  assert (Ly ≠ Dx) as HLyDx
    by (eapply (built_not_link m ex 0); try done; by eapply in_range_inModel).
  apply (readGT_source_mark m s x Lx Dx Vx) in H1 as (_ & _ & HrWx & ->); try done.
  apply (readGT_source_mark m _ y Ly Dy Vy) in H2 as (_ & _ & HrWy & ->); try done.
  rewrite !in_range_mark in HrLy, HrDy, HrWy.
  set (Wx := sourceTarget s Dx Vx) in *.
  set (Wy' := sourceTarget (mark (mark s Lx) Wx) Dy Vy) in *.
  set (Wy := sourceTarget s Dy Vy).
  set (Wx' := sourceTarget (mark (mark s Ly) Wy) Dx Vx).
  (* the labels of the two detections after one iteration *)
  assert (sol_get (mark (mark s Lx) Wx) Dy
          = if decide (Wx = Dy) then Ok 1%nat else sol_get s Dy) as HgetDy.
  { rewrite sol_get_mark by (by rewrite in_range_mark).
    destruct (decide (Wx = Dy)); [done|].
    rewrite sol_get_mark by done. by rewrite decide_False. }
  assert (in_range s Wy = true ∧ in_range s Wx' = true
          ∧ mark (mark (mark (mark s Lx) Wx) Ly) Wy'
            = mark (mark (mark (mark s Ly) Wy) Lx) Wx') as (HrWy0 & HrWx' & Heq).
  { destruct (decide (Dx = Dy)) as [HD|HD].
    - (* one source, used twice *)
      assert (ex = ey) as <- by (by eapply built_same_detection).
      assert (Wy = Wx) as HWy by reflexivity.
      assert (in_range s Wy = true) as HrWy0 by (by rewrite HWy).
      assert (sol_get (mark (mark s Ly) Wy) Dx = Ok 1%nat) as Hx1.
      { rewrite sol_get_mark by (by rewrite in_range_mark).
        destruct (decide (Wy = Dx)) as [|n]; [done|].
        rewrite sol_get_mark by done. rewrite decide_False by done.
        destruct (sourceTarget_cases s Dx Vx) as [[? ?]|[_ Hw]]; [done|].
        destruct n. rewrite HWy. exact Hw. }
      assert (sol_get (mark (mark s Lx) Wx) Dx = Ok 1%nat) as Hy1.
      { change Dx with Dy at 1. rewrite HgetDy.
        destruct (decide (Wx = Dy)) as [|n]; [done|].
        destruct (sourceTarget_cases s Dx Vx) as [[? ?]|[_ Hw]]; [done|].
        destruct n. exact Hw. }
      assert (Wy' = Vx) as HWy' by (by apply sourceTarget_one).
      assert (Wx' = Vx) as HWx' by (by apply sourceTarget_one).
      rewrite HWy' in HrWy |- *. rewrite HWx', HWy. split_and!; try done.
      rewrite (mark_comm _ Wx Ly), (mark_comm _ Lx Ly). f_equal. apply mark_comm.
    - (* two sources *)
      assert (Wx ≠ Dy) as HWxDy.
      { destruct (sourceTarget_cases s Dx Vx) as [[_ Hw]|[_ Hw]]; fold Wx in Hw;
          rewrite Hw in *; [|done].
        by eapply built_division_not_detection. }
      assert (Wy' = Wy) as HWy'.
      { apply sourceTarget_ext. rewrite HgetDy. by rewrite decide_False. }
      rewrite HWy' in HrWy |- *.
      assert (Wy ≠ Dx) as HWyDx.
      { destruct (sourceTarget_cases s Dy Vy) as [[_ Hw]|[_ Hw]]; fold Wy in Hw;
          rewrite Hw in *; [|done].
        by eapply built_division_not_detection. }
      assert (Wx' = Wx) as HWx'.
      { apply sourceTarget_ext.
        rewrite sol_get_mark by (by rewrite in_range_mark). rewrite decide_False by done.
        rewrite sol_get_mark by done. by rewrite decide_False. }
      rewrite HWx'. split_and!; try done.
      rewrite (mark_comm _ Wx Ly), (mark_comm _ Lx Ly), (mark_comm _ Wx Wy).
      f_equal. apply mark_comm. }
  exists (mark (mark s Ly) Wy). split.
  - by apply (readGT_source_mark m s y Ly Dy Vy).
  - apply (readGT_source_mark m _ x Lx Dx Vx); try done.
    rewrite !in_range_mark. by split_and!.
Qed.

Lemma readGT_target_swap m s x y s1 s2 :
  readGT_target m s x = Ok s1 → readGT_target m s1 y = Ok s2 →
  ∃ s1', readGT_target m s y = Ok s1' ∧ readGT_target m s1' x = Ok s2.
Proof.
  unfold readGT_target. intros H1 H2.
  destruct (value x); [|injection H1 as <-; eauto].
  destruct (value y); [|injection H2 as <-; eauto].
  apply sol_set_Ok in H1 as [Hx ->]. apply sol_set_Ok in H2 as [Hy ->].
  rewrite in_range_insert in Hy. unfold sol_set. rewrite Hy.
  eexists. split; [done|]. rewrite in_range_insert, Hx. f_equal.
  apply (mark_comm s).
Qed.

(** A loop whose consecutive iterations can be exchanged gives the same
    result on every arrangement of the container. *)
Lemma for_each_Permutation {A S} (body : S → A → outcome S) (l1 l2 : list A) :
  (∀ s x y s1 s2, body s x = Ok s1 → body s1 y = Ok s2 →
                  ∃ s1', body s y = Ok s1' ∧ body s1' x = Ok s2) →
  l1 ≡ₚ l2 →
  ∀ s s', for_each body l1 s = Ok s' → for_each body l2 s = Ok s'.
Proof.
  intros Hswap Hperm. induction Hperm as [|a l1 l2 _ IH|a b l|l1 l2 l3 _ IH1 _ IH2];
    intros s s' H.
  - done.
  - simpl in *. apply bind_Ok_inv in H as (s1 & -> & H). simpl. by apply IH.
  - simpl in *. apply bind_Ok_inv in H as (s1 & Hb & H).
    apply bind_Ok_inv in H as (s2 & Ha & H).
    destruct (Hswap _ _ _ _ _ Hb Ha) as (s1' & -> & Hb'). simpl. by rewrite Hb'.
  - by apply IH2, IH1.
Qed.

(** On a built graph the labeling does not depend on the order of the
    active annotations. *)
Lemma readGTfromJson_Permutation m annotations1 annotations2 solution :
  built m →
  annotations1 ≡ₚ annotations2 →
  readGTfromJson m annotations1 = Ok solution →
  readGTfromJson m annotations2 = Ok solution.
Proof.
  intros Hbuilt Hperm. unfold readGTfromJson, readGT_annotations. intros H.
  apply bind_Ok_inv in H as (s2 & H & H3).
  apply bind_Ok_inv in H as (s1 & H1 & H2).
  apply (for_each_Permutation _ _ annotations2) in H1;
    [|intros; by eapply readGT_source_swap|done].
  apply (for_each_Permutation _ _ annotations2) in H2;
    [|intros; by eapply readGT_target_swap|done].
  rewrite H1. simpl. rewrite H2. simpl. done.
Qed.

(** C10: annotations with [value = false] have no effect.  Two annotation
    sets with the same sequence of active annotations give the same
    outcome; and on a built graph two annotation sets with the same active
    annotations in any order give the same labeling. *)
Theorem readGTfromJson_ignores_inactive (m : Model) (annotations1 annotations2 : list LinkResult) :
  (filter (fun a => value a = true) annotations1
   = filter (fun a => value a = true) annotations2 →
   readGTfromJson m annotations1 = readGTfromJson m annotations2)
  ∧ (built m →
     filter (fun a => value a = true) annotations1
     ≡ₚ filter (fun a => value a = true) annotations2 →
     ∀ solution, readGTfromJson m annotations1 = Ok solution →
                 readGTfromJson m annotations2 = Ok solution).
Proof.
  assert (∀ annotations,
            readGTfromJson m annotations
            = readGTfromJson m (filter (fun a => value a = true) annotations)) as Hfilter.
  { intros annotations. unfold readGTfromJson, readGT_annotations.
    rewrite <- (for_each_filter (fun a => value a = true) (readGT_source m)).
    2:{ intros s a Ha. unfold readGT_source. by destruct (value a). }
    destruct (for_each (readGT_source m) annotations _) as [s| |]; simpl; [|done..].
    rewrite <- (for_each_filter (fun a => value a = true) (readGT_target m)); [done|].
    intros s' a Ha. unfold readGT_target. by destruct (value a). }
  split.
  - intros H. by rewrite (Hfilter annotations1), (Hfilter annotations2), H.
  - intros Hbuilt Hperm solution. rewrite (Hfilter annotations1), (Hfilter annotations2).
    by apply readGTfromJson_Permutation.
Qed.

Lemma readGTfromJson_ignores_inactive_witness :
  readGTfromJson graph_division
    [mkLinkResult 1 2 true; mkLinkResult 1 3 false; mkLinkResult 7 7 false]
  = readGTfromJson graph_division [mkLinkResult 2 1 false; mkLinkResult 1 2 true]
  ∧ (∀ solution,
       readGTfromJson graph_division
         [mkLinkResult 1 2 true; mkLinkResult 9 9 false; mkLinkResult 1 3 true]
       = Ok solution →
       readGTfromJson graph_division [mkLinkResult 1 3 true; mkLinkResult 1 2 true]
       = Ok solution).
Proof.
  split.
  - apply (proj1 (readGTfromJson_ignores_inactive graph_division _ _)).
    vm_compute. reflexivity.
  - apply (proj2 (readGTfromJson_ignores_inactive graph_division _ _)).
    + exact built_graph_division.
    + vm_compute. apply perm_swap.
Defined.

(** * Further properties

    ** [computeNumWeights]: when it succeeds and what it throws *)

(** X1: [computeNumWeights] returns exactly when the present variables of
    every category agree on the length of their feature vectors. *)
Theorem computeNumWeights_succeeds_iff (m : Model) :
  (∃ r, computeNumWeights m = Ok r) ↔ ∀ c, agree (presentVariables m c).
Proof.
  destruct (computeNumWeights_cases m)
    as [(m' & H & _ & _ & _ & _ & _ & Hagree)|(c & H & Hclash & _)].
  - split; [done | eauto].
  - split.
    + intros [r Hr]. congruence.
    + intros Hagree. destruct (compat_clash (-1) (presentVariables m c)); [|done].
      by apply agree_compat.
Qed.

(** X2: [computeNumWeights] never indexes out of range, and the one kind
    of error it throws is the consistency error of a category whose present
    variables do not agree. *)
Theorem computeNumWeights_errors (m : Model) :
  computeNumWeights m ≠ Undefined
  ∧ ∀ e, computeNumWeights m = Throw e →
         ∃ c, e = NotSameNumberOfFeatures (category_name c)
              ∧ classify e = ConsistencyError
              ∧ ¬ agree (presentVariables m c).
Proof.
  destruct (computeNumWeights_cases m)
    as [(m' & H & _)|(c & H & Hclash & _)]; rewrite H.
  - split; [done | by intros e [=]].
  - split; [done|]. intros e [= <-]. exists c. split_and!; try done.
    intros Hagree. destruct (compat_clash (-1) (presentVariables m c)); [|done].
    by apply agree_compat.
Qed.

(** X3: links are stricter than the variables of the hypotheses.  When the
    segmentation categories are consistent, two links with different
    feature counts make [computeNumWeights] throw for the links, also when
    one of the two has no features at all. *)
Theorem computeNumWeights_links_strict (m : Model) (v1 v2 : Var) :
  (∀ c, c ≠ Link → agree (presentVariables m c)) →
  v1 ∈ variables m Link → v2 ∈ variables m Link →
  getNumFeatures v1 ≠ getNumFeatures v2 →
  computeNumWeights m = Throw (NotSameNumberOfFeatures "Links").
Proof.
  intros Hsegs H1 H2 Hne.
  destruct (computeNumWeights_cases m)
    as [(m' & _ & _ & _ & _ & _ & _ & Hagree)|(c & H & Hclash & _)].
  - destruct Hne. by apply (Hagree Link).
  - destruct (decide (c = Link)) as [->|Hc]; [done|].
    destruct (compat_clash (-1) (presentVariables m c)); [|done].
    by apply agree_compat, Hsegs.
Qed.

Lemma computeNumWeights_links_strict_witness :
  computeNumWeights graph_link_without_features = Throw (NotSameNumberOfFeatures "Links").
Proof.
  apply (computeNumWeights_links_strict graph_link_without_features
           (mkVar [] (-1)) (mkVar [0.5%float] (-1))).
  - intros [] Hc; try done; vm_compute presentVariables;
      (apply (agree_Forall 1) || apply (agree_Forall 0)); repeat constructor.
  - simpl. rewrite !elem_of_cons. auto.
  - simpl. rewrite !elem_of_cons. auto.
  - done.
Defined.

(** X4: [computeNumWeights] changes the five stored counts only, and a
    second call finds the same counts and returns the same number. *)
Theorem computeNumWeights_again (m m' : Model) (n : Z) :
  computeNumWeights m = Ok (m', n) →
  segmentationHypotheses_ m' = segmentationHypotheses_ m
  ∧ linkingHypotheses_ m' = linkingHypotheses_ m
  ∧ exclusionConstraints_ m' = exclusionConstraints_ m
  ∧ model_numberOfVariables m' = model_numberOfVariables m
  ∧ computeNumWeights m' = Ok (m', n).
Proof.
  unfold computeNumWeights. intros H.
  apply bind_Ok_inv in H as ([[[det div] app] dis] & Hseg & H).
  apply bind_Ok_inv in H as (link & Hlink & H).
  injection H as <- <-. simpl. split_and!; try done.
  by rewrite Hseg; simpl; rewrite Hlink.
Qed.

Lemma computeNumWeights_again_witness :
  ∃ m', segmentationHypotheses_ m' = segmentationHypotheses_ graph_two
        ∧ linkingHypotheses_ m' = linkingHypotheses_ graph_two
        ∧ exclusionConstraints_ m' = exclusionConstraints_ graph_two
        ∧ model_numberOfVariables m' = model_numberOfVariables graph_two
        ∧ computeNumWeights m' = Ok (m', 6).
Proof.
  eexists. eapply (computeNumWeights_again graph_two). vm_compute. reflexivity.
Defined.

(** ** [initializeOpenGMModel]: the weight ids *)

(** X5: the weight ids that [initializeOpenGMModel] hands out for links,
    detections, divisions, appearances and disappearances are, one range
    after the other, the ids from 0 to the number of weights that
    [computeNumWeights] returns. *)
Theorem initializeOpenGMModel_weightIds_partition (m m' : Model) (ids : WeightIds) :
  initializeOpenGMModel_weightIds m = Ok (m', ids) →
  ∃ n, computeNumWeights m = Ok (m', n)
       ∧ linkWeightIds ids ++ detWeightIds ids ++ divWeightIds ids
         ++ appWeightIds ids ++ disWeightIds ids
         = seqZ 0 n.
Proof.
  unfold initializeOpenGMModel_weightIds. intros H.
  apply bind_Ok_inv in H as ([m1 n] & Hn & H). simpl in H. injection H as <- <-.
  exists n. split; [done|].
  apply computeNumWeights_Ok in Hn as (-> & ? & ? & ? & ? & ?). simpl. unfold iota.
  rewrite <- !seqZ_app by lia. f_equal. lia.
Qed.

Lemma initializeOpenGMModel_weightIds_partition_witness :
  ∃ n, computeNumWeights graph_two
       = Ok (set_numFeatures graph_two 1 0 1 0 1, n)
       ∧ [0; 1] ++ [2; 3] ++ [] ++ [4; 5] ++ [] = seqZ 0 n.
Proof.
  apply (initializeOpenGMModel_weightIds_partition graph_two _
           {| linkWeightIds := [0; 1]; detWeightIds := [2; 3]; divWeightIds := [];
              appWeightIds := [4; 5]; disWeightIds := [] |}).
  vm_compute. reflexivity.
Defined.

(** ** [readGTfromJson]: the labeling only grows *)

Lemma for_each_Ok_split {A S} (body : S → A → outcome S) (pre post : list A) (a : A) (s s' : S) :
  for_each body (pre ++ a :: post) s = Ok s' →
  ∃ s1 s2, for_each body pre s = Ok s1 ∧ body s1 a = Ok s2 ∧ for_each body post s2 = Ok s'.
Proof.
  rewrite for_each_app. intros H.
  apply bind_Ok_inv in H as (s1 & H1 & H). simpl in H.
  apply bind_Ok_inv in H as (s2 & H2 & H). eauto.
Qed.

Lemma foldl_mark_length s ids : length (foldl mark s ids) = length s.
Proof.
  revert s. induction ids as [|i ids IH]; intros s; simpl; [done|].
  rewrite IH. apply length_insert.
Qed.

Lemma extends_refl s : extends s s.
Proof. by exists []. Qed.

Lemma extends_length s s' : extends s s' → length s' = length s.
Proof. intros (ids & _ & ->). apply foldl_mark_length. Qed.

Lemma extends_trans s1 s2 s3 : extends s1 s2 → extends s2 s3 → extends s1 s3.
Proof.
  intros (ids1 & H1 & ->) (ids2 & H2 & ->). exists (ids1 ++ ids2). split.
  - apply Forall_app. split; [done|].
    eapply Forall_impl; [done|]. intros i. unfold in_range.
    by rewrite foldl_mark_length.
  - by rewrite foldl_app.
Qed.

Lemma sol_set_extends s i s' :
  sol_set s i 1 = Ok s' → extends s s' ∧ sol_get s' i = Ok 1%nat.
Proof.
  intros H. apply sol_set_Ok in H as [Hi ->]. split.
  - exists [i]. split; [by constructor | done].
  - by apply sol_get_insert_eq.
Qed.

Lemma extends_keepsOnes s s' : extends s s' → keepsOnes s s'.
Proof.
  intros (ids & Hids & ->). revert s Hids.
  induction ids as [|i ids IH]; intros s Hids; simpl; [apply keepsOnes_refl|].
  apply Forall_cons in Hids as [Hi Hids].
  eapply keepsOnes_trans; [by apply keepsOnes_insert|].
  apply IH. eapply Forall_impl; [done|]. intros j. by rewrite in_range_mark.
Qed.

Lemma extends_binary s s' : extends s s' → binary s → binary s'.
Proof.
  intros (ids & _ & ->). revert s.
  induction ids as [|i ids IH]; intros s Hs; simpl; [done|].
  apply IH. apply Forall_insert; auto.
Qed.

Lemma for_each_extends {A} (body : Solution → A → outcome Solution) (l : list A) s s' :
  (∀ s a s', body s a = Ok s' → extends s s') →
  for_each body l s = Ok s' → extends s s'.
Proof.
  intros Hbody H.
  apply (for_each_Ok_invariant (extends s) body l s s'); [|done|apply extends_refl].
  intros s1 a s2 Hstep Hs1. eapply extends_trans; [done|]. by eapply Hbody.
Qed.

(** The first loop at an active annotation: the link is registered, and
    afterwards its variable and the detection of its source are 1. *)
Lemma readGT_source_sets m s a s' :
  value a = true → readGT_source m s a = Ok s' →
  extends s s'
  ∧ ∃ hyp, map_find (src a, dest a) (linkingHypotheses_ m) = Some hyp
           ∧ sol_get s' (getOpenGMVariableId (variable_ hyp)) = Ok 1%nat
           ∧ sol_get s' (getOpenGMVariableId
                           (detection_ (segmentationHypotheses_at m (src a)))) = Ok 1%nat
           ∧ (sol_get s (getOpenGMVariableId
                           (detection_ (segmentationHypotheses_at m (src a)))) = Ok 1%nat →
              sol_get s' (getOpenGMVariableId
                            (division_ (segmentationHypotheses_at m (src a)))) = Ok 1%nat).
Proof.
  intros Ha H. rewrite readGT_source_active in H by done. unfold sourceIds in H.
  destruct (map_find (src a, dest a) (linkingHypotheses_ m)) as [hyp|]; [|done].
  simpl in H. apply bind_Ok_inv in H as (s1 & H1 & H).
  apply sol_set_extends in H1 as [Hext1 Hlink].
  apply bind_Ok_inv in H as (det & Hdet & H).
  case_bool_decide as Hone.
  - subst det. apply sol_set_extends in H as [Hext2 Hdiv].
    split; [by eapply extends_trans|]. exists hyp. split_and!; try done.
    + by apply (extends_keepsOnes s1).
    + by apply (extends_keepsOnes s1).
  - apply sol_set_extends in H as [Hext2 Hdet'].
    split; [by eapply extends_trans|]. exists hyp. split_and!; try done.
    + by apply (extends_keepsOnes s1).
    + intros Hwas. apply (extends_keepsOnes s s1) in Hwas; [|done].
      rewrite Hwas in Hdet. by injection Hdet as <-.
Qed.

Lemma readGT_source_extends m s a s' : readGT_source m s a = Ok s' → extends s s'.
Proof.
  destruct (value a) eqn:Ha.
  - intros H. by apply readGT_source_sets in H as [? _].
  - unfold readGT_source. rewrite Ha. intros [= <-]. apply extends_refl.
Qed.

Lemma readGT_target_extends m s a s' : readGT_target m s a = Ok s' → extends s s'.
Proof.
  unfold readGT_target. destruct (value a).
  - intros H. by apply sol_set_extends in H as [? _].
  - intros [= <-]. apply extends_refl.
Qed.

Lemma readGT_closing_extends m s entry s' : readGT_closing m s entry = Ok s' → extends s s'.
Proof.
  unfold readGT_closing. intros H.
  apply bind_Ok_inv in H as (det & _ & H).
  destruct (bool_decide (0 < det)%nat); [|injection H as <-; apply extends_refl].
  apply bind_Ok_inv in H as (s1 & H1 & H).
  assert (extends s s1) as Hext1.
  { destruct (bool_decide (getNumActiveIncomingLinks m entry.1 s = 0%nat));
      [|injection H1 as <-; apply extends_refl].
    destruct (bool_decide (getOpenGMVariableId (getAppearanceVariable entry.2) = -1));
      [done|]. by apply sol_set_extends in H1 as [? _]. }
  eapply extends_trans; [done|].
  destruct (bool_decide (getNumActiveOutgoingLinks m entry.1 s1 = 0%nat));
    [|injection H as <-; apply extends_refl].
  destruct (bool_decide (getOpenGMVariableId (getDisappearanceVariable entry.2) = -1));
    [done|]. by apply sol_set_extends in H as [? _].
Qed.

(** The parts of a successful reconstruction. *)
Lemma readGTfromJson_Ok m annotations solution :
  readGTfromJson m annotations = Ok solution →
  ∃ s1 s2,
    for_each (readGT_source m) annotations (replicate (model_numberOfVariables m) 0%nat)
    = Ok s1
    ∧ for_each (readGT_target m) annotations s1 = Ok s2
    ∧ for_each (readGT_closing m) (segmentationHypotheses_ m) s2 = Ok solution
    ∧ extends (replicate (model_numberOfVariables m) 0%nat) s1
    ∧ extends s1 s2 ∧ extends s2 solution.
Proof.
  unfold readGTfromJson, readGT_annotations. intros H.
  apply bind_Ok_inv in H as (s2 & H & H3).
  apply bind_Ok_inv in H as (s1 & H1 & H2).
  exists s1, s2. split_and!; try done.
  - eapply for_each_extends; [|done]. apply readGT_source_extends.
  - eapply for_each_extends; [|done]. apply readGT_target_extends.
  - eapply for_each_extends; [|done]. apply readGT_closing_extends.
Qed.

(** X6: a labeling that [readGTfromJson] returns has one entry per
    variable of the OpenGM model, and every entry is 0 or 1. *)
Theorem readGTfromJson_binary (m : Model) (annotations : list LinkResult)
    (solution : Solution) :
  readGTfromJson m annotations = Ok solution →
  length solution = model_numberOfVariables m ∧ binary solution.
Proof.
  intros H. apply readGTfromJson_Ok in H as (s1 & s2 & _ & _ & _ & H1 & H2 & H3).
  assert (extends (replicate (model_numberOfVariables m) 0%nat) solution) as Hext
    by (eapply extends_trans; [done|]; by eapply extends_trans).
  split.
  - rewrite (extends_length _ _ Hext). apply length_replicate.
  - apply (extends_binary _ _ Hext). apply Forall_replicate. auto.
Qed.

Lemma readGTfromJson_binary_witness :
  length [1; 1; 0; 1; 1; 1; 0; 1; 0; 1; 1; 0; 1; 0; 0; 0]%nat
  = model_numberOfVariables graph_division
  ∧ binary [1; 1; 0; 1; 1; 1; 0; 1; 0; 1; 1; 0; 1; 0; 0; 0]%nat.
Proof.
  apply (readGTfromJson_binary graph_division
           [mkLinkResult 1 2 true; mkLinkResult 1 3 true]).
  vm_compute. reflexivity.
Defined.

(** After the two loops over the annotations, the link of an active
    annotation and the detections at its two ends are 1. *)
Lemma readGT_annotations_sets m annotations s2 a :
  readGT_annotations m annotations = Ok s2 →
  a ∈ annotations → value a = true →
  ∃ hyp, map_find (src a, dest a) (linkingHypotheses_ m) = Some hyp
         ∧ sol_get s2 (getOpenGMVariableId (variable_ hyp)) = Ok 1%nat
         ∧ sol_get s2 (getOpenGMVariableId
                         (detection_ (segmentationHypotheses_at m (src a)))) = Ok 1%nat
         ∧ sol_get s2 (getOpenGMVariableId
                         (detection_ (segmentationHypotheses_at m (dest a)))) = Ok 1%nat.
Proof.
  unfold readGT_annotations. intros H Hin Ha.
  apply bind_Ok_inv in H as (s1 & H1 & H2).
  assert (extends s1 s2) as Hext2
    by (eapply for_each_extends; [|done]; apply readGT_target_extends).
  apply list_elem_of_split in Hin as (pre & post & ->).
  apply for_each_Ok_split in H1 as (sa & sb & _ & Hstep1 & Hpost1).
  apply for_each_Ok_split in H2 as (ta & tb & _ & Hstep2 & Hpost2).
  apply readGT_source_sets in Hstep1 as (_ & hyp & Hfind & Hlink & Hdet & _); [|done].
  assert (keepsOnes sb s2) as Hkeep1.
  { apply extends_keepsOnes. apply (extends_trans sb s1 s2); [|done].
    eapply for_each_extends; [|done]. apply readGT_source_extends. }
  unfold readGT_target in Hstep2. rewrite Ha in Hstep2.
  apply sol_set_extends in Hstep2 as [_ Hdest].
  assert (keepsOnes tb s2) as Hkeep2.
  { apply extends_keepsOnes.
    eapply for_each_extends; [|done]. apply readGT_target_extends. }
  exists hyp. split_and!; auto.
Qed.

Lemma readGTfromJson_sets m annotations solution a :
  readGTfromJson m annotations = Ok solution →
  a ∈ annotations → value a = true →
  ∃ hyp, map_find (src a, dest a) (linkingHypotheses_ m) = Some hyp
         ∧ sol_get solution (getOpenGMVariableId (variable_ hyp)) = Ok 1%nat
         ∧ sol_get solution (getOpenGMVariableId
                               (detection_ (segmentationHypotheses_at m (src a))))
           = Ok 1%nat
         ∧ sol_get solution (getOpenGMVariableId
                               (detection_ (segmentationHypotheses_at m (dest a))))
           = Ok 1%nat.
Proof.
  unfold readGTfromJson. intros H Hin Ha.
  apply bind_Ok_inv in H as (s2 & H2 & H3).
  destruct (readGT_annotations_sets m annotations s2 a H2 Hin Ha)
    as (hyp & Hfind & Hlink & Hsrc & Hdest).
  assert (keepsOnes s2 solution) as Hkeep.
  { apply extends_keepsOnes. eapply for_each_extends; [|done].
    apply readGT_closing_extends. }
  exists hyp. split_and!; auto.
Qed.

(** X7: in a labeling that [readGTfromJson] returns, every active
    annotation has a registered link, and the variable of that link, the
    detection of its source and the detection of its destination are 1. *)
Theorem readGTfromJson_activates (m : Model) (annotations : list LinkResult)
    (solution : Solution) (a : LinkResult) :
  readGTfromJson m annotations = Ok solution →
  a ∈ annotations → value a = true →
  ∃ hyp, map_find (src a, dest a) (linkingHypotheses_ m) = Some hyp
         ∧ sol_get solution (getOpenGMVariableId (variable_ hyp)) = Ok 1%nat
         ∧ sol_get solution (getOpenGMVariableId
                               (detection_ (segmentationHypotheses_at m (src a))))
           = Ok 1%nat
         ∧ sol_get solution (getOpenGMVariableId
                               (detection_ (segmentationHypotheses_at m (dest a))))
           = Ok 1%nat.
Proof.
  unfold readGTfromJson. intros H Hin Ha.
  apply bind_Ok_inv in H as (s2 & H2 & H3).
  destruct (readGT_annotations_sets m annotations s2 a H2 Hin Ha)
    as (hyp & Hfind & Hlink & Hsrc & Hdest).
  exists hyp. split; [done|].
  assert (extends s2 solution) as Hext
    by (eapply for_each_extends; [|done]; apply readGT_closing_extends).
  split_and!; by apply (extends_keepsOnes s2 solution).
Qed.

Lemma readGTfromJson_activates_witness :
  ∃ hyp, map_find (1, 3) (linkingHypotheses_ graph_division) = Some hyp
         ∧ sol_get [1; 1; 0; 1; 1; 1; 0; 1; 0; 1; 1; 0; 1; 0; 0; 0]%nat
             (getOpenGMVariableId (variable_ hyp)) = Ok 1%nat
         ∧ sol_get [1; 1; 0; 1; 1; 1; 0; 1; 0; 1; 1; 0; 1; 0; 0; 0]%nat
             (getOpenGMVariableId
                (detection_ (segmentationHypotheses_at graph_division 1))) = Ok 1%nat
         ∧ sol_get [1; 1; 0; 1; 1; 1; 0; 1; 0; 1; 1; 0; 1; 0; 0; 0]%nat
             (getOpenGMVariableId
                (detection_ (segmentationHypotheses_at graph_division 3))) = Ok 1%nat.
Proof.
  apply (readGTfromJson_activates graph_division
           [mkLinkResult 1 2 true; mkLinkResult 1 3 true] _ (mkLinkResult 1 3 true)).
  - vm_compute. reflexivity.
  - rewrite !elem_of_cons. auto.
  - reflexivity.
Defined.

(** Two activations of a source in the first loop set its division. *)
Lemma readGT_source_loop_division m l1 l2 l3 a1 a2 s s1 :
  for_each (readGT_source m) (l1 ++ a1 :: l2 ++ a2 :: l3) s = Ok s1 →
  value a1 = true → value a2 = true → src a1 = src a2 →
  sol_get s1 (getOpenGMVariableId
                (division_ (segmentationHypotheses_at m (src a1)))) = Ok 1%nat.
Proof.
  intros H1 Ha1 Ha2 Hsrc.
  apply for_each_Ok_split in H1 as (sa & sb & _ & Hstep1 & Hrest).
  apply for_each_Ok_split in Hrest as (sc & sd & Hl2 & Hstep2 & Hl3).
  apply readGT_source_sets in Hstep1 as (_ & _ & _ & _ & Hdet & _); [|done].
  apply readGT_source_sets in Hstep2 as (_ & _ & _ & _ & _ & Hdiv); [|done].
  rewrite Hsrc in Hdet |- *.
  assert (keepsOnes sb sc) as Hkeep
    by (apply extends_keepsOnes; eapply for_each_extends; [|done];
        apply readGT_source_extends).
  assert (keepsOnes sd s1) as Hkeep'
    by (apply extends_keepsOnes; eapply for_each_extends; [|done];
        apply readGT_source_extends).
  auto.
Qed.

Lemma readGTfromJson_division_set m l1 l2 l3 a1 a2 solution :
  readGTfromJson m (l1 ++ a1 :: l2 ++ a2 :: l3) = Ok solution →
  value a1 = true → value a2 = true → src a1 = src a2 →
  sol_get solution (getOpenGMVariableId
                      (division_ (segmentationHypotheses_at m (src a1)))) = Ok 1%nat.
Proof.
  intros H Ha1 Ha2 Hsrc.
  apply readGTfromJson_Ok in H as (s1 & s2 & H1 & _ & _ & _ & Hext2 & Hext3).
  apply (extends_keepsOnes s1 solution); [by apply (extends_trans s1 s2)|].
  by eapply (readGT_source_loop_division m l1 l2 l3 a1 a2).
Qed.

(** X8: when two active annotations, at different places of the annotation
    set, have the same source, a labeling that [readGTfromJson] returns has
    the division of that source at 1. *)
Theorem readGTfromJson_division (m : Model) (l1 l2 l3 : list LinkResult)
    (a1 a2 : LinkResult) (solution : Solution) :
  readGTfromJson m (l1 ++ a1 :: l2 ++ a2 :: l3) = Ok solution →
  value a1 = true → value a2 = true → src a1 = src a2 →
  sol_get solution (getOpenGMVariableId
                      (division_ (segmentationHypotheses_at m (src a1)))) = Ok 1%nat.
Proof.
  unfold readGTfromJson, readGT_annotations. intros H Ha1 Ha2 Hsrc.
  apply bind_Ok_inv in H as (s2 & H & H3).
  apply bind_Ok_inv in H as (s1 & H1 & H2).
  assert (keepsOnes s1 s2) as Hkeep2
    by (apply extends_keepsOnes; eapply for_each_extends; [|done];
        apply readGT_target_extends).
  assert (keepsOnes s2 solution) as Hkeep3
    by (apply extends_keepsOnes; eapply for_each_extends; [|done];
        apply readGT_closing_extends).
  apply Hkeep3, Hkeep2.
  by eapply (readGT_source_loop_division m l1 l2 l3 a1 a2).
Qed.

Lemma readGTfromJson_division_witness :
  sol_get [1; 1; 0; 1; 1; 1; 0; 1; 0; 1; 1; 0; 1; 0; 0; 0]%nat
    (getOpenGMVariableId (division_ (segmentationHypotheses_at graph_division 1)))
  = Ok 1%nat.
Proof.
  apply (readGTfromJson_division graph_division [] [] []
           (mkLinkResult 1 2 true) (mkLinkResult 1 3 true));
    vm_compute; reflexivity.
Defined.

(** ** [readGTfromJson]: errors of the closing loop *)

Lemma readGT_closing_Throw_absent m s entry e :
  readGT_closing m s entry = Throw e →
  (e = NoAppearanceFeatures entry.1
   ∧ getOpenGMVariableId (getAppearanceVariable entry.2) = -1)
  ∨ (e = NoDisappearanceFeatures entry.1
     ∧ getOpenGMVariableId (getDisappearanceVariable entry.2) = -1).
Proof.
  unfold readGT_closing. intros H.
  apply bind_Throw_inv in H as [H | (det & _ & H)]; [by apply sol_get_no_throw in H|].
  destruct (bool_decide (0 < det)%nat); [|done].
  apply bind_Throw_inv in H as [H | (s1 & _ & H)].
  - destruct (bool_decide (getNumActiveIncomingLinks m entry.1 s = 0%nat)); [|done].
    destruct (decide (getOpenGMVariableId (getAppearanceVariable entry.2) = -1))
      as [Hid|Hid].
    + rewrite bool_decide_eq_true_2 in H by done. injection H as <-. auto.
    + rewrite bool_decide_eq_false_2 in H by done. by apply sol_set_no_throw in H.
  - destruct (bool_decide (getNumActiveOutgoingLinks m entry.1 s1 = 0%nat)); [|done].
    destruct (decide (getOpenGMVariableId (getDisappearanceVariable entry.2) = -1))
      as [Hid|Hid].
    + rewrite bool_decide_eq_true_2 in H by done. injection H as <-. auto.
    + rewrite bool_decide_eq_false_2 in H by done. by apply sol_set_no_throw in H.
Qed.

(** X9: [readGTfromJson] throws an invariant-violation error only after
    both loops over the annotations have gone through, so every active
    annotation has a registered link; the error names a hypothesis of the
    graph whose appearance, respectively disappearance, variable has the id
    -1. *)
Theorem readGTfromJson_feature_error (m : Model) (annotations : list LinkResult)
    (e : Error) :
  readGTfromJson m annotations = Throw e → classify e = InvariantViolationError →
  Forall (fun a => value a = true →
                   is_Some (map_find (src a, dest a) (linkingHypotheses_ m)))
         annotations
  ∧ ∃ entry, entry ∈ segmentationHypotheses_ m
             ∧ ((e = NoAppearanceFeatures entry.1
                 ∧ getOpenGMVariableId (getAppearanceVariable entry.2) = -1)
                ∨ (e = NoDisappearanceFeatures entry.1
                   ∧ getOpenGMVariableId (getDisappearanceVariable entry.2) = -1)).
Proof.
  unfold readGTfromJson, readGT_annotations. intros H Hclass.
  apply bind_Throw_inv in H as [H | (s2 & H & H3)].
  - exfalso. apply bind_Throw_inv in H as [H | (s1 & _ & H)].
    + apply for_each_Throw_inv in H as (pre & a & post & sa & _ & _ & H).
      apply readGT_source_Throw in H as (-> & _). done.
    + apply for_each_Throw_inv in H as (pre & a & post & sa & _ & _ & H).
      by apply readGT_target_Throw in H.
  - apply bind_Ok_inv in H as (s1 & H1 & _). split.
    + apply Forall_forall. intros a Hin Ha.
      apply list_elem_of_split in Hin as (pre & post & ->).
      apply for_each_Ok_split in H1 as (sa & sb & _ & Hstep & _).
      apply readGT_source_sets in Hstep as (_ & hyp & -> & _); done.
    + apply for_each_Throw_inv in H3 as (pre & entry & post & sa & Hsegs & _ & H).
      exists entry. split.
      * rewrite Hsegs. apply elem_of_app. right. apply elem_of_cons. by left.
      * by eapply readGT_closing_Throw_absent.
Qed.

Lemma readGTfromJson_feature_error_witness :
  Forall (fun a => value a = true →
                   is_Some (map_find (src a, dest a) (linkingHypotheses_ graph_two)))
         [mkLinkResult 1 2 true]
  ∧ ∃ entry, entry ∈ segmentationHypotheses_ graph_two
             ∧ ((NoAppearanceFeatures 1 = NoAppearanceFeatures entry.1
                 ∧ getOpenGMVariableId (getAppearanceVariable entry.2) = -1)
                ∨ (NoAppearanceFeatures 1 = NoDisappearanceFeatures entry.1
                   ∧ getOpenGMVariableId (getDisappearanceVariable entry.2) = -1)).
Proof.
  apply (readGTfromJson_feature_error graph_two [mkLinkResult 1 2 true]);
    vm_compute; reflexivity.
Defined.

(** ** [readGTfromJson]: annotation sets without an active annotation *)

Lemma for_each_unchanged {A S} (body : S → A → outcome S) (l : list A) (s : S) :
  (∀ a, a ∈ l → body s a = Ok s) → for_each body l s = Ok s.
Proof.
  induction l as [|a l IH]; intros H; simpl; [done|].
  rewrite (H a) by (apply elem_of_cons; by left). simpl.
  apply IH. intros a' Ha'. apply H. apply elem_of_cons. by right.
Qed.

(** X11: on a built graph, annotations none of which is active give the
    labeling with every entry 0; no hypothesis is asked for appearance or
    disappearance features. *)
Theorem readGTfromJson_no_active (m : Model) (annotations : list LinkResult) :
  built m →
  Forall (fun a => value a = false) annotations →
  readGTfromJson m annotations = Ok (replicate (model_numberOfVariables m) 0%nat).
Proof.
  intros Hbuilt Hnone. rewrite Forall_forall in Hnone.
  unfold readGTfromJson, readGT_annotations. simpl.
  rewrite for_each_unchanged; simpl.
  2:{ intros a Ha. unfold readGT_source. by rewrite (Hnone a Ha). }
  rewrite for_each_unchanged; simpl.
  2:{ intros a Ha. unfold readGT_target. by rewrite (Hnone a Ha). }
  apply for_each_unchanged. intros entry Hentry.
  unfold readGT_closing, sol_get.
  rewrite (built_detection_in_range m _ entry Hbuilt Hentry) by apply length_replicate.
  simpl.
  destruct (replicate (model_numberOfVariables m) 0%nat
              !! Z.to_nat (getOpenGMVariableId (getDetectionVariable entry.2)))
    as [v|] eqn:Hv; simpl; [|done].
  apply lookup_replicate in Hv as [-> _]. done.
Qed.

Lemma readGTfromJson_no_active_witness :
  readGTfromJson graph_two [mkLinkResult 1 2 false]
  = Ok (replicate (model_numberOfVariables graph_two) 0%nat).
Proof.
  apply (readGTfromJson_no_active graph_two [mkLinkResult 1 2 false]).
  - apply (bool_decide_unpack (built graph_two)). vm_compute. exact I.
  - repeat constructor.
Defined.

(** ** [readGTfromJson]: accesses inside the solution vector *)

Lemma sol_set_in_range s i v :
  in_range s i = true → sol_set s i v = Ok (<[Z.to_nat i := v]> s).
Proof. unfold sol_set. by intros ->. Qed.

Lemma in_range_built m s id :
  0 ≤ id < Z.of_nat (model_numberOfVariables m) →
  length s = model_numberOfVariables m → in_range s id = true.
Proof. intros Hid Hlen. apply in_range_spec. by rewrite Hlen. Qed.

Lemma built_link_in_range m linkEntry :
  built m → linkEntry ∈ linkingHypotheses_ m →
  inModel (getOpenGMVariableId (variable_ linkEntry.2)) →
  0 ≤ getOpenGMVariableId (variable_ linkEntry.2) < Z.of_nat (model_numberOfVariables m).
Proof.
  intros (_ & Hrange & _) Hin Hid. rewrite Forall_forall in Hrange.
  apply Hrange; [|done]. unfold allVariableIds, linkVariableIds.
  apply elem_of_app. left. apply list_elem_of_fmap. by exists linkEntry.
Qed.

Lemma segmentationHypotheses_at_elem_of m id :
  is_Some (map_find id (segmentationHypotheses_ m)) →
  (id, segmentationHypotheses_at m id) ∈ segmentationHypotheses_ m.
Proof.
  intros [hyp Hhyp]. unfold segmentationHypotheses_at. rewrite Hhyp. simpl.
  by apply map_find_elem_of.
Qed.

Lemma for_each_defined {A} (body : Solution → A → outcome Solution) (l : list A)
    (s : Solution) (n : nat) :
  (∀ s a, a ∈ l → length s = n → body s a ≠ Undefined) →
  (∀ s a s', body s a = Ok s' → extends s s') →
  length s = n → for_each body l s ≠ Undefined.
Proof.
  intros Hdef Hext. revert s.
  induction l as [|a l IH]; intros s Hlen; simpl; [done|].
  destruct (body s a) as [s'| |] eqn:Hstep; simpl; [|done|].
  - apply IH.
    + intros s0 a0 Ha0. apply Hdef. apply elem_of_cons. by right.
    + rewrite (extends_length s s'); [done|]. by eapply Hext.
  - exfalso. eapply Hdef; [|done..]. apply elem_of_cons. by left.
Qed.

Lemma readGT_source_defined m s a :
  built m → linksRegistered m →
  (value a = true →
   inModel (getOpenGMVariableId (division_ (segmentationHypotheses_at m (src a))))) →
  length s = model_numberOfVariables m →
  readGT_source m s a ≠ Undefined.
Proof.
  intros Hbuilt Hlinks Hdiv Hlen.
  destruct (value a) eqn:Ha; [|unfold readGT_source; by rewrite Ha].
  rewrite readGT_source_active by done. unfold sourceIds.
  destruct (map_find (src a, dest a) (linkingHypotheses_ m)) as [hyp|] eqn:Hfind;
    [|done].
  simpl. apply map_find_elem_of in Hfind.
  unfold linksRegistered in Hlinks. rewrite Forall_forall in Hlinks.
  destruct (Hlinks _ Hfind) as (Hlink & Hsrc & _). simpl in Hlink, Hsrc.
  apply segmentationHypotheses_at_elem_of in Hsrc.
  set (hypSrc := segmentationHypotheses_at m (src a)) in *.
  assert (in_range s (getOpenGMVariableId (variable_ hyp)) = true) as HrL.
  { apply (in_range_built m); [|done].
    by apply (built_link_in_range m ((src a, dest a), hyp)). }
  assert (in_range s (getOpenGMVariableId (detection_ hypSrc)) = true) as HrD
    by (by apply (built_detection_in_range m s (src a, hypSrc))).
  assert (in_range s (getOpenGMVariableId (division_ hypSrc)) = true) as HrV.
  { apply (in_range_built m); [|done].
    apply (built_in_range m (src a, hypSrc) 1); auto. }
  rewrite sol_set_in_range by done. simpl.
  unfold sol_get. rewrite in_range_insert, HrD. simpl.
  destruct (bool_decide _); (rewrite sol_set_in_range; [done|by rewrite in_range_insert]).
Qed.

Lemma readGT_target_defined m s a :
  built m → linksRegistered m →
  (value a = true → is_Some (map_find (src a, dest a) (linkingHypotheses_ m))) →
  length s = model_numberOfVariables m →
  readGT_target m s a ≠ Undefined.
Proof.
  intros Hbuilt Hlinks Hreg Hlen. unfold readGT_target.
  destruct (value a); [|done].
  destruct Hreg as [hyp Hfind]; [done|]. apply map_find_elem_of in Hfind.
  unfold linksRegistered in Hlinks. rewrite Forall_forall in Hlinks.
  destruct (Hlinks _ Hfind) as (_ & _ & Hdest). simpl in Hdest.
  apply segmentationHypotheses_at_elem_of in Hdest.
  rewrite sol_set_in_range; [done|].
  by apply (built_detection_in_range m s (dest a, segmentationHypotheses_at m (dest a))).
Qed.

(** X12: on a built graph whose links have variables in the model and
    registered end points, [readGTfromJson] stays inside the solution
    vector (it returns a labeling or throws) whenever the source of every
    active annotation has a division variable in the model. *)
Theorem readGTfromJson_defined (m : Model) (annotations : list LinkResult) :
  built m → linksRegistered m →
  Forall (fun a => value a = true →
            inModel (getOpenGMVariableId
                       (getDivisionVariable (segmentationHypotheses_at m (src a)))))
         annotations →
  readGTfromJson m annotations ≠ Undefined.
Proof.
  intros Hbuilt Hlinks Hdiv. rewrite Forall_forall in Hdiv.
  unfold readGTfromJson, readGT_annotations. simpl.
  destruct (for_each (readGT_source m) annotations
              (replicate (model_numberOfVariables m) 0%nat)) as [s1| |] eqn:H1; simpl;
    [|done|].
  2:{ exfalso. revert H1.
      change (for_each (readGT_source m) annotations
                (replicate (model_numberOfVariables m) 0%nat) ≠ Undefined).
      apply (for_each_defined _ _ _ (model_numberOfVariables m)).
      - intros s a Ha Hlen. apply readGT_source_defined; auto.
      - apply readGT_source_extends.
      - apply length_replicate. }
  assert (length s1 = model_numberOfVariables m) as Hlen1.
  { rewrite (extends_length (replicate (model_numberOfVariables m) 0%nat) s1);
      [apply length_replicate|].
    eapply for_each_extends; [|done]. apply readGT_source_extends. }
  destruct (for_each (readGT_target m) annotations s1) as [s2| |] eqn:H2; simpl;
    [|done|].
  2:{ exfalso. revert H2. change (for_each (readGT_target m) annotations s1 ≠ Undefined).
      apply (for_each_defined _ _ _ (model_numberOfVariables m)); [| |done].
      - intros s a Ha Hlen. apply readGT_target_defined; auto.
        intros Hact. apply list_elem_of_split in Ha as (pre & post & ->).
        apply for_each_Ok_split in H1 as (sa & sb & _ & Hstep & _).
        apply readGT_source_sets in Hstep as (_ & hyp & -> & _); done.
      - apply readGT_target_extends. }
  assert (length s2 = model_numberOfVariables m) as Hlen2.
  { rewrite (extends_length s1 s2); [done|].
    eapply for_each_extends; [|done]. apply readGT_target_extends. }
  apply (for_each_defined _ _ _ (model_numberOfVariables m)); [| |done].
  - intros s entry Hentry Hlen.
    pose proof (readGT_closing_spec m s entry Hbuilt Hentry Hlen) as Hspec.
    by destruct (readGT_closing m s entry).
  - apply readGT_closing_extends.
Qed.

Lemma readGTfromJson_defined_witness :
  readGTfromJson graph_division [mkLinkResult 1 2 true; mkLinkResult 1 3 true]
  ≠ Undefined.
Proof.
  apply (readGTfromJson_defined graph_division
           [mkLinkResult 1 2 true; mkLinkResult 1 3 true]).
  - apply (bool_decide_unpack (built graph_division)). vm_compute. exact I.
  - unfold linksRegistered. apply (bool_decide_unpack _). vm_compute. exact I.
  - apply (bool_decide_unpack _). vm_compute. exact I.
Defined.

(** ** [readGTfromJson]: annotations of unregistered links *)

(** The first loop with an unregistered active annotation in the set
    throws the error of such an annotation, unless an access outside the
    solution vector comes first. *)
Lemma readGT_source_loop_unregistered m annotations s :
  (∃ a, a ∈ annotations ∧ unregistered m a) →
  for_each (readGT_source m) annotations s = Undefined
  ∨ ∃ a, a ∈ annotations ∧ unregistered m a
         ∧ for_each (readGT_source m) annotations s
           = Throw (CannotFindLink (src a) (dest a)).
Proof.
  revert s. induction annotations as [|a' l IH]; intros s (a & Hin & Ha).
  { by apply elem_of_nil in Hin. }
  simpl. destruct (readGT_source m s a') as [s'|e|] eqn:Hstep; simpl; [| |by left].
  - apply elem_of_cons in Hin as [-> | Hin].
    { destruct Ha as [Hact Hfind]. unfold readGT_source in Hstep.
      by rewrite Hact, Hfind in Hstep. }
    destruct (IH s') as [H | (b & Hb & Hunreg & H)]; [by exists a|by left|].
    right. exists b. split; [|done]. apply elem_of_cons. by right.
  - apply readGT_source_Throw in Hstep as (-> & Hact & Hfind).
    right. exists a'. split; [|done]. apply elem_of_cons. by left.
Qed.

Lemma readGTfromJson_unregistered m annotations :
  (∃ a, a ∈ annotations ∧ unregistered m a) →
  readGTfromJson m annotations = Undefined
  ∨ ∃ a, a ∈ annotations ∧ unregistered m a
         ∧ readGTfromJson m annotations = Throw (CannotFindLink (src a) (dest a)).
Proof.
  intros H. unfold readGTfromJson, readGT_annotations.
  destruct (readGT_source_loop_unregistered m annotations
              (replicate (model_numberOfVariables m) 0%nat) H)
    as [-> | (a & Ha & Hunreg & ->)]; [by left|].
  right. by exists a.
Qed.

(** C8: an active annotation whose link is not registered.  On every run
    that stays inside the solution vector the reconstruction throws the
    reference error of such a link, as the specification has it, and it
    throws a reference error for such an annotation only; on a built graph
    whose links are registered and whose annotated sources have a division
    variable it always throws it.  In [graph_no_division] the first two
    annotations leave hypothesis 1, which has no division variable: the
    second one writes [solution[-1]] before the unregistered link (9, 9) is
    looked up, and no error is thrown. *)
Theorem readGTfromJson_unregistered_link_out_of_range :
  readGTfromJson graph_no_division
    [mkLinkResult 1 2 true; mkLinkResult 1 3 true; mkLinkResult 9 9 true]
  = Undefined
  ∧ readGTfromJson graph_no_division
      [mkLinkResult 1 2 true; mkLinkResult 9 9 true; mkLinkResult 1 3 true]
    = Throw (CannotFindLink 9 9)
  ∧ (∀ m annotations,
       (∃ a, a ∈ annotations ∧ unregistered m a) →
       readGTfromJson m annotations = Undefined
       ∨ ∃ a, a ∈ annotations ∧ unregistered m a
              ∧ readGTfromJson m annotations = Throw (CannotFindLink (src a) (dest a))
              ∧ classify (CannotFindLink (src a) (dest a)) = ReferenceError)
  ∧ (∀ m annotations,
       built m → linksRegistered m →
       Forall (fun a => value a = true →
                 inModel (getOpenGMVariableId
                            (getDivisionVariable (segmentationHypotheses_at m (src a)))))
              annotations →
       (∃ a, a ∈ annotations ∧ unregistered m a) →
       ∃ a, a ∈ annotations ∧ unregistered m a
            ∧ readGTfromJson m annotations = Throw (CannotFindLink (src a) (dest a))
            ∧ classify (CannotFindLink (src a) (dest a)) = ReferenceError)
  ∧ (∀ m annotations e,
       readGTfromJson m annotations = Throw e → classify e = ReferenceError →
       ∃ a, a ∈ annotations ∧ unregistered m a ∧ e = CannotFindLink (src a) (dest a)).
Proof.
  split_and!; [vm_compute; reflexivity..| | |].
  - intros m annotations H.
    destruct (readGTfromJson_unregistered m annotations H)
      as [? | (a & ? & ? & ?)]; [by left|].
    right. by exists a.
  - intros m annotations Hbuilt Hlinks Hdiv H. rewrite Forall_forall in Hdiv.
    unfold readGTfromJson, readGT_annotations.
    destruct (readGT_source_loop_unregistered m annotations
                (replicate (model_numberOfVariables m) 0%nat) H)
      as [Hundef | (a & Ha & Hunreg & ->)]; [|by exists a].
    exfalso. revert Hundef.
    apply (for_each_defined _ _ _ (model_numberOfVariables m)).
    + intros s a Ha Hlen. apply readGT_source_defined; auto.
    + apply readGT_source_extends.
    + apply length_replicate.
  - intros m annotations e H He.
    apply readGTfromJson_Throw in H
      as [(pre & a & post & s & -> & _ & Ha & Hfind & ->)|(? & _ & [->| ->])];
      [|discriminate..].
    exists a. split_and!; [|done..]. rewrite elem_of_app, elem_of_cons. auto.
Qed.

Lemma readGTfromJson_unregistered_link_out_of_range_witness :
  ∃ a, a ∈ [mkLinkResult 1 2 true; mkLinkResult 1 3 false; mkLinkResult 1 9 true]
       ∧ unregistered graph_division a
       ∧ readGTfromJson graph_division
           [mkLinkResult 1 2 true; mkLinkResult 1 3 false; mkLinkResult 1 9 true]
         = Throw (CannotFindLink (src a) (dest a))
       ∧ classify (CannotFindLink (src a) (dest a)) = ReferenceError.
Proof.
  apply (proj1 (proj2 (proj2 (proj2 readGTfromJson_unregistered_link_out_of_range)))
           graph_division
           [mkLinkResult 1 2 true; mkLinkResult 1 3 false; mkLinkResult 1 9 true]).
  - apply (bool_decide_unpack (built graph_division)). vm_compute. exact I.
  - unfold linksRegistered. apply (bool_decide_unpack _). vm_compute. exact I.
  - apply (bool_decide_unpack _). vm_compute. exact I.
  - exists (mkLinkResult 1 9 true). split; [rewrite !elem_of_cons; auto|].
    split; vm_compute; reflexivity.
Defined.

(** ** [readGTfromJson]: where the labels 1 come from *)

Lemma segmentationHypotheses_at_find m id q j :
  variableIds (segmentationHypotheses_at m id) !! q = Some j → inModel j →
  map_find id (segmentationHypotheses_ m) = Some (segmentationHypotheses_at m id).
Proof.
  unfold segmentationHypotheses_at.
  destruct (map_find id (segmentationHypotheses_ m)) as [hyp|]; [done|].
  intros Hq Hj. exfalso. apply Hj.
  destruct q as [|[|[|[|q]]]]; simpl in Hq; by try injection Hq as <-.
Qed.

Lemma built_same_link m linkEntry1 linkEntry2 :
  built m → linkEntry1 ∈ linkingHypotheses_ m → linkEntry2 ∈ linkingHypotheses_ m →
  getOpenGMVariableId (variable_ linkEntry1.2)
  = getOpenGMVariableId (variable_ linkEntry2.2) →
  inModel (getOpenGMVariableId (variable_ linkEntry1.2)) →
  linkEntry1 = linkEntry2.
Proof.
  intros (Hfresh & _ & _) H1 H2 Heq Hid.
  apply list_elem_of_lookup in H1 as [k1 Hk1], H2 as [k2 Hk2].
  pose proof (lookup_allVariableIds_link m k1 linkEntry1 Hk1) as Hl1.
  pose proof (lookup_allVariableIds_link m k2 linkEntry2 Hk2) as Hl2.
  rewrite <- Heq in Hl2.
  pose proof (NoDup_filter_lookup inModel _ _ _ _ Hfresh Hl1 Hl2 Hid) as ->.
  congruence.
Qed.

Lemma sol_get_replicate_zero n j v : sol_get (replicate n 0%nat) j = Ok v → v = 0%nat.
Proof.
  unfold sol_get. destruct (in_range _ j); [|done]. intros [= <-].
  destruct (replicate n 0%nat !! Z.to_nat j) as [v|] eqn:Hv; simpl; [|done].
  by apply lookup_replicate in Hv as [-> _].
Qed.

Lemma sol_set_ones s i s' j :
  sol_set s i 1 = Ok s' → sol_get s' j = Ok 1%nat → j = i ∨ sol_get s j = Ok 1%nat.
Proof.
  intros H Hj. apply sol_set_Ok in H as [Hi ->].
  change (<[Z.to_nat i := 1%nat]> s) with (mark s i) in Hj.
  rewrite sol_get_mark in Hj by done. destruct (decide (i = j)); auto.
Qed.

Lemma outgoing_snoc pre a id :
  outgoing (pre ++ [a]) id
  = outgoing pre id ++ (if decide (value a = true ∧ src a = id) then [a] else []).
Proof. unfold outgoing. rewrite filter_app. f_equal. Qed.

Lemma labelledBySources_snoc m pre a j :
  labelledBySources m pre j → labelledBySources m (pre ++ [a]) j.
Proof.
  intros [(b & hyp & Hb & H) | (id & hyp & Hfind & H)].
  - left. exists b, hyp. split; [|done]. apply elem_of_app. by left.
  - right. exists id, hyp. split; [done|]. rewrite outgoing_snoc.
    destruct H as [[-> H] | [-> H]]; [left | right]; split; try done.
    + destruct (outgoing pre id); [done|]. done.
    + rewrite length_app. lia.
Qed.

(** The first loop on a built graph. *)
Lemma readGT_source_loop_ones m pre s :
  built m →
  for_each (readGT_source m) pre (replicate (model_numberOfVariables m) 0%nat) = Ok s →
  ∀ j, sol_get s j = Ok 1%nat → labelledBySources m pre j.
Proof.
  intros Hbuilt. revert s. induction pre as [|a pre IH] using rev_ind; intros s' H j Hj.
  { injection H as <-. by apply sol_get_replicate_zero in Hj. }
  rewrite for_each_app in H. apply bind_Ok_inv in H as (s & Hpre & Hstep).
  simpl in Hstep. apply bind_Ok_inv in Hstep as (s'' & Hstep & [= ->]).
  specialize (IH s Hpre).
  destruct (value a) eqn:Ha.
  2:{ unfold readGT_source in Hstep. rewrite Ha in Hstep. injection Hstep as <-.
      by apply labelledBySources_snoc, IH. }
  rewrite readGT_source_active in Hstep by done. unfold sourceIds in Hstep.
  destruct (map_find (src a, dest a) (linkingHypotheses_ m)) as [hyp|] eqn:Hfind;
    [|done].
  simpl in Hstep. apply bind_Ok_inv in Hstep as (s1 & H1 & Hstep).
  apply bind_Ok_inv in Hstep as (det & Hdet & Hstep).
  set (hypSrc := segmentationHypotheses_at m (src a)) in *.
  assert (inModel (getOpenGMVariableId (detection_ hypSrc))) as HinD.
  { apply (in_range_inModel s1). unfold sol_get in Hdet.
    by destruct (in_range s1 (getOpenGMVariableId (detection_ hypSrc))). }
  pose proof (segmentationHypotheses_at_find m (src a) 0 _ eq_refl HinD) as HfindSrc.
  fold hypSrc in HfindSrc.
  pose proof (map_find_elem_of _ _ _ HfindSrc) as HsrcIn.
  pose proof (map_find_elem_of _ _ _ Hfind) as HlinkIn.
  assert (a ∈ pre ++ [a]) as Hain by (apply elem_of_app; right; by apply list_elem_of_singleton).
  assert (labelledBySources m (pre ++ [a]) (getOpenGMVariableId (variable_ hyp))) as HL
    by (left; by exists a, hyp).
  assert (sol_get s1 j = Ok 1%nat → labelledBySources m (pre ++ [a]) j) as Hs1.
  { intros Hj1. destruct (sol_set_ones _ _ _ _ H1 Hj1) as [-> | Hj0]; [done|].
    by apply labelledBySources_snoc, IH. }
  destruct (decide (det = 1%nat)) as [->|Hne].
  - rewrite bool_decide_eq_true_2 in Hstep by done.
    destruct (sol_set_ones _ _ _ _ Hstep Hj) as [-> | Hj1]; [|auto].
    right. exists (src a), hypSrc. split; [done|]. right. split; [done|].
    rewrite outgoing_snoc, decide_True, length_app by done. simpl.
    enough (outgoing pre (src a) ≠ []) by (destruct (outgoing pre (src a)); simpl; [done|lia]).
    destruct (sol_set_ones _ _ _ _ H1 Hdet) as [Heq | Hdet0].
    { exfalso. symmetry in Heq. revert Heq.
      by apply (built_not_link m (src a, hypSrc) 0 _ ((src a, dest a), hyp)). }
    destruct (IH _ Hdet0) as [(b & hypb & Hb & _ & Hfindb & Heq)
                             | (id & hypId & HfindId & [[Heq Hout] | [Heq _]])].
    + exfalso. symmetry in Heq. revert Heq.
      apply (built_not_link m (src a, hypSrc) 0 _ ((src b, dest b), hypb)); try done.
      by apply map_find_elem_of.
    + apply map_find_elem_of in HfindId.
      destruct (built_same_variable m (src a, hypSrc) 0 (id, hypId) 0
                  (getOpenGMVariableId (detection_ hypSrc))) as [_ [= <- _]]; try done.
      simpl. by rewrite Heq.
    + exfalso. apply map_find_elem_of in HfindId.
      destruct (built_same_variable m (src a, hypSrc) 0 (id, hypId) 1
                  (getOpenGMVariableId (detection_ hypSrc))) as [? _]; try done.
      simpl. by rewrite Heq.
  - rewrite bool_decide_eq_false_2 in Hstep by done.
    destruct (sol_set_ones _ _ _ _ Hstep Hj) as [-> | Hj1]; [|auto].
    right. exists (src a), hypSrc. split; [done|]. left. split; [done|].
    rewrite outgoing_snoc, decide_True by done. by destruct (outgoing pre (src a)).
Qed.

Lemma for_each_ones {A} (I : Solution → Prop) (P : Z → Prop)
    (body : Solution → A → outcome Solution) (l : list A) (s s' : Solution) :
  (∀ s a s', a ∈ l → I s → body s a = Ok s' →
             I s' ∧ ∀ j, sol_get s' j = Ok 1%nat → sol_get s j = Ok 1%nat ∨ P j) →
  I s → for_each body l s = Ok s' →
  ∀ j, sol_get s' j = Ok 1%nat → sol_get s j = Ok 1%nat ∨ P j.
Proof.
  revert s. induction l as [|a l IH]; intros s Hbody HI H j Hj; simpl in H.
  { injection H as <-. auto. }
  apply bind_Ok_inv in H as (s1 & Hstep & H).
  destruct (Hbody s a s1) as [HI1 Hones]; [apply elem_of_cons; by left|done..|].
  destruct (IH s1) with (j := j) as [Hj1 | HP]; auto.
  intros s0 a0 s0' Ha0. apply Hbody. apply elem_of_cons. by right.
Qed.

(** The second loop sets detections of destinations only. *)
Lemma readGT_target_loop_ones m annotations s1 s2 :
  for_each (readGT_target m) annotations s1 = Ok s2 →
  ∀ j, sol_get s2 j = Ok 1%nat →
       sol_get s1 j = Ok 1%nat
       ∨ ∃ a, a ∈ annotations ∧ value a = true
              ∧ j = getOpenGMVariableId (detection_ (segmentationHypotheses_at m (dest a))).
Proof.
  apply (for_each_ones (fun _ => True)); [|done].
  intros s a s' Ha _ Hstep. split; [done|]. intros j Hj.
  unfold readGT_target in Hstep. destruct (value a) eqn:Hact.
  - destruct (sol_set_ones _ _ _ _ Hstep Hj) as [-> | Hj0]; [|auto].
    right. by exists a.
  - injection Hstep as <-. auto.
Qed.

Lemma isActive_sol_get_pos s v n :
  sol_get s (getOpenGMVariableId v) = Ok n → (0 < n)%nat → isActive s v = true.
Proof. unfold isActive. intros -> Hn. destruct n; [lia|done]. Qed.

(** The closing loop sets appearances and disappearances only, each under
    its condition on the labeling that the loops over the annotations
    left. *)
Lemma readGT_closing_loop_ones m s2 solution :
  built m → length s2 = model_numberOfVariables m →
  for_each (readGT_closing m) (segmentationHypotheses_ m) s2 = Ok solution →
  ∀ j, sol_get solution j = Ok 1%nat →
       sol_get s2 j = Ok 1%nat
       ∨ ∃ entry, entry ∈ segmentationHypotheses_ m
                  ∧ isActive s2 (detection_ entry.2) = true
                  ∧ ((j = getOpenGMVariableId (appearance_ entry.2)
                      ∧ getNumActiveIncomingLinks m entry.1 s2 = 0%nat)
                     ∨ (j = getOpenGMVariableId (disappearance_ entry.2)
                        ∧ getNumActiveOutgoingLinks m entry.1 s2 = 0%nat)).
Proof.
  intros Hbuilt Hlen2.
  apply (for_each_ones
           (fun s => agreeOnCore m s2 s ∧ length s = model_numberOfVariables m));
    [|split; [apply agreeOnCore_refl | done]].
  intros s entry s' Hentry [Hagree Hlen] Hstep.
  pose proof (readGT_closing_spec m s entry Hbuilt Hentry Hlen) as Hspec.
  rewrite Hstep in Hspec. destruct Hspec as (Hagree' & _).
  split.
  { split; [by eapply agreeOnCore_trans|]. destruct Hagree' as [<- _]. done. }
  intros j Hj. unfold readGT_closing in Hstep.
  apply bind_Ok_inv in Hstep as (det & Hdet & Hstep).
  destruct (decide (0 < det)%nat) as [Hpos|Hpos].
  2:{ rewrite bool_decide_eq_false_2 in Hstep by done. injection Hstep as <-. auto. }
  rewrite bool_decide_eq_true_2 in Hstep by done.
  assert (isActive s2 (detection_ entry.2) = true) as Hact.
  { rewrite (agreeOnCore_isActive_detection m s2 s) by done.
    by apply (isActive_sol_get_pos s _ det). }
  apply bind_Ok_inv in Hstep as (sa & Ha & Hb).
  assert (agreeOnCore m s sa
          ∧ (sol_get sa j = Ok 1%nat →
             sol_get s j = Ok 1%nat
             ∨ (j = getOpenGMVariableId (appearance_ entry.2)
                ∧ getNumActiveIncomingLinks m entry.1 s2 = 0%nat))) as [Hagree1 Hsa].
  { destruct (decide (getNumActiveIncomingLinks m entry.1 s = 0%nat)) as [Hinc|Hinc].
    - rewrite bool_decide_eq_true_2 in Ha by done.
      destruct (decide (getOpenGMVariableId (getAppearanceVariable entry.2) = -1))
        as [Hid|Hid].
      { by rewrite bool_decide_eq_true_2 in Ha. }
      rewrite bool_decide_eq_false_2 in Ha by done.
      destruct (closing_write m s entry 2 _ Hbuilt Hentry Hlen eq_refl) as (Hw & Hag & _);
        [lia|done|].
      unfold getAppearanceVariable in Ha. rewrite Hw in Ha. injection Ha as <-.
      split; [done|]. intros Hj1.
      destruct (sol_set_ones _ _ _ _ Hw Hj1) as [-> | ?]; [|auto].
      right. split; [done|]. by rewrite (agreeOnCore_incoming m s2 s).
    - rewrite bool_decide_eq_false_2 in Ha by done. injection Ha as <-.
      split; [apply agreeOnCore_refl | auto]. }
  assert (length sa = model_numberOfVariables m) as Hlena
    by (destruct Hagree1 as [<- _]; done).
  destruct (decide (getNumActiveOutgoingLinks m entry.1 sa = 0%nat)) as [Hout|Hout].
  - rewrite bool_decide_eq_true_2 in Hb by done.
    destruct (decide (getOpenGMVariableId (getDisappearanceVariable entry.2) = -1))
      as [Hid|Hid].
    { by rewrite bool_decide_eq_true_2 in Hb. }
    rewrite bool_decide_eq_false_2 in Hb by done.
    destruct (sol_set_ones _ _ _ _ Hb Hj) as [-> | Hj1].
    + right. exists entry. split_and!; try done. right. split; [done|].
      rewrite (agreeOnCore_outgoing m s2 sa); [done|]. by eapply agreeOnCore_trans.
    + destruct (Hsa Hj1) as [? | ?]; [auto|]. right. exists entry. auto.
  - rewrite bool_decide_eq_false_2 in Hb by done. injection Hb as <-.
    destruct (Hsa Hj) as [? | ?]; [auto|]. right. exists entry. auto.
Qed.

Lemma sol_get_inModel s j v : sol_get s j = Ok v → inModel j.
Proof.
  unfold sol_get. destruct (in_range s j) eqn:Hr; [|done]. intros _.
  by apply (in_range_inModel s).
Qed.

Lemma binary_sol_get s j n : binary s → sol_get s j = Ok (S n) → sol_get s j = Ok 1%nat.
Proof.
  unfold sol_get. intros Hbin. destruct (in_range s j); [|done].
  destruct (s !! Z.to_nat j) as [v|] eqn:Hv; simpl; [|done]. intros [= ->].
  unfold binary in Hbin. rewrite Forall_forall in Hbin.
  destruct (Hbin (S n)) as [?|?]; [by eapply list_elem_of_lookup_2|done|congruence].
Qed.

Lemma isActive_binary s v : binary s → isActive s v = true →
  sol_get s (getOpenGMVariableId v) = Ok 1%nat.
Proof.
  unfold isActive. intros Hbin H.
  destruct (sol_get s (getOpenGMVariableId v)) as [[|n]| |] eqn:Hv; try done.
  rewrite <- Hv. by apply (binary_sol_get s _ n).
Qed.

Lemma outgoing_elem_of annotations a :
  a ∈ annotations → value a = true → outgoing annotations (src a) ≠ [].
Proof.
  intros Hin Ha Hnil. eapply (filter_nil_not_elem_of _ _ a); [exact Hnil|done|done].
Qed.

Lemma incoming_elem_of annotations a :
  a ∈ annotations → value a = true → incoming annotations (dest a) ≠ [].
Proof.
  intros Hin Ha Hnil. eapply (filter_nil_not_elem_of _ _ a); [exact Hnil|done|done].
Qed.

Lemma outgoing_inv annotations id :
  outgoing annotations id ≠ [] → ∃ a, a ∈ annotations ∧ value a = true ∧ src a = id.
Proof.
  unfold outgoing. destruct (filter _ annotations) as [|a l] eqn:H; [done|]. intros _.
  assert (a ∈ filter (fun a => value a = true ∧ src a = id) annotations) as Ha
    by (rewrite H; apply elem_of_cons; by left).
  apply list_elem_of_filter in Ha as [[? ?] ?]. by exists a.
Qed.

Lemma incoming_inv annotations id :
  incoming annotations id ≠ [] → ∃ a, a ∈ annotations ∧ value a = true ∧ dest a = id.
Proof.
  unfold incoming. destruct (filter _ annotations) as [|a l] eqn:H; [done|]. intros _.
  assert (a ∈ filter (fun a => value a = true ∧ dest a = id) annotations) as Ha
    by (rewrite H; apply elem_of_cons; by left).
  apply list_elem_of_filter in Ha as [[? ?] ?]. by exists a.
Qed.

(** The labels 1 after the two loops over the annotations, on a built
    graph. *)
Lemma readGT_annotations_ones m annotations s2 :
  built m → readGT_annotations m annotations = Ok s2 →
  ∀ j, sol_get s2 j = Ok 1%nat →
       (∃ a hyp, a ∈ annotations ∧ value a = true
                 ∧ map_find (src a, dest a) (linkingHypotheses_ m) = Some hyp
                 ∧ j = getOpenGMVariableId (variable_ hyp))
       ∨ (∃ id hyp, map_find id (segmentationHypotheses_ m) = Some hyp
                    ∧ ((j = getOpenGMVariableId (detection_ hyp)
                        ∧ (outgoing annotations id ≠ [] ∨ incoming annotations id ≠ []))
                       ∨ (j = getOpenGMVariableId (division_ hyp)
                          ∧ (2 ≤ length (outgoing annotations id))%nat))).
Proof.
  unfold readGT_annotations. intros Hbuilt H j Hj.
  apply bind_Ok_inv in H as (s1 & H1 & H2).
  destruct (readGT_target_loop_ones m annotations s1 s2 H2 j Hj)
    as [Hj1 | (a & Hin & Ha & ->)].
  - destruct (readGT_source_loop_ones m annotations s1 Hbuilt H1 j Hj1)
      as [? | (id & hyp & Hfind & [[-> ?] | [-> ?]])]; [by left|right..].
    + exists id, hyp. split; [done|]. left. auto.
    + exists id, hyp. split; [done|]. right. auto.
  - right. exists (dest a), (segmentationHypotheses_at m (dest a)). split.
    + apply (segmentationHypotheses_at_find m (dest a) 0 _ eq_refl).
      by apply (sol_get_inModel s2 _ 1%nat).
    + left. split; [done|]. right. by apply incoming_elem_of.
Qed.

Lemma getNumActiveIncomingLinks_pos m id s linkEntry :
  linkEntry ∈ linkingHypotheses_ m → linkEntry.1.2 = id →
  isActive s (variable_ linkEntry.2) = true →
  getNumActiveIncomingLinks m id s ≠ 0%nat.
Proof.
  intros Hin Hid Hact. unfold getNumActiveIncomingLinks.
  assert (In linkEntry
            (List.filter (fun entry : (Z * Z) * LinkingHypothesis =>
                            bool_decide (entry.1.2 = id) && isActive s (variable_ entry.2))
                         (linkingHypotheses_ m))) as H.
  { apply List.filter_In. split; [by apply list_elem_of_In|].
    by rewrite bool_decide_eq_true_2, Hact. }
  by destruct (List.filter _ _).
Qed.

Lemma getNumActiveOutgoingLinks_pos m id s linkEntry :
  linkEntry ∈ linkingHypotheses_ m → linkEntry.1.1 = id →
  isActive s (variable_ linkEntry.2) = true →
  getNumActiveOutgoingLinks m id s ≠ 0%nat.
Proof.
  intros Hin Hid Hact. unfold getNumActiveOutgoingLinks.
  assert (In linkEntry
            (List.filter (fun entry : (Z * Z) * LinkingHypothesis =>
                            bool_decide (entry.1.1 = id) && isActive s (variable_ entry.2))
                         (linkingHypotheses_ m))) as H.
  { apply List.filter_In. split; [by apply list_elem_of_In|].
    by rewrite bool_decide_eq_true_2, Hact. }
  by destruct (List.filter _ _).
Qed.

Lemma getNumActiveIncomingLinks_zero m id s :
  (∀ linkEntry, linkEntry ∈ linkingHypotheses_ m → linkEntry.1.2 = id →
                isActive s (variable_ linkEntry.2) = false) →
  getNumActiveIncomingLinks m id s = 0%nat.
Proof.
  intros H. unfold getNumActiveIncomingLinks.
  destruct (List.filter _ _) as [|e l] eqn:Hf; [done|]. exfalso.
  assert (In e (e :: l)) as He by (by left). rewrite <- Hf in He.
  apply List.filter_In in He as [He Hb]. apply andb_true_iff in Hb as [Hb1 Hb2].
  apply bool_decide_eq_true_1 in Hb1.
  rewrite (H e) in Hb2; [done|by apply list_elem_of_In|done].
Qed.

Lemma getNumActiveOutgoingLinks_zero m id s :
  (∀ linkEntry, linkEntry ∈ linkingHypotheses_ m → linkEntry.1.1 = id →
                isActive s (variable_ linkEntry.2) = false) →
  getNumActiveOutgoingLinks m id s = 0%nat.
Proof.
  intros H. unfold getNumActiveOutgoingLinks.
  destruct (List.filter _ _) as [|e l] eqn:Hf; [done|]. exfalso.
  assert (In e (e :: l)) as He by (by left). rewrite <- Hf in He.
  apply List.filter_In in He as [He Hb]. apply andb_true_iff in Hb as [Hb1 Hb2].
  apply bool_decide_eq_true_1 in Hb1.
  rewrite (H e) in Hb2; [done|by apply list_elem_of_In|done].
Qed.

(** After the loops over the annotations, a hypothesis that an active
    annotation enters (leaves) has an active incoming (outgoing) link. *)
Lemma readGT_annotations_incoming m annotations s2 id :
  readGT_annotations m annotations = Ok s2 →
  getNumActiveIncomingLinks m id s2 = 0%nat → incoming annotations id = [].
Proof.
  intros H2 Hzero. destruct (incoming annotations id) as [|b l] eqn:Hin; [done|].
  exfalso. destruct (incoming_inv annotations id) as (a & Ha & Hact & Hdest);
    [by rewrite Hin|].
  destruct (readGT_annotations_sets m annotations s2 a H2 Ha Hact)
    as (hyp & Hfind & Hlink & _).
  revert Hzero.
  apply (getNumActiveIncomingLinks_pos m id s2 ((src a, dest a), hyp)); [|done|].
  - by apply map_find_elem_of.
  - by apply (isActive_sol_get_pos s2 _ 1%nat); [|lia].
Qed.

Lemma readGT_annotations_outgoing m annotations s2 id :
  readGT_annotations m annotations = Ok s2 →
  getNumActiveOutgoingLinks m id s2 = 0%nat → outgoing annotations id = [].
Proof.
  intros H2 Hzero. destruct (outgoing annotations id) as [|b l] eqn:Hin; [done|].
  exfalso. destruct (outgoing_inv annotations id) as (a & Ha & Hact & Hsrc);
    [by rewrite Hin|].
  destruct (readGT_annotations_sets m annotations s2 a H2 Ha Hact)
    as (hyp & Hfind & Hlink & _).
  revert Hzero.
  apply (getNumActiveOutgoingLinks_pos m id s2 ((src a, dest a), hyp)); [|done|].
  - by apply map_find_elem_of.
  - by apply (isActive_sol_get_pos s2 _ 1%nat); [|lia].
Qed.

Lemma readGT_annotations_binary m annotations s2 :
  readGT_annotations m annotations = Ok s2 → binary s2.
Proof.
  unfold readGT_annotations. intros H. apply bind_Ok_inv in H as (s1 & H1 & H2).
  apply (extends_binary s1); [eapply for_each_extends; [|done]; apply readGT_target_extends|].
  apply (extends_binary (replicate (model_numberOfVariables m) 0%nat));
    [eapply for_each_extends; [|done]; apply readGT_source_extends|].
  apply Forall_replicate. auto.
Qed.

(** Every label 1 of a returned labeling is one that the annotations ask
    for. *)
Lemma readGTfromJson_ones_labelled m annotations solution :
  built m → readGTfromJson m annotations = Ok solution →
  ∀ j, sol_get solution j = Ok 1%nat → labelled m annotations j.
Proof.
  unfold readGTfromJson. intros Hbuilt H j Hj.
  apply bind_Ok_inv in H as (s2 & H2 & H3).
  pose proof (readGT_annotations_length _ _ _ H2) as Hlen2.
  pose proof (readGT_annotations_binary _ _ _ H2) as Hbin2.
  pose proof (readGT_annotations_ones m annotations s2 Hbuilt H2) as Hcore.
  destruct (readGT_closing_loop_ones m s2 solution Hbuilt Hlen2 H3 j Hj)
    as [Hj2 | (entry & Hentry & Hact & Hcase)].
  { destruct (Hcore j Hj2) as [? | (id & hyp & Hfind & [[-> ?] | [-> ?]])];
      [by left|right..]; exists id, hyp; split; auto. }
  apply (isActive_binary s2 _ Hbin2) in Hact.
  pose proof (sol_get_inModel _ _ _ Hact) as HinD.
  assert (map_find entry.1 (segmentationHypotheses_ m) = Some entry.2
          ∧ (outgoing annotations entry.1 ≠ [] ∨ incoming annotations entry.1 ≠ []))
    as [Hfind Hends].
  { destruct (Hcore _ Hact) as [(b & hypb & _ & _ & Hfindb & Heq)
                               | (id & hyp & Hfind & [[Heq Hends] | [Heq _]])].
    - exfalso. symmetry in Heq. revert Heq.
      apply (built_not_link m entry 0 _ ((src b, dest b), hypb)); try done.
      by apply map_find_elem_of.
    - destruct (built_same_variable m entry 0 (id, hyp) 0
                  (getOpenGMVariableId (detection_ entry.2))) as [_ ->]; try done.
      + by apply map_find_elem_of.
      + simpl. by rewrite Heq.
    - exfalso.
      destruct (built_same_variable m entry 0 (id, hyp) 1
                  (getOpenGMVariableId (detection_ entry.2))) as [? _]; try done.
      + by apply map_find_elem_of.
      + simpl. by rewrite Heq. }
  right. exists entry.1, entry.2. split; [done|].
  destruct Hcase as [[-> Hzero] | [-> Hzero]].
  - apply (readGT_annotations_incoming m annotations s2) in Hzero; [|done].
    right. right. left. split; [done|]. split; [|done].
    destruct Hends as [?|Hends]; [done|]. by rewrite Hzero in Hends.
  - apply (readGT_annotations_outgoing m annotations s2) in Hzero; [|done].
    right. right. right. split; [done|]. split; [|done].
    destruct Hends as [Hends|?]; [|done]. by rewrite Hzero in Hends.
Qed.

(** ** [readGTfromJson]: the labeling of a built graph *)

Lemma built_link_not_variable m id hyp q linkEntry :
  built m → map_find id (segmentationHypotheses_ m) = Some hyp →
  linkEntry ∈ linkingHypotheses_ m →
  inModel (getOpenGMVariableId (variable_ linkEntry.2)) →
  variableIds hyp !! q ≠ Some (getOpenGMVariableId (variable_ linkEntry.2)).
Proof.
  intros Hbuilt Hfind Hin Hid Hq. apply map_find_elem_of in Hfind.
  by apply (built_not_link m (id, hyp) q _ linkEntry Hbuilt Hfind Hq Hid Hin).
Qed.

Lemma labelled_link m annotations linkEntry :
  built m → linkEntry ∈ linkingHypotheses_ m →
  inModel (getOpenGMVariableId (variable_ linkEntry.2)) →
  labelled m annotations (getOpenGMVariableId (variable_ linkEntry.2)) →
  ∃ a, a ∈ annotations ∧ value a = true ∧ (src a, dest a) = linkEntry.1.
Proof.
  intros Hbuilt Hin Hid [(a & hyp & Ha & Hact & Hfind & Heq) | (id & hyp & Hfind & H)].
  - exists a. split_and!; try done.
    apply map_find_elem_of in Hfind.
    by rewrite (built_same_link m linkEntry ((src a, dest a), hyp)).
  - exfalso.
    destruct H as [[Heq _] | [[Heq _] | [[Heq _] | [Heq _]]]].
    + apply (built_link_not_variable m id hyp 0 linkEntry); try done.
      simpl. by rewrite Heq.
    + apply (built_link_not_variable m id hyp 1 linkEntry); try done.
      simpl. by rewrite Heq.
    + apply (built_link_not_variable m id hyp 2 linkEntry); try done.
      simpl. by rewrite Heq.
    + apply (built_link_not_variable m id hyp 3 linkEntry); try done.
      simpl. by rewrite Heq.
Qed.

(** What the annotations ask of the variable [q] (detection, division,
    appearance, disappearance) of a hypothesis. *)
Lemma labelled_variable m annotations id hyp q j :
  built m → map_find id (segmentationHypotheses_ m) = Some hyp →
  variableIds hyp !! q = Some j → inModel j →
  labelled m annotations j →
  match q with
  | 0%nat => outgoing annotations id ≠ [] ∨ incoming annotations id ≠ []
  | 1%nat => (2 ≤ length (outgoing annotations id))%nat
  | 2%nat => outgoing annotations id ≠ [] ∧ incoming annotations id = []
  | _ => incoming annotations id ≠ [] ∧ outgoing annotations id = []
  end.
Proof.
  intros Hbuilt Hfind Hq Hj [(a & hypa & _ & _ & Hfinda & Heq) | (id' & hyp' & Hfind' & H)].
  - exfalso. apply map_find_elem_of in Hfinda. subst j.
    by apply (built_link_not_variable m id hyp q ((src a, dest a), hypa)).
  - pose proof (map_find_elem_of _ _ _ Hfind) as Hin.
    pose proof (map_find_elem_of _ _ _ Hfind') as Hin'.
    destruct H as [[Heq H] | [[Heq H] | [[Heq H] | [Heq H]]]].
    + destruct (built_same_variable m (id, hyp) q (id', hyp') 0 j) as [-> [= -> ->]];
        try done. simpl. by rewrite Heq.
    + destruct (built_same_variable m (id, hyp) q (id', hyp') 1 j) as [-> [= -> ->]];
        try done. simpl. by rewrite Heq.
    + destruct (built_same_variable m (id, hyp) q (id', hyp') 2 j) as [-> [= -> ->]];
        try done. simpl. by rewrite Heq.
    + destruct (built_same_variable m (id, hyp) q (id', hyp') 3 j) as [-> [= -> ->]];
        try done. simpl. by rewrite Heq.
Qed.

Lemma filter_two {A} (P : A → Prop) `{∀ x, Decision (P x)} (l : list A) :
  (2 ≤ length (filter P l))%nat →
  ∃ l1 a1 l2 a2 l3, l = l1 ++ a1 :: l2 ++ a2 :: l3 ∧ P a1 ∧ P a2.
Proof.
  induction l as [|x l IH]; [simpl; lia|].
  rewrite filter_cons. destruct (decide (P x)) as [Hx|Hx].
  - simpl. intros Hlen.
    destruct (filter P l) as [|a2 l'] eqn:Hf; [simpl in Hlen; lia|].
    assert (a2 ∈ filter P l) as Ha2 by (rewrite Hf; apply elem_of_cons; by left).
    apply list_elem_of_filter in Ha2 as [HP2 Ha2].
    apply list_elem_of_split in Ha2 as (l2 & l3 & ->).
    by exists [], x, l2, a2, l3.
  - intros Hlen. destruct (IH Hlen) as (l1 & a1 & l2 & a2 & l3 & -> & ? & ?).
    by exists (x :: l1), a1, l2, a2, l3.
Qed.

Lemma segmentationHypotheses_at_Some m id hyp :
  map_find id (segmentationHypotheses_ m) = Some hyp →
  segmentationHypotheses_at m id = hyp.
Proof. unfold segmentationHypotheses_at. by intros ->. Qed.

Lemma readGTfromJson_binary_solution m annotations solution :
  readGTfromJson m annotations = Ok solution → binary solution.
Proof.
  unfold readGTfromJson. intros H. apply bind_Ok_inv in H as (s2 & H2 & H3).
  apply (extends_binary s2); [|by eapply readGT_annotations_binary].
  eapply for_each_extends; [|done]. apply readGT_closing_extends.
Qed.

(** The detection of a hypothesis at an end of an active annotation. *)
Lemma readGTfromJson_detection_set m annotations solution id hyp :
  readGTfromJson m annotations = Ok solution →
  map_find id (segmentationHypotheses_ m) = Some hyp →
  outgoing annotations id ≠ [] ∨ incoming annotations id ≠ [] →
  sol_get solution (getOpenGMVariableId (detection_ hyp)) = Ok 1%nat.
Proof.
  intros H Hfind [Hout | Hinc].
  - apply outgoing_inv in Hout as (a & Ha & Hact & <-).
    destruct (readGTfromJson_sets m annotations solution a H Ha Hact)
      as (_ & _ & _ & Hdet & _).
    by rewrite (segmentationHypotheses_at_Some m _ hyp) in Hdet.
  - apply incoming_inv in Hinc as (a & Ha & Hact & <-).
    destruct (readGTfromJson_sets m annotations solution a H Ha Hact)
      as (_ & _ & _ & _ & Hdet).
    by rewrite (segmentationHypotheses_at_Some m _ hyp) in Hdet.
Qed.

(** In a returned labeling of a built graph, the active links are the
    annotated ones. *)
Lemma readGTfromJson_link_annotated m annotations solution linkEntry :
  built m → readGTfromJson m annotations = Ok solution →
  linkEntry ∈ linkingHypotheses_ m →
  isActive solution (variable_ linkEntry.2) = true →
  ∃ a, a ∈ annotations ∧ value a = true ∧ (src a, dest a) = linkEntry.1.
Proof.
  intros Hbuilt H Hin Hact.
  apply isActive_binary in Hact; [|by eapply readGTfromJson_binary_solution].
  apply (labelled_link m); try done.
  - by eapply sol_get_inModel.
  - by eapply readGTfromJson_ones_labelled.
Qed.

(** Every variable that the annotations ask for is 1 in a returned
    labeling. *)
Lemma readGTfromJson_labelled_ones m annotations solution :
  built m → readGTfromJson m annotations = Ok solution →
  ∀ j, labelled m annotations j → sol_get solution j = Ok 1%nat.
Proof.
  intros Hbuilt H j [(a & hyp & Ha & Hact & Hfind & ->) | (id & hyp & Hfind & Hj)].
  { destruct (readGTfromJson_sets m annotations solution a H Ha Hact)
      as (hyp' & Hfind' & Hlink & _).
    rewrite Hfind in Hfind'. by injection Hfind' as <-. }
  assert (∀ entry, entry ∈ segmentationHypotheses_ m → closed m solution entry)
    as Hclosed.
  { pose proof H as H'. unfold readGTfromJson in H'.
    apply bind_Ok_inv in H' as (s2 & H2 & H3).
    pose proof (readGT_closing_loop m s2 (segmentationHypotheses_ m) s2 Hbuilt
                  (fun _ Hin => Hin) (readGT_annotations_length _ _ _ H2)
                  (agreeOnCore_refl m s2)) as Hloop.
    rewrite H3 in Hloop. by destruct Hloop as (_ & _ & _ & ?). }
  pose proof (map_find_elem_of _ _ _ Hfind) as Hin.
  destruct Hj as [[-> Hends] | [[-> Htwo] | [[-> [Hout Hinc]] | [-> [Hinc Hout]]]]].
  - by apply (readGTfromJson_detection_set m annotations solution id).
  - apply filter_two in Htwo
      as (l1 & a1 & l2 & a2 & l3 & Hsplit & [Hact1 Hsrc1] & [Hact2 Hsrc2]).
    rewrite Hsplit in H.
    pose proof (readGTfromJson_division_set m l1 l2 l3 a1 a2 solution H Hact1 Hact2)
      as Hdiv.
    rewrite Hsrc1, (segmentationHypotheses_at_Some m _ hyp) in Hdiv by done.
    apply Hdiv. by rewrite Hsrc2.
  - destruct (Hclosed (id, hyp) Hin) as [Happ _].
    { apply (isActive_sol_get_pos _ _ 1%nat); [|lia].
      apply (readGTfromJson_detection_set m annotations solution id); auto. }
    apply Happ. apply getNumActiveIncomingLinks_zero. intros e He Hdest.
    destruct (isActive solution (variable_ e.2)) eqn:Hact; [|done]. exfalso.
    destruct (readGTfromJson_link_annotated m annotations solution e)
      as (a & Ha & Hacta & Hkey); try done.
    apply (incoming_elem_of annotations a) in Ha; [|done].
    destruct e as [[? ?] ?]. simpl in *. injection Hkey as ? ?. by subst.
  - destruct (Hclosed (id, hyp) Hin) as [_ Hdis].
    { apply (isActive_sol_get_pos _ _ 1%nat); [|lia].
      apply (readGTfromJson_detection_set m annotations solution id); auto. }
    apply Hdis. apply getNumActiveOutgoingLinks_zero. intros e He Hsrc.
    destruct (isActive solution (variable_ e.2)) eqn:Hact; [|done]. exfalso.
    destruct (readGTfromJson_link_annotated m annotations solution e)
      as (a & Ha & Hacta & Hkey); try done.
    apply (outgoing_elem_of annotations a) in Ha; [|done].
    destruct e as [[? ?] ?]. simpl in *. injection Hkey as ? ?. by subst.
Qed.

(** X13: in a labeling that [readGTfromJson] returns for a built graph,
    the variable of a registered link is 1 exactly when an active
    annotation names that link. *)
Theorem readGTfromJson_links (m : Model) (annotations : list LinkResult)
    (solution : Solution) (key : Z * Z) (hyp : LinkingHypothesis) :
  built m → readGTfromJson m annotations = Ok solution →
  map_find key (linkingHypotheses_ m) = Some hyp →
  (sol_get solution (getOpenGMVariableId (variable_ hyp)) = Ok 1%nat
   ↔ ∃ a, a ∈ annotations ∧ value a = true ∧ (src a, dest a) = key).
Proof.
  intros Hbuilt H Hfind. split.
  - intros Hone.
    apply (labelled_link m annotations (key, hyp)); try done.
    + by apply map_find_elem_of.
    + by eapply sol_get_inModel.
    + by eapply readGTfromJson_ones_labelled.
  - intros (a & Ha & Hact & Hkey).
    apply (readGTfromJson_labelled_ones m annotations); try done.
    left. exists a, hyp. by rewrite Hkey.
Qed.

Lemma readGTfromJson_links_witness :
  sol_get [1; 1; 0; 1; 1; 1; 0; 1; 0; 1; 1; 0; 1; 0; 0; 0]%nat
    (getOpenGMVariableId (variable_ {| variable_ := mkVar [0.5%float] 2 |})) = Ok 1%nat
  ↔ ∃ a, a ∈ [mkLinkResult 1 2 true; mkLinkResult 1 3 true]
         ∧ value a = true ∧ (src a, dest a) = (1, 4).
Proof.
  apply (readGTfromJson_links graph_division).
  - apply (bool_decide_unpack (built graph_division)). vm_compute. exact I.
  - vm_compute. reflexivity.
  - vm_compute. reflexivity.
Defined.

(** X14: in a labeling that [readGTfromJson] returns for a built graph,
    the detection of a hypothesis is 1 exactly when an active annotation
    leaves or enters the hypothesis. *)
Theorem readGTfromJson_detections (m : Model) (annotations : list LinkResult)
    (solution : Solution) (id : Z) (hyp : SegmentationHypothesis) :
  built m → readGTfromJson m annotations = Ok solution →
  map_find id (segmentationHypotheses_ m) = Some hyp →
  (sol_get solution (getOpenGMVariableId (getDetectionVariable hyp)) = Ok 1%nat
   ↔ outgoing annotations id ≠ [] ∨ incoming annotations id ≠ []).
Proof.
  intros Hbuilt H Hfind. split.
  - intros Hone.
    apply (labelled_variable m annotations id hyp 0 _ Hbuilt Hfind eq_refl).
    + by eapply sol_get_inModel.
    + by eapply readGTfromJson_ones_labelled.
  - by apply (readGTfromJson_detection_set m annotations solution id).
Qed.

Lemma readGTfromJson_detections_witness :
  sol_get [1; 1; 0; 1; 1; 1; 0; 1; 0; 1; 1; 0; 1; 0; 0; 0]%nat
    (getOpenGMVariableId
       (getDetectionVariable
          {| detection_ := mkVar [0.5%float] 13; division_ := mkVar [] (-1);
             appearance_ := mkVar [0.5%float] 14;
             disappearance_ := mkVar [0.5%float] 15 |})) = Ok 1%nat
  ↔ outgoing [mkLinkResult 1 2 true; mkLinkResult 1 3 true] 4 ≠ []
    ∨ incoming [mkLinkResult 1 2 true; mkLinkResult 1 3 true] 4 ≠ [].
Proof.
  apply (readGTfromJson_detections graph_division).
  - apply (bool_decide_unpack (built graph_division)). vm_compute. exact I.
  - vm_compute. reflexivity.
  - vm_compute. reflexivity.
Defined.

(** X15: in a labeling that [readGTfromJson] returns for a built graph,
    the division of a hypothesis is 1 exactly when at least two active
    annotations of the annotation set leave the hypothesis; an annotation
    that is listed twice counts twice. *)
Theorem readGTfromJson_divisions (m : Model) (annotations : list LinkResult)
    (solution : Solution) (id : Z) (hyp : SegmentationHypothesis) :
  built m → readGTfromJson m annotations = Ok solution →
  map_find id (segmentationHypotheses_ m) = Some hyp →
  (sol_get solution (getOpenGMVariableId (getDivisionVariable hyp)) = Ok 1%nat
   ↔ (2 ≤ length (outgoing annotations id))%nat).
Proof.
  intros Hbuilt H Hfind. split.
  - intros Hone.
    apply (labelled_variable m annotations id hyp 1 _ Hbuilt Hfind eq_refl).
    + by eapply sol_get_inModel.
    + by eapply readGTfromJson_ones_labelled.
  - intros Htwo. apply (readGTfromJson_labelled_ones m annotations); try done.
    right. exists id, hyp. split; [done|]. right. left. done.
Qed.

Lemma readGTfromJson_divisions_witness :
  sol_get [1; 0; 0; 1; 1; 1; 0; 1; 0; 1; 0; 0; 0; 0; 0; 0]%nat
    (getOpenGMVariableId
       (getDivisionVariable
          {| detection_ := mkVar [0.5%float] 3; division_ := mkVar [0.5%float] 4;
             appearance_ := mkVar [0.5%float] 5;
             disappearance_ := mkVar [0.5%float] 6 |})) = Ok 1%nat
  ↔ (2 ≤ length (outgoing [mkLinkResult 1 2 true; mkLinkResult 1 2 true] 1))%nat.
Proof.
  apply (readGTfromJson_divisions graph_division).
  - apply (bool_decide_unpack (built graph_division)). vm_compute. exact I.
  - vm_compute. reflexivity.
  - vm_compute. reflexivity.
Defined.

(** X16: in a labeling that [readGTfromJson] returns for a built graph,
    the appearance of a hypothesis is 1 exactly when active annotations
    leave it and none enters it, and its disappearance is 1 exactly when
    active annotations enter it and none leaves it. *)
Theorem readGTfromJson_appearances (m : Model) (annotations : list LinkResult)
    (solution : Solution) (id : Z) (hyp : SegmentationHypothesis) :
  built m → readGTfromJson m annotations = Ok solution →
  map_find id (segmentationHypotheses_ m) = Some hyp →
  (sol_get solution (getOpenGMVariableId (getAppearanceVariable hyp)) = Ok 1%nat
   ↔ outgoing annotations id ≠ [] ∧ incoming annotations id = [])
  ∧ (sol_get solution (getOpenGMVariableId (getDisappearanceVariable hyp)) = Ok 1%nat
     ↔ incoming annotations id ≠ [] ∧ outgoing annotations id = []).
Proof.
  intros Hbuilt H Hfind. split; split.
  - intros Hone.
    apply (labelled_variable m annotations id hyp 2 _ Hbuilt Hfind eq_refl).
    + by eapply sol_get_inModel.
    + by eapply readGTfromJson_ones_labelled.
  - intros Hcond. apply (readGTfromJson_labelled_ones m annotations); try done.
    right. exists id, hyp. split; [done|]. right. right. left. done.
  - intros Hone.
    apply (labelled_variable m annotations id hyp 3 _ Hbuilt Hfind eq_refl).
    + by eapply sol_get_inModel.
    + by eapply readGTfromJson_ones_labelled.
  - intros Hcond. apply (readGTfromJson_labelled_ones m annotations); try done.
    right. exists id, hyp. split; [done|]. right. right. right. done.
Qed.

Lemma readGTfromJson_appearances_witness :
  (sol_get [1; 1; 0; 1; 1; 1; 0; 1; 0; 1; 1; 0; 1; 0; 0; 0]%nat
     (getOpenGMVariableId
        (getAppearanceVariable
           {| detection_ := mkVar [0.5%float] 3; division_ := mkVar [0.5%float] 4;
              appearance_ := mkVar [0.5%float] 5;
              disappearance_ := mkVar [0.5%float] 6 |})) = Ok 1%nat
   ↔ outgoing [mkLinkResult 1 2 true; mkLinkResult 1 3 true] 1 ≠ []
     ∧ incoming [mkLinkResult 1 2 true; mkLinkResult 1 3 true] 1 = [])
  ∧ (sol_get [1; 1; 0; 1; 1; 1; 0; 1; 0; 1; 1; 0; 1; 0; 0; 0]%nat
       (getOpenGMVariableId
          (getDisappearanceVariable
             {| detection_ := mkVar [0.5%float] 3; division_ := mkVar [0.5%float] 4;
                appearance_ := mkVar [0.5%float] 5;
                disappearance_ := mkVar [0.5%float] 6 |})) = Ok 1%nat
     ↔ incoming [mkLinkResult 1 2 true; mkLinkResult 1 3 true] 1 ≠ []
       ∧ outgoing [mkLinkResult 1 2 true; mkLinkResult 1 3 true] 1 = []).
Proof.
  apply (readGTfromJson_appearances graph_division).
  - apply (bool_decide_unpack (built graph_division)). vm_compute. exact I.
  - vm_compute. reflexivity.
  - vm_compute. reflexivity.
Defined.

(** ** [saveResultToJson] after [readGTfromJson] *)

Lemma saveResultToJson_links_loop sol (l : list ((Z * Z) * LinkingHypothesis))
    (acc : list LinkResult) :
  Forall (fun entry : (Z * Z) * LinkingHypothesis =>
            in_range sol (getOpenGMVariableId (variable_ entry.2)) = true) l →
  for_each (saveResultToJson_link sol) l acc
  = Ok (acc ++ ((fun entry : (Z * Z) * LinkingHypothesis =>
                   LinkingHypothesis_toJson entry.1 (isActive sol (variable_ entry.2)))
                <$> l)).
Proof.
  revert acc. induction l as [|entry l IH]; intros acc Hrange; simpl.
  { by rewrite app_nil_r. }
  apply Forall_cons in Hrange as [Hentry Hrange].
  assert (saveResultToJson_link sol acc entry
          = Ok (acc ++ [LinkingHypothesis_toJson entry.1
                          (isActive sol (variable_ entry.2))])) as ->.
  { unfold saveResultToJson_link, isActive, sol_get. rewrite Hentry. simpl.
    by destruct (default 0%nat
                   (sol !! Z.to_nat (getOpenGMVariableId (variable_ entry.2)))). }
  simpl. rewrite IH by done. by rewrite <- app_assoc.
Qed.

Lemma saveResultToJson_links_Ok sol (l : list ((Z * Z) * LinkingHypothesis))
    (acc linksJson : list LinkResult) :
  for_each (saveResultToJson_link sol) l acc = Ok linksJson →
  Forall (fun entry : (Z * Z) * LinkingHypothesis =>
            in_range sol (getOpenGMVariableId (variable_ entry.2)) = true) l.
Proof.
  revert acc. induction l as [|entry l IH]; intros acc H; [done|].
  simpl in H. apply bind_Ok_inv in H as (acc' & Hstep & H).
  constructor; [|by eapply IH].
  unfold saveResultToJson_link, sol_get in Hstep.
  by destruct (in_range sol (getOpenGMVariableId (variable_ entry.2))).
Qed.

Lemma saveResultToJson_links_no_throw sol (l : list ((Z * Z) * LinkingHypothesis))
    (acc : list LinkResult) (e : Error) :
  for_each (saveResultToJson_link sol) l acc ≠ Throw e.
Proof.
  intros H. apply for_each_Throw_inv in H as (pre & entry & post & acc' & _ & _ & H).
  unfold saveResultToJson_link in H.
  apply bind_Throw_inv in H as [H | (v & _ & H)]; [|done].
  by apply sol_get_no_throw in H.
Qed.

Lemma map_find_NoDup {K V} `{EqDecision K} (k : K) (v : V) (l : list (K * V)) :
  NoDup l.*1 → (k, v) ∈ l → map_find k l = Some v.
Proof.
  induction l as [|[k' v'] l IH]; intros Hnd Hin; [by apply elem_of_nil in Hin|].
  simpl in *. apply NoDup_cons in Hnd as [Hnotin Hnd].
  apply elem_of_cons in Hin as [[= <- <-] | Hin].
  - by rewrite decide_True.
  - destruct (decide (k = k')) as [<-|Hne]; [|auto].
    exfalso. apply Hnotin. apply list_elem_of_fmap. by exists (k, v).
Qed.

Lemma readGTfromJson_length m annotations solution :
  readGTfromJson m annotations = Ok solution →
  length solution = model_numberOfVariables m.
Proof.
  intros H. apply readGTfromJson_Ok in H as (s1 & s2 & _ & _ & _ & H1 & H2 & H3).
  rewrite (extends_length _ _ H3), (extends_length _ _ H2), (extends_length _ _ H1).
  apply length_replicate.
Qed.

Lemma annotated_spec annotations key :
  annotated annotations key = true
  ↔ ∃ a, a ∈ annotations ∧ value a = true ∧ (src a, dest a) = key.
Proof.
  unfold annotated. rewrite existsb_exists. split.
  - intros (a & Ha & Hb). apply andb_true_iff in Hb as [Hact Hkey].
    apply bool_decide_eq_true_1 in Hkey. exists a. by rewrite list_elem_of_In.
  - intros (a & Ha & Hact & Hkey). exists a. rewrite <- list_elem_of_In.
    split; [done|]. by rewrite Hact, bool_decide_eq_true_2.
Qed.

(** On a built graph with one link per pair of ids, the active links of a
    returned labeling are the annotated ones. *)
Lemma readGTfromJson_isActive_annotated m annotations solution linkEntry :
  built m → NoDup (linkingHypotheses_ m).*1 →
  readGTfromJson m annotations = Ok solution →
  linkEntry ∈ linkingHypotheses_ m →
  isActive solution (variable_ linkEntry.2) = annotated annotations linkEntry.1.
Proof.
  intros Hbuilt Hkeys H Hentry.
  destruct (isActive solution (variable_ linkEntry.2)) eqn:Hact.
  - symmetry. apply annotated_spec.
    by apply (readGTfromJson_link_annotated m annotations solution).
  - destruct (annotated annotations linkEntry.1) eqn:Hann; [|done].
    apply annotated_spec in Hann as (a & Ha & Hacta & Hkey).
    destruct (readGTfromJson_sets m annotations solution a H Ha Hacta)
      as (hyp & Hfind & Hone & _).
    rewrite Hkey, (map_find_NoDup linkEntry.1 linkEntry.2) in Hfind;
      [|done|by destruct linkEntry].
    injection Hfind as <-.
    by rewrite (isActive_sol_get_pos solution _ 1%nat) in Hact; [|..|lia].
Qed.

(** X17: the export of a reconstructed labeling gives the annotations
    back.  For a built graph whose links all have a variable in the
    model, [saveResultToJson] on the labeling that [readGTfromJson]
    returned writes one entry per link, in the order of the links, with
    the value true exactly for the links that an active annotation
    names. *)
Theorem saveResultToJson_readGTfromJson (null_isArray : bool) (filename : string)
    (m : Model) (annotations : list LinkResult) (solution : Solution) :
  built m →
  NoDup (linkingHypotheses_ m).*1 →
  Forall (fun entry : (Z * Z) * LinkingHypothesis =>
            inModel (getOpenGMVariableId (variable_ entry.2)))
         (linkingHypotheses_ m) →
  null_isArray = true ∨ linkingHypotheses_ m ≠ [] →
  readGTfromJson m annotations = Ok solution →
  saveResultToJson true null_isArray filename m solution
  = Written ((fun entry : (Z * Z) * LinkingHypothesis =>
                LinkingHypothesis_toJson entry.1 (annotated annotations entry.1))
             <$> linkingHypotheses_ m).
Proof.
  intros Hbuilt Hkeys Hlinks Harray H.
  unfold saveResultToJson. simpl. rewrite saveResultToJson_links_loop.
  2:{ rewrite Forall_forall in Hlinks. apply Forall_forall. intros entry Hentry.
      apply (in_range_built m); [|by eapply readGTfromJson_length].
      apply built_link_in_range; auto. }
  assert ((fun entry : (Z * Z) * LinkingHypothesis =>
             LinkingHypothesis_toJson entry.1 (isActive solution (variable_ entry.2)))
          <$> linkingHypotheses_ m
          = (fun entry : (Z * Z) * LinkingHypothesis =>
               LinkingHypothesis_toJson entry.1 (annotated annotations entry.1))
            <$> linkingHypotheses_ m) as ->.
  { apply list_fmap_ext. intros k entry Hentry. f_equal.
    apply list_elem_of_lookup_2 in Hentry.
    by apply (readGTfromJson_isActive_annotated m annotations solution). }
  destruct Harray as [-> | Hne].
  - by destruct (linkingHypotheses_ m).
  - by destruct (linkingHypotheses_ m).
Qed.

Lemma saveResultToJson_readGTfromJson_witness :
  saveResultToJson true false "result.json" graph_division
    [1; 1; 0; 1; 1; 1; 0; 1; 0; 1; 1; 0; 1; 0; 0; 0]%nat
  = Written ((fun entry : (Z * Z) * LinkingHypothesis =>
                LinkingHypothesis_toJson entry.1
                  (annotated [mkLinkResult 1 2 true; mkLinkResult 1 3 true] entry.1))
             <$> linkingHypotheses_ graph_division).
Proof.
  apply (saveResultToJson_readGTfromJson false "result.json" graph_division
           [mkLinkResult 1 2 true; mkLinkResult 1 3 true]).
  - apply (bool_decide_unpack (built graph_division)). vm_compute. exact I.
  - apply (bool_decide_unpack _). vm_compute. exact I.
  - apply (bool_decide_unpack _). vm_compute. exact I.
  - right. discriminate.
  - vm_compute. reflexivity.
Defined.

(** X18: when the file could be opened and the variable of every link has
    an id inside the solution vector, [saveResultToJson] writes one entry
    per link, in the order of the links, with the ids of the link and
    whether its label is positive; the array must not be left empty where
    jsoncpp does not take the null value for an array. *)
Theorem saveResultToJson_written (null_isArray : bool) (filename : string)
    (m : Model) (sol : Solution) :
  Forall (fun entry : (Z * Z) * LinkingHypothesis =>
            in_range sol (getOpenGMVariableId (variable_ entry.2)) = true)
         (linkingHypotheses_ m) →
  null_isArray = true ∨ linkingHypotheses_ m ≠ [] →
  saveResultToJson true null_isArray filename m sol
  = Written ((fun entry : (Z * Z) * LinkingHypothesis =>
                LinkingHypothesis_toJson entry.1 (isActive sol (variable_ entry.2)))
             <$> linkingHypotheses_ m).
Proof.
  intros Hrange Harray. unfold saveResultToJson. simpl.
  rewrite (saveResultToJson_links_loop sol _ [] Hrange). simpl.
  destruct Harray as [-> | Hne]; by destruct (linkingHypotheses_ m).
Qed.

Lemma saveResultToJson_written_witness :
  saveResultToJson true false "result.json" graph_division
    [0; 1; 1; 1; 0; 1; 0; 1; 0; 1; 0; 0; 0; 0; 0; 0]%nat
  = Written [mkLinkResult 1 2 false; mkLinkResult 1 3 true; mkLinkResult 1 4 true].
Proof.
  apply (saveResultToJson_written false "result.json" graph_division
           [0; 1; 1; 1; 0; 1; 0; 1; 0; 1; 0; 0; 0; 0; 0; 0]%nat).
  - apply (bool_decide_unpack _). vm_compute. exact I.
  - right. discriminate.
Defined.

(** X19: [saveResultToJson] throws in two cases only: the file could not
    be opened; or the graph has no link at all and jsoncpp does not take
    the null value for an array.  The loop over the links throws
    nothing. *)
Theorem saveResultToJson_throws (output_good null_isArray : bool) (filename : string)
    (m : Model) (sol : Solution) (message : string) :
  saveResultToJson output_good null_isArray filename m sol = SaveThrow message
  ↔ (output_good = false
     ∧ message = "Could not open JSON result file for saving: " +:+ filename)
    ∨ (output_good = true ∧ null_isArray = false ∧ linkingHypotheses_ m = []
       ∧ message = "Cannot save results to non-array JSON entry"%string).
Proof.
  unfold saveResultToJson. destruct output_good; simpl.
  2:{ split; [intros [= <-]; auto | intros [[_ ->] | [? _]]; done]. }
  destruct (for_each (saveResultToJson_link sol) (linkingHypotheses_ m) [])
    as [linksJson|e|] eqn:Hlinks.
  - pose proof (saveResultToJson_links_Ok sol _ _ _ Hlinks) as Hrange.
    rewrite (saveResultToJson_links_loop sol _ [] Hrange) in Hlinks.
    injection Hlinks as <-. simpl.
    destruct (linkingHypotheses_ m) as [|entry l]; simpl.
    + destruct null_isArray; simpl.
      * split; [done | intros [[? _] | (_ & ? & _)]; done].
      * split; [intros [= <-]; auto | intros [[? _] | (_ & _ & _ & ->)]; done].
    + split; [done | intros [[? _] | (_ & _ & ? & _)]; done].
  - by apply saveResultToJson_links_no_throw in Hlinks.
  - split; [done|]. intros [[? _] | (_ & _ & Hnil & _)]; [done|].
    rewrite Hnil in Hlinks. done.
Qed.

(** ** [getWeightDescriptions]: the descriptions are distinct *)

Lemma show_nat_inj a b : show_nat a = show_nat b → a = b.
Proof.
  assert (∀ n, Nat.to_uint n ≠ Decimal.Nil) as Hnonnil.
  { intros n. rewrite <- (DecimalNat.Unsigned.of_to n), DecimalNat.Unsigned.to_of.
    apply DecimalFacts.unorm_nonnil. }
  unfold show_nat. intros H. apply DecimalNat.Unsigned.to_uint_inj.
  assert (Some (Nat.to_uint a) = Some (Nat.to_uint b)) as [=]; [|done].
  rewrite <- !NilZero.usu by apply Hnonnil. by rewrite H.
Qed.

Lemma description_inj name state f f' :
  description name state f = description name state f' → f = f'.
Proof.
  unfold description. intros H. do 4 apply String.app_inj in H. by apply show_nat_inj.
Qed.

Lemma description_state name f f' : description name 0 f ≠ description name 1 f'.
Proof.
  unfold description. intros H. do 2 apply String.app_inj in H. discriminate.
Qed.

Lemma map_fmap {A B} (f : A → B) (l : list A) : map f l = f <$> l.
Proof. done. Qed.

Lemma elem_of_descriptionBlock name numFeatures d :
  d ∈ descriptionBlock name numFeatures → ∃ state f, d = description name state f.
Proof.
  unfold descriptionBlock. rewrite !map_fmap, elem_of_app.
  intros [H | H]; apply list_elem_of_fmap in H as (f & -> & _); eauto.
Qed.

Lemma NoDup_descriptionBlock name numFeatures :
  NoDup (descriptionBlock name numFeatures).
Proof.
  unfold descriptionBlock. rewrite !map_fmap. apply NoDup_app. split_and!.
  - apply NoDup_fmap_2; [|apply NoDup_seq]. intros f f'. apply description_inj.
  - intros d Hd Hd'. apply list_elem_of_fmap in Hd as (f & -> & _).
    apply list_elem_of_fmap in Hd' as (f' & Heq & _). by apply description_state in Heq.
  - apply NoDup_fmap_2; [|apply NoDup_seq]. intros f f'. apply description_inj.
Qed.

(** X20: the descriptions that [getWeightDescriptions] returns are
    pairwise distinct: every weight has a description of its own. *)
Theorem getWeightDescriptions_NoDup (m m' : Model) (descriptions : list string) :
  getWeightDescriptions m = Ok (m', descriptions) → NoDup descriptions.
Proof.
  intros H. rewrite (getWeightDescriptions_blocks m m' descriptions H).
  repeat (apply NoDup_app; split_and!; [apply NoDup_descriptionBlock| |]);
    [..|apply NoDup_descriptionBlock];
    intros d (state & f & ->)%elem_of_descriptionBlock Hd;
    rewrite ?elem_of_app in Hd;
    destruct_or? Hd;
    apply elem_of_descriptionBlock in Hd as (state' & f' & Heq);
    unfold description in Heq; simpl in Heq; discriminate.
Qed.

Lemma getWeightDescriptions_NoDup_witness :
  NoDup ["Detection = 0 - feature 0"; "Detection = 1 - feature 0";
         "Appearance = 0 - feature 0"; "Appearance = 1 - feature 0";
         "Link = 0 - feature 0"; "Link = 1 - feature 0"]%string.
Proof.
  apply (getWeightDescriptions_NoDup graph_two
           (match computeNumWeights graph_two with Ok r => r.1 | _ => graph_two end)).
  vm_compute. reflexivity.
Defined.

(** ** [readGTfromJson] after [saveResultToJson] *)

Lemma readGTfromJson_filter_active m annotations :
  readGTfromJson m annotations
  = readGTfromJson m (filter (fun a => value a = true) annotations).
Proof.
  unfold readGTfromJson, readGT_annotations.
  rewrite <- (for_each_filter (fun a => value a = true) (readGT_source m)).
  2:{ intros s a Ha. unfold readGT_source. by destruct (value a). }
  destruct (for_each (readGT_source m) annotations _) as [s| |]; simpl; [|done..].
  rewrite <- (for_each_filter (fun a => value a = true) (readGT_target m)); [done|].
  intros s' a Ha. unfold readGT_target. by destruct (value a).
Qed.

(** X21: reading the export back.  For a built graph, when no active
    annotation is listed twice, the result that [saveResultToJson] writes
    for the labeling that [readGTfromJson] returned is an annotation set
    from which [readGTfromJson] returns the same labeling. *)
Theorem readGTfromJson_saveResultToJson (null_isArray : bool) (filename : string)
    (m : Model) (annotations linkResults : list LinkResult) (solution : Solution) :
  built m →
  NoDup (linkingHypotheses_ m).*1 →
  NoDup (filter (fun a => value a = true) annotations) →
  readGTfromJson m annotations = Ok solution →
  saveResultToJson true null_isArray filename m solution = Written linkResults →
  readGTfromJson m linkResults = Ok solution.
Proof.
  intros Hbuilt Hkeys Hnodup H Hsave.
  unfold saveResultToJson in Hsave. simpl in Hsave.
  destruct (for_each (saveResultToJson_link solution) (linkingHypotheses_ m) [])
    as [linksJson| |] eqn:Hlinks; [|done..].
  pose proof (saveResultToJson_links_Ok solution _ _ _ Hlinks) as Hrange.
  rewrite (saveResultToJson_links_loop solution _ [] Hrange) in Hlinks.
  injection Hlinks as <-. simpl in Hsave.
  destruct (negb _) in Hsave; [done|]. injection Hsave as <-.
  rewrite readGTfromJson_filter_active.
  apply (readGTfromJson_Permutation m (filter (fun a => value a = true) annotations));
    [done| |by rewrite <- readGTfromJson_filter_active].
  apply NoDup_Permutation; [done|..].
  - apply NoDup_filter.
    apply (NoDup_fmap_1 (fun r : LinkResult => (src r, dest r))).
    rewrite <- list_fmap_compose.
    erewrite list_fmap_ext; [exact Hkeys|]. by intros k [[? ?] ?] _.
  - intros x. rewrite !list_elem_of_filter, list_elem_of_fmap. split.
    + intros [Hact Hx]. split; [done|].
      destruct (readGTfromJson_sets m annotations solution x H Hx Hact)
        as (hyp & Hfind & _).
      apply map_find_elem_of in Hfind.
      exists ((src x, dest x), hyp). split; [|done].
      rewrite (readGTfromJson_isActive_annotated m annotations solution) by done.
      assert (annotated annotations (src x, dest x) = true) as Hann
        by (apply annotated_spec; by exists x).
      unfold LinkingHypothesis_toJson. simpl. rewrite Hann.
      destruct x. simpl in *. by subst.
    + intros (Hact & entry & -> & Hentry). simpl in Hact. split; [done|].
      rewrite (readGTfromJson_isActive_annotated m annotations solution) in Hact |- *
        by done.
      rewrite Hact. apply annotated_spec in Hact as (a & Ha & Hacta & Hkey).
      unfold LinkingHypothesis_toJson. rewrite <- Hkey. simpl.
      destruct a. simpl in *. by subst.
Qed.

Lemma readGTfromJson_saveResultToJson_witness :
  readGTfromJson graph_division
    [mkLinkResult 1 2 true; mkLinkResult 1 3 true; mkLinkResult 1 4 false]
  = Ok [1; 1; 0; 1; 1; 1; 0; 1; 0; 1; 1; 0; 1; 0; 0; 0]%nat.
Proof.
  apply (readGTfromJson_saveResultToJson false "result.json" graph_division
           [mkLinkResult 1 3 true; mkLinkResult 1 2 true]).
  - apply (bool_decide_unpack (built graph_division)). vm_compute. exact I.
  - apply (bool_decide_unpack _). vm_compute. exact I.
  - apply (bool_decide_unpack _). vm_compute. exact I.
  - vm_compute. reflexivity.
  - vm_compute. reflexivity.
Defined.
